(** * A model of the tabular cleaning pipeline of [cleaning.py]

    The pipeline is a sequence of stages over a pandas [DataFrame].  The
    model keeps the shape of the source: a frame is an index together with
    an ordered list of labelled columns, a column ([Series]) is a dtype and
    a list of cells, and every stage is a function from frames to frames
    (or to an outcome, where the stage can raise).

    Text is modelled as strings of eight-bit characters, the code points
    up to U+00FF.  What pandas and NumPy compute on
    numbers and timestamps (comparison, printing, parsing) is taken through
    the interface [NumPy]; the stages are written against it. *)

From Stdlib Require Import Ascii String ZArith QArith Qround Lia.
From stdpp Require Import base option list strings pretty gmap.

Local Open Scope string_scope.
Local Open Scope list_scope.

(** ** Text operations ([str] methods and the two regular expressions) *)

Module Text.

Definition code (c : ascii) : N := N_of_ascii c.

Definition in_range (lo hi : N) (c : ascii) : bool :=
  ((lo <=? code c) && (code c <=? hi))%N.

(** A character of the model is one of the first 256 code points, ASCII
    and Latin-1: the eight bits of [ascii].  On these the character
    classes and [str.lower] are as Python has them; a text with a
    character beyond U+00FF is outside the model. *)

(** [c.isspace()]: TAB..CR, FS..US, the blank, NEL (U+0085) and the
    no-break space (U+00A0). *)
Definition is_space (c : ascii) : bool :=
  in_range 9 13 c || in_range 28 32 c || in_range 133 133 c || in_range 160 160 c.

(** The characters that [str.lower] changes: A..Z, and the capital
    letters of Latin-1, U+00C0..U+00DE without the multiplication sign
    U+00D7.  Each is 32 code points below its lower-case form. *)
Definition is_upper (c : ascii) : bool :=
  in_range 65 90 c || in_range 192 214 c || in_range 216 222 c.

(** The character class [[a-z0-9]]. *)
Definition is_lower_alnum (c : ascii) : bool :=
  in_range 97 122 c || in_range 48 57 c.

Definition lower_char (c : ascii) : ascii :=
  if is_upper c then ascii_of_N (code c + 32) else c.

Fixpoint map_chars (f : ascii -> ascii) (s : string) : string :=
  match s with
  | EmptyString => EmptyString
  | String c s' => String (f c) (map_chars f s')
  end.

(** [s.lower()] *)
Definition lower (s : string) : string := map_chars lower_char s.

Fixpoint lstrip_with (p : ascii -> bool) (s : string) : string :=
  match s with
  | EmptyString => EmptyString
  | String c s' => if p c then lstrip_with p s' else s
  end.

Fixpoint rstrip_with (p : ascii -> bool) (s : string) : string :=
  match s with
  | EmptyString => EmptyString
  | String c s' =>
      match rstrip_with p s' with
      | EmptyString => if p c then EmptyString else String c EmptyString
      | r => String c r
      end
  end.

Definition strip_with (p : ascii -> bool) (s : string) : string :=
  rstrip_with p (lstrip_with p s).

(** [s.strip()] *)
Definition strip (s : string) : string := strip_with is_space s.

Fixpoint mem_char (c : ascii) (chars : string) : bool :=
  match chars with
  | EmptyString => false
  | String d chars' => Ascii.eqb c d || mem_char c chars'
  end.

(** [s.strip(chars)] *)
Definition strip_chars (chars : string) (s : string) : string :=
  strip_with (fun c => mem_char c chars) s.

(** [re.sub(cls+, repl, s)]: every maximal run of characters of the
    class [cls] is replaced by [repl].  [in_run] records that the
    previous character already belonged to the run being replaced. *)
Fixpoint sub_runs_from (cls : ascii -> bool) (repl : string)
         (in_run : bool) (s : string) : string :=
  match s with
  | EmptyString => EmptyString
  | String c s' =>
      if cls c
      then (if in_run then sub_runs_from cls repl true s'
            else repl ++ sub_runs_from cls repl true s')
      else String c (sub_runs_from cls repl false s')
  end.

Definition sub_runs (cls : ascii -> bool) (repl : string) (s : string) : string :=
  sub_runs_from cls repl false s.

(** [s.replace(c, repl)] for a one-character pattern, no regex. *)
Fixpoint replace_char (c : ascii) (repl : string) (s : string) : string :=
  match s with
  | EmptyString => EmptyString
  | String d s' =>
      if Ascii.eqb d c then repl ++ replace_char c repl s'
      else String d (replace_char c repl s')
  end.

Fixpoint all_chars (p : ascii -> bool) (s : string) : bool :=
  match s with
  | EmptyString => true
  | String c s' => p c && all_chars p s'
  end.

Fixpoint any_chars (p : ascii -> bool) (s : string) : bool :=
  match s with
  | EmptyString => false
  | String c s' => p c || any_chars p s'
  end.

(** The chain applied to one column label by [clean_column_names]. *)
Definition clean_name (name : string) : string :=
  strip_chars "_"
    (sub_runs (Ascii.eqb "_") "_"
       (sub_runs (fun c => negb (is_lower_alnum c)) "_"
          (lower (strip name)))).

(** A label holds an ASCII letter or digit. *)
Definition has_alnum (s : string) : bool :=
  any_chars (fun c => is_lower_alnum (lower_char c)) s.

End Text.

(** ** Regular expressions, as far as the label pattern needs them *)

Module Regex.

Inductive regex : Type :=
| Class (p : ascii -> bool)
| Cat (r1 r2 : regex)
| Plus (r : regex)
| Star (r : regex).

Inductive matches : regex -> string -> Prop :=
| MClass p c : p c = true -> matches (Class p) (String c EmptyString)
| MCat r1 r2 s1 s2 :
    matches r1 s1 -> matches r2 s2 -> matches (Cat r1 r2) (s1 ++ s2)
| MPlusOne r s : matches r s -> matches (Plus r) s
| MPlusMore r s1 s2 :
    matches r s1 -> matches (Plus r) s2 -> matches (Plus r) (s1 ++ s2)
| MStarNil r : matches (Star r) EmptyString
| MStarMore r s1 s2 :
    matches r s1 -> matches (Star r) s2 -> matches (Star r) (s1 ++ s2).

Definition alnum : regex := Class Text.is_lower_alnum.
Definition underscore : regex := Class (Ascii.eqb "_").

(** [[a-z0-9]+(_[a-z0-9]+)*] *)
Definition label_pattern : regex :=
  Cat (Plus alnum) (Star (Cat underscore (Plus alnum))).

End Regex.

(** ** Outcomes: a stage returns a frame or raises *)

Inductive exn : Type :=
| TypeError
| KeyError
| AmbiguousLabel.

Inductive outcome (A : Type) : Type :=
| Ok (a : A)
| Raise (e : exn).
Arguments Ok {A} a.
Arguments Raise {A} e.

#[global] Instance exn_eq_dec : EqDecision exn.
Proof. solve_decision. Defined.

#[global] Instance outcome_eq_dec {A : Type} `{EqDecision A} : EqDecision (outcome A).
Proof. solve_decision. Defined.

#[global] Instance outcome_ret : MRet outcome := fun A a => Ok a.
#[global] Instance outcome_bind : MBind outcome := fun A B f m =>
  match m with
  | Ok a => f a
  | Raise e => Raise e
  end.
#[global] Instance outcome_fmap : FMap outcome := fun A B f m =>
  match m with
  | Ok a => Ok (f a)
  | Raise e => Raise e
  end.

(** A [for] loop whose body may raise. *)
Fixpoint for_each {A S : Type} (xs : list A) (body : S -> A -> outcome S) (st : S)
  : outcome S :=
  match xs with
  | [] => Ok st
  | x :: xs' => st' ← body st x; for_each xs' body st'
  end.

(** Both computations raise, or both return the same value. *)
Definition same_outcome {A : Type} (r1 r2 : outcome A) : Prop :=
  match r1, r2 with
  | Ok a, Ok b => a = b
  | Raise _, Raise _ => True
  | _, _ => False
  end.

(** ** What the pipeline asks of NumPy and of the pandas parsers *)

(** The result of reading one string: not readable, readable as the null
    value ([nan], [NaT]), or readable as a value. *)
Inductive parsed (A : Type) : Type :=
| Unparsed
| Null
| Value (a : A).
Arguments Unparsed {A}.
Arguments Null {A}.
Arguments Value {A} a.

Class NumPy : Type := {
  num : Type;                               (* a number other than nan *)
  num_eq_dec :: EqDecision num;
  num_of_Z : Z -> num;                      (* the literals 0 and 1000 *)
  num_gtb : num -> num -> bool;             (* x > y *)
  num_str : num -> string;                  (* str(x) *)
  time : Type;                              (* a Timestamp other than NaT *)
  time_eq_dec :: EqDecision time;
  time_str : time -> string;                (* str(t) *)
  time_i8 : time -> num;                    (* the int64 view of t *)
  iNaT : num;                               (* the int64 view of NaT *)
  to_numeric_str : string -> parsed num;    (* pd.to_numeric on one string *)
  to_datetime_str : string -> parsed time;  (* pd.to_datetime on one string *)
  to_datetime_num : num -> parsed time;     (* pd.to_datetime on one number *)
  one_format : list string -> bool;         (* pd.to_datetime on the texts of one
                                               column: they can be read together *)
}.

(** [pd.to_datetime] reads a column with one format: since pandas 2.0 it
    infers the format from the first text of the column and reads every
    text with it, so texts that are dates one by one, but written in
    different formats, are not read together and [one_format] is false
    of them.  Where each text is read on its own (before 2.0, or when no
    format can be inferred) [one_format] is true of every list. *)

(** ** Cells, columns and frames *)

Section Frames.
Context `{NumPy}.

(** A cell.  The three missing values are kept apart because [str]
    prints them differently. *)
Inductive pyobj : Type :=
| PyNone
| NaN
| NaT
| Num (x : num)
| Str (s : string)
| Time (t : time).

#[global] Instance pyobj_eq_dec : EqDecision pyobj.
Proof. solve_decision. Defined.

Inductive dtype : Type :=
| object
| numeric        (* int64, float64 *)
| datetime64.

#[global] Instance dtype_eq_dec : EqDecision dtype.
Proof. solve_decision. Defined.

Record Series : Type := mkSeries {
  dtype_of : dtype;
  values : list pyobj;
}.

#[global] Instance Series_eq_dec : EqDecision Series.
Proof. solve_decision. Defined.

Record DataFrame : Type := mkFrame {
  index : list Z;                      (* row labels *)
  data : list (string * Series);       (* columns, in order *)
}.

#[global] Instance DataFrame_eq_dec : EqDecision DataFrame.
Proof. solve_decision. Defined.

Definition columns (df : DataFrame) : list string := (data df).*1.
Definition nrows (df : DataFrame) : nat := length (index df).
Definition ncols (df : DataFrame) : nat := length (data df).

(** The frame is rectangular and every cell fits the dtype of its
    column. *)
Definition fits (d : dtype) (v : pyobj) : bool :=
  match d, v with
  | object, _ => true
  | numeric, (Num _ | NaN) => true
  | datetime64, (Time _ | NaT) => true
  | _, _ => false
  end.

Definition wf_series (n : nat) (s : Series) : bool :=
  bool_decide (length (values s) = n) && forallb (fits (dtype_of s)) (values s).

Definition wf_frame (df : DataFrame) : bool :=
  forallb (fun cs => wf_series (nrows df) cs.2) (data df).

(** Every column is as long as the index. *)
Definition rectangular (df : DataFrame) : bool :=
  forallb (fun cs => bool_decide (length (values cs.2) = nrows df)) (data df).

(** *** Element access *)

Definition select (col : string) (df : DataFrame) : list Series :=
  (filter (fun cs => cs.1 = col) (data df)).*2.

(** [df[col]] where a Series is expected.  A label borne by several
    columns selects a sub-frame instead; the stages are written for a
    Series and the data model has unique labels, so the model stops
    there. *)
Definition getitem (df : DataFrame) (col : string) : outcome Series :=
  match select col df with
  | [s] => Ok s
  | [] => Raise KeyError
  | _ => Raise AmbiguousLabel
  end.

Definition has_column (df : DataFrame) (col : string) : bool :=
  bool_decide (col ∈ columns df).

(** [df[col] = s]: overwrites the column, or appends it when the label
    is new. *)
Definition setitem (df : DataFrame) (col : string) (s : Series) : DataFrame :=
  if has_column df col
  then mkFrame (index df)
         ((fun cs => if decide (cs.1 = col) then (cs.1, s) else cs) <$> data df)
  else mkFrame (index df) (data df ++ [(col, s)]).

(** *** Missing values *)

Definition isna (v : pyobj) : bool :=
  match v with
  | PyNone | NaN | NaT => true
  | _ => false
  end.

Definition notna (v : pyobj) : bool := negb (isna v).

(** *** Rows *)

Definition cell (s : Series) (i : nat) : pyobj := default NaN (values s !! i).

Definition row (df : DataFrame) (i : nat) : list pyobj :=
  (fun cs => cell cs.2 i) <$> data df.

Definition rows (df : DataFrame) : list (list pyobj) :=
  row df <$> seq 0 (nrows df).

(** Boolean-mask selection on one axis. *)
Fixpoint compress {A : Type} (mask : list bool) (l : list A) : list A :=
  match mask, l with
  | b :: mask', x :: l' => if b then x :: compress mask' l' else compress mask' l'
  | _, _ => []
  end.

Definition take_rows (mask : list bool) (df : DataFrame) : DataFrame :=
  mkFrame (compress mask (index df))
    ((fun cs => (cs.1, mkSeries (dtype_of cs.2) (compress mask (values cs.2))))
       <$> data df).

(** [df.dropna(axis=0, how='all')] *)
Definition dropna_rows (df : DataFrame) : DataFrame :=
  take_rows (existsb notna <$> rows df) df.

(** [df.dropna(axis=1, how='all')] *)
Definition dropna_columns (df : DataFrame) : DataFrame :=
  mkFrame (index df) (filter (fun cs => existsb notna (values cs.2) = true) (data df)).

(** Two cells count as the same value for [duplicated]: missing values
    all fall in one class, other values compare by equality. *)
Definition same_cell (v w : pyobj) : bool :=
  if isna v then isna w else bool_decide (v = w).

Fixpoint same_row (r1 r2 : list pyobj) : bool :=
  match r1, r2 with
  | [], [] => true
  | v :: r1', w :: r2' => same_cell v w && same_row r1' r2'
  | _, _ => false
  end.

(** [duplicated(keep='first')]: a row is marked when an earlier row
    holds the same values. *)
Fixpoint duplicated_from (seen : list (list pyobj)) (rs : list (list pyobj))
  : list bool :=
  match rs with
  | [] => []
  | r :: rs' => existsb (same_row r) seen :: duplicated_from (r :: seen) rs'
  end.

Definition duplicated (df : DataFrame) : list bool := duplicated_from [] (rows df).

(** [df.empty] *)
Definition empty (df : DataFrame) : bool :=
  bool_decide (nrows df = 0) || bool_decide (ncols df = 0).

(** [df.drop_duplicates()] *)
Definition drop_duplicates (df : DataFrame) : DataFrame :=
  if empty df then df else take_rows (negb <$> duplicated df) df.

End Frames.

(** ** Series operations used by the stages *)

Section SeriesOps.
Context `{NumPy}.

Definition map_values (f : pyobj -> pyobj) (s : Series) : Series :=
  mkSeries (dtype_of s) (f <$> values s).

(** [str(v)] *)
Definition str_of (v : pyobj) : string :=
  match v with
  | PyNone => "None"
  | NaN => "nan"
  | NaT => "NaT"
  | Num x => num_str x
  | Str s => s
  | Time t => time_str t
  end.

(** [s.astype(str)] *)
Definition astype_str (s : Series) : Series :=
  mkSeries object ((fun v => Str (str_of v)) <$> values s).

(** [s.str.f()]: [f] on every string, nan on every other cell. *)
Definition str_method (f : string -> string) (s : Series) : Series :=
  mkSeries object
    ((fun v => match v with Str x => Str (f x) | _ => NaN end) <$> values s).

(** [s.replace(mapping)] with string keys: an exact match on a string
    cell is replaced, every other cell is kept. *)
Definition replace (mapping : gmap string string) (s : Series) : Series :=
  map_values
    (fun v => match v with Str x => Str (default x (mapping !! x)) | _ => v end) s.

(** [v > cap] on one cell of a column that is not datetime64: missing
    cells compare false, text and timestamps cannot be compared with a
    number. *)
Definition cell_gt (cap : num) (v : pyobj) : outcome bool :=
  match v with
  | Num x => Ok (num_gtb x cap)
  | PyNone | NaN | NaT => Ok false
  | Str _ | Time _ => Raise TypeError
  end.

Fixpoint all_ok {A B : Type} (f : A -> outcome B) (l : list A) : outcome (list B) :=
  match l with
  | [] => Ok []
  | x :: l' => y ← f x; ys ← all_ok f l'; Ok (y :: ys)
  end.

(** [s > cap] *)
Definition series_gt (s : Series) (cap : num) : outcome (list bool) :=
  match dtype_of s with
  | datetime64 => Raise TypeError
  | _ => all_ok (cell_gt cap) (values s)
  end.

(** [np.where(mask, cap, s)] *)
Definition np_where (mask : list bool) (cap : num) (s : Series) : Series :=
  mkSeries (dtype_of s)
    (zip_with (fun (b : bool) v => if b then Num cap else v) mask (values s)).

(** [pd.to_numeric] on one cell of an object column. *)
Definition to_numeric_obj (v : pyobj) : parsed num :=
  match v with
  | PyNone | NaN => Null
  | Num x => Value x
  | Str s => to_numeric_str s
  | NaT | Time _ => Unparsed
  end.

Definition cell_of_num (p : parsed num) : pyobj :=
  match p with
  | Value x => Num x
  | _ => NaN
  end.

Definition cell_of_time (p : parsed time) : pyobj :=
  match p with
  | Value t => Time t
  | _ => NaT
  end.

Definition is_unparsed {A : Type} (p : parsed A) : bool :=
  match p with
  | Unparsed => true
  | _ => false
  end.

(** The int64 view of a datetime64 column. *)
Definition view_i8 (s : Series) : Series :=
  mkSeries numeric
    ((fun v => match v with Time t => Num (time_i8 t) | _ => Num iNaT end)
       <$> values s).

(** [pd.to_numeric(s, errors='coerce')] *)
Definition to_numeric_coerce (s : Series) : Series :=
  match dtype_of s with
  | numeric => s
  | datetime64 => view_i8 s
  | object => mkSeries numeric ((fun v => cell_of_num (to_numeric_obj v)) <$> values s)
  end.

(** [pd.to_numeric(s, errors='ignore')]: one unreadable cell leaves the
    whole column as it was. *)
Definition to_numeric_ignore (s : Series) : Series :=
  match dtype_of s with
  | numeric => s
  | datetime64 => view_i8 s
  | object =>
      if existsb (fun v => is_unparsed (to_numeric_obj v)) (values s) then s
      else mkSeries numeric ((fun v => cell_of_num (to_numeric_obj v)) <$> values s)
  end.

(** [pd.to_datetime] on one cell of an object column. *)
Definition to_datetime_obj (v : pyobj) : parsed time :=
  match v with
  | PyNone | NaN | NaT => Null
  | Num x => to_datetime_num x
  | Str s => to_datetime_str s
  | Time t => Value t
  end.

(** The texts of a column, in the order of its rows. *)
Definition texts (s : Series) : list string :=
  omap (fun v => match v with Str x => Some x | _ => None end) (values s).

(** [pd.to_datetime(s, errors='ignore')] on an object column, inside
    [try ... except: pass].  The column is converted as a whole or left
    as it was: it is left as it was when one cell cannot be read, and
    also when its texts, each readable on its own, are not all in the
    one format that pandas infers for the column. *)
Definition to_datetime_ignore (s : Series) : Series :=
  if existsb (fun v => is_unparsed (to_datetime_obj v)) (values s)
     || negb (one_format (texts s))
  then s
  else mkSeries datetime64 ((fun v => cell_of_time (to_datetime_obj v)) <$> values s).

(** [pd.api.types.is_numeric_dtype(s)] *)
Definition is_numeric_dtype (s : Series) : bool :=
  bool_decide (dtype_of s = numeric).

(** [s.fillna(value)]: a datetime64 column that receives a value of
    another kind becomes an object column. *)
Definition fillna (value : pyobj) (s : Series) : Series :=
  mkSeries
    (match dtype_of s with
     | datetime64 => if existsb isna (values s) then object else datetime64
     | d => d
     end)
    ((fun v => if isna v then value else v) <$> values s).

End SeriesOps.

(** ** The stages of [cleaning.py] *)

Section Stages.
Context `{NumPy}.

Definition clean_column_names (df : DataFrame) : DataFrame :=
  mkFrame (index df) ((fun cs => (Text.clean_name cs.1, cs.2)) <$> data df).

(** [df.rename(columns=mapping)] *)
Definition rename (mapping : gmap string string) (df : DataFrame) : DataFrame :=
  mkFrame (index df) ((fun cs => (default cs.1 (mapping !! cs.1), cs.2)) <$> data df).

Definition rename_columns (df : DataFrame) : DataFrame :=
  rename {[ "st" := "state" ]} df.

Definition remove_empty_rows_columns (df : DataFrame) : DataFrame :=
  dropna_columns (dropna_rows df).

Definition remove_duplicates (df : DataFrame) : DataFrame :=
  drop_duplicates df.

(** [df.select_dtypes(include='object')], iterated: its labels. *)
Definition select_dtypes_object (df : DataFrame) : list string :=
  (filter (fun cs => dtype_of cs.2 = object) (data df)).*1.

Definition strip_text_columns (df : DataFrame) : outcome DataFrame :=
  for_each (select_dtypes_object df)
    (fun df col =>
       s ← getitem df col;
       Ok (setitem df col
             (str_method Text.lower (str_method Text.strip (astype_str s)))))
    df.

Definition gender_mapping : gmap string string :=
  {[ "male" := "m"; "m" := "m"; "female" := "f"; "f" := "f"; "femal" := "f" ]}.

Definition clean_gender (df : DataFrame) : outcome DataFrame :=
  if has_column df "gender" then
    s ← getitem df "gender";
    Ok (setitem df "gender" (replace gender_mapping s))
  else Ok df.

Definition education_mapping : gmap string string :=
  {[ "master" := "master";
     "bachelor" := "bachelor";
     "bachelors" := "bachelor";
     "high school or below" := "high school";
     "college" := "college";
     "doctor" := "doctorate" ]}.

Definition clean_education (df : DataFrame) : outcome DataFrame :=
  if has_column df "education" then
    s ← getitem df "education";
    Ok (setitem df "education" (replace education_mapping s))
  else Ok df.

Definition state_mapping : gmap string string :=
  {[ "az" := "arizona"; "wa" := "washington"; "cali" := "california" ]}.

Definition clean_state_names (df : DataFrame) : outcome DataFrame :=
  if has_column df "state" then
    s ← getitem df "state";
    Ok (setitem df "state" (replace state_mapping s))
  else Ok df.

Definition cap_monthly_premium_auto (df : DataFrame) (cap : num) : outcome DataFrame :=
  if has_column df "monthly_premium_auto" then
    s ← getitem df "monthly_premium_auto";
    mask ← series_gt s cap;
    Ok (setitem df "monthly_premium_auto" (np_where mask cap s))
  else Ok df.

(** The default [cap = 1000]. *)
Definition default_cap : num := num_of_Z 1000.

Definition policy_mapping : gmap string string :=
  {[ "personal auto" := "personal";
     "corporate auto" := "corporate";
     "special auto" := "special" ]}.

Definition clean_policy_type (df : DataFrame) : outcome DataFrame :=
  if has_column df "policy_type" then
    s ← getitem df "policy_type";
    Ok (setitem df "policy_type" (replace policy_mapping s))
  else Ok df.

Definition clean_customer_lifetime_value (df : DataFrame) : outcome DataFrame :=
  if has_column df "customer_lifetime_value" then
    s ← getitem df "customer_lifetime_value";
    let df := setitem df "customer_lifetime_value"
                (str_method Text.strip
                   (str_method (Text.replace_char "%" "") (astype_str s))) in
    s ← getitem df "customer_lifetime_value";
    Ok (setitem df "customer_lifetime_value" (to_numeric_coerce s))
  else Ok df.

Definition convert_data_types (df : DataFrame) : outcome DataFrame :=
  for_each (columns df)
    (fun df col =>
       s ← getitem df col;
       let df := setitem df col (to_numeric_ignore s) in
       s ← getitem df col;
       if decide (dtype_of s = object)
       then Ok (setitem df col (to_datetime_ignore s))
       else Ok df)
    df.

Definition handle_missing_values (df : DataFrame) : outcome DataFrame :=
  for_each (columns df)
    (fun df col =>
       s ← getitem df col;
       if is_numeric_dtype s
       then Ok (setitem df col (fillna (Num (num_of_Z 0)) s))
       else Ok (setitem df col (fillna (Str "unknown") s)))
    df.

Definition clean_data (df : DataFrame) : outcome DataFrame :=
  let df := clean_column_names df in
  let df := rename_columns df in
  let df := remove_empty_rows_columns df in
  let df := remove_duplicates df in
  df ← strip_text_columns df;
  df ← clean_gender df;
  df ← clean_education df;
  df ← clean_state_names df;
  df ← cap_monthly_premium_auto df default_cap;
  df ← clean_policy_type df;
  df ← clean_customer_lifetime_value df;
  df ← convert_data_types df;
  handle_missing_values df.

(** The stage order as the specification lists it: names, rename,
    structural cleanup, text, gender, education, state, policy type,
    premium cap, lifetime value, coercion, fill. *)
Definition clean_data_spec_order (df : DataFrame) : outcome DataFrame :=
  let df := clean_column_names df in
  let df := rename_columns df in
  let df := remove_empty_rows_columns df in
  let df := remove_duplicates df in
  df ← strip_text_columns df;
  df ← clean_gender df;
  df ← clean_education df;
  df ← clean_state_names df;
  df ← clean_policy_type df;
  df ← cap_monthly_premium_auto df default_cap;
  df ← clean_customer_lifetime_value df;
  df ← convert_data_types df;
  handle_missing_values df.

End Stages.

(** ** An instance of the interface: exact decimal numbers, ISO dates

    Numbers are fractions in lowest terms and timestamps are nanoseconds
    since 1970-01-01.  The readers accept plain decimal literals
    ([-12.5], [800]) and calendar dates written [YYYY-MM-DD]; [nan] and
    [NaT] read as the null value.  It serves to run the stages on
    concrete tables. *)

Module Decimal.

Definition digit_of (c : ascii) : option Z :=
  if Text.in_range 48 57 c then Some (Z.of_N (Text.code c) - 48)%Z else None.

(** Reads the digits at the head of [s]: their value on top of [acc],
    how many there were, and the rest of [s]. *)
Fixpoint read_digits (s : string) (acc : Z) (n : nat) : Z * nat * string :=
  match s with
  | EmptyString => (acc, n, s)
  | String c s' =>
      match digit_of c with
      | Some d => read_digits s' (10 * acc + d)%Z (S n)
      | None => (acc, n, s)
      end
  end.

Definition read_unsigned (s : string) : option Q :=
  let '(ip, n1, rest) := read_digits s 0%Z 0 in
  match rest with
  | EmptyString => if decide (n1 = 0) then None else Some (Qred (ip # 1))
  | String "." frac =>
      let '(m, n2, rest') := read_digits frac ip 0 in
      match rest' with
      | EmptyString =>
          if decide (n1 + n2 = 0) then None
          else Some (Qred (m # Z.to_pos (10 ^ Z.of_nat n2)))
      | _ => None
      end
  | _ => None
  end.

Definition read_number (s : string) : parsed Q :=
  if decide (Text.lower s = "nan") then Null
  else
    match s with
    | String "-" s' => from_option (fun q => Value (Qred (- q))) Unparsed (read_unsigned s')
    | String "+" s' => from_option Value Unparsed (read_unsigned s')
    | _ => from_option Value Unparsed (read_unsigned s)
    end.

Fixpoint zeros (n : nat) : string :=
  match n with
  | O => EmptyString
  | S n' => String "0" (zeros n')
  end.

(** [z] in decimal, padded with zeros on the left to [width] digits. *)
Definition padded (width : nat) (z : Z) : string :=
  let s := pretty (Z.to_N z) in
  zeros (width - String.length s) ++ s.

(** The least [k <= fuel + k0] such that [den] divides [10 ^ k]. *)
Fixpoint scale_of (fuel : nat) (k : nat) (den : Z) : option nat :=
  if decide ((10 ^ Z.of_nat k) mod den = 0)%Z then Some k
  else match fuel with
       | O => None
       | S fuel' => scale_of fuel' (S k) den
       end.

Definition print_number (q : Q) : string :=
  let n := Qnum q in
  let d := Z.pos (Qden q) in
  match scale_of 40 0 d with
  | Some O => pretty n
  | Some k =>
      let m := (Z.abs n * 10 ^ Z.of_nat k / d)%Z in
      (if decide (n < 0)%Z then "-" else "")
        ++ pretty (Z.to_N (m / 10 ^ Z.of_nat k)) ++ "."
        ++ padded k (m mod 10 ^ Z.of_nat k)
  | None => pretty n ++ "/" ++ pretty d
  end.

Definition ns_per_day : Z := 86400000000000.

Definition days_from_civil (y m d : Z) : Z :=
  let y' := (if decide (m <= 2) then y - 1 else y)%Z in
  let era := (y' / 400)%Z in
  let yoe := (y' - era * 400)%Z in
  let mp := (if decide (m > 2) then m - 3 else m + 9)%Z in
  let doy := ((153 * mp + 2) / 5 + d - 1)%Z in
  let doe := (yoe * 365 + yoe / 4 - yoe / 100 + doy)%Z in
  (era * 146097 + doe - 719468)%Z.

Definition civil_from_days (z : Z) : Z * Z * Z :=
  let z := (z + 719468)%Z in
  let era := (z / 146097)%Z in
  let doe := (z - era * 146097)%Z in
  let yoe := ((doe - doe / 1460 + doe / 36524 - doe / 146096) / 365)%Z in
  let doy := (doe - (365 * yoe + yoe / 4 - yoe / 100))%Z in
  let mp := ((5 * doy + 2) / 153)%Z in
  let d := (doy - (153 * mp + 2) / 5 + 1)%Z in
  let m := (if decide (mp < 10) then mp + 3 else mp - 9)%Z in
  let y := (yoe + era * 400 + (if decide (m <= 2) then 1 else 0))%Z in
  (y, m, d).

Definition read_field (width : nat) (s : string) : option (Z * string) :=
  let '(v, n, rest) := read_digits s 0%Z 0 in
  if decide (n = width) then Some (v, rest) else None.

Definition read_date (s : string) : parsed Z :=
  if decide (Text.lower s = "nat" \/ Text.lower s = "nan" \/ s = "") then Null
  else
    match read_field 4 s with
    | Some (y, String "-" s1) =>
        match read_field 2 s1 with
        | Some (m, String "-" s2) =>
            match read_field 2 s2 with
            | Some (d, EmptyString) =>
                let days := days_from_civil y m d in
                if decide (civil_from_days days = (y, m, d))
                then Value (days * ns_per_day)%Z
                else Unparsed
            | _ => Unparsed
            end
        | _ => Unparsed
        end
    | _ => Unparsed
    end.

Definition print_time (t : Z) : string :=
  let '(y, m, d) := civil_from_days (t / ns_per_day) in
  let secs := ((t mod ns_per_day) / 1000000000)%Z in
  padded 4 y ++ "-" ++ padded 2 m ++ "-" ++ padded 2 d ++ " "
    ++ padded 2 (secs / 3600) ++ ":" ++ padded 2 (secs / 60 mod 60) ++ ":"
    ++ padded 2 (secs mod 60).

Definition Q_eq_dec : EqDecision Q.
Proof. solve_decision. Defined.

Definition numpy : NumPy := {|
  num := Q;
  num_eq_dec := Q_eq_dec;
  num_of_Z := inject_Z;
  num_gtb := fun x y => negb (Qle_bool x y);
  num_str := print_number;
  time := Z;
  time_eq_dec := Z.eq_dec;
  time_str := print_time;
  time_i8 := inject_Z;
  iNaT := inject_Z (- 2 ^ 63);
  to_numeric_str := read_number;
  to_datetime_str := read_date;
  to_datetime_num := fun q => Value (Qfloor q);
  one_format := fun _ => true;              (* read_date knows one format *)
|}.

(** *** A reader of two date formats

    The same numbers and times, with dates written [YYYY-MM-DD] or, month
    first, [M/D/YYYY].  The format of a column is the format of its
    first date, and the texts of the column are read together only when
    every date among them is written in it. *)

Definition read_date_slashed (s : string) : parsed Z :=
  let '(m, n1, rest) := read_digits s 0%Z 0 in
  match rest with
  | String "/" s1 =>
      let '(d, n2, rest) := read_digits s1 0%Z 0 in
      match rest with
      | String "/" s2 =>
          match read_field 4 s2 with
          | Some (y, EmptyString) =>
              let days := days_from_civil y m d in
              if decide ((1 <= n1 <= 2)%nat /\ (1 <= n2 <= 2)%nat
                         /\ civil_from_days days = (y, m, d))
              then Value (days * ns_per_day)%Z
              else Unparsed
          | _ => Unparsed
          end
      | _ => Unparsed
      end
  | _ => Unparsed
  end.

Definition read_date_either (s : string) : parsed Z :=
  match read_date s with
  | Unparsed => read_date_slashed s
  | r => r
  end.

Definition is_date (read : string -> parsed Z) (s : string) : bool :=
  match read s with
  | Value _ => true
  | _ => false
  end.

Definition same_format (xs : list string) : bool :=
  match List.filter (is_date read_date_either) xs with
  | [] => true
  | x :: ds =>
      if is_date read_date x then forallb (is_date read_date) ds
      else forallb (is_date read_date_slashed) ds
  end.

Definition numpy_two_formats : NumPy := {|
  num := Q;
  num_eq_dec := Q_eq_dec;
  num_of_Z := inject_Z;
  num_gtb := fun x y => negb (Qle_bool x y);
  num_str := print_number;
  time := Z;
  time_eq_dec := Z.eq_dec;
  time_str := print_time;
  time_i8 := inject_Z;
  iNaT := inject_Z (- 2 ^ 63);
  to_numeric_str := read_number;
  to_datetime_str := read_date_either;
  to_datetime_num := fun q => Value (Qfloor q);
  one_format := same_format;
|}.

End Decimal.

(** ** Sample tables *)

Module Examples.
#[local] Existing Instance Decimal.numpy.

(** A small table with the columns the stages look for. *)
Definition customers : DataFrame :=
  mkFrame [0; 1; 2]%Z
    [ ("Customer", mkSeries object [Str "RB50392"; Str "QZ44356"; Str "AI49188"]);
      ("ST", mkSeries object [Str "Cali"; Str "AZ"; Str "Oregon"]);
      ("GENDER", mkSeries object [Str "Femal"; Str "M"; NaN]);
      ("Education", mkSeries object [Str "Bachelors"; Str "Doctor"; Str "College"]);
      ("Customer Lifetime Value",
        mkSeries object [Str "12.5%"; Str "bad-value"; Str "7"]);
      ("Monthly Premium Auto", mkSeries numeric [Num (1500 # 1); Num (800 # 1); NaN]);
      (" Policy Type ",
        mkSeries object [Str "Personal Auto"; Str "corporate auto "; NaN]);
      ("Effective To Date",
        mkSeries object [Str "2020-01-31"; Str "2021-12-01"; NaN]) ].

(** The same table once its labels are normalised. *)
Definition customers_named : DataFrame :=
  rename_columns (clean_column_names customers).

(** A table without dates, and what [clean_data] returns on it. *)
Definition roster : DataFrame :=
  mkFrame [0; 1; 2]%Z
    [ ("Customer", mkSeries object [Str "RB50392"; Str "QZ44356"; Str "AI49188"]);
      ("GENDER", mkSeries object [Str "Femal"; Str "M"; NaN]);
      ("Customer Lifetime Value",
        mkSeries object [Str "12.5%"; Str "bad-value"; Str "7"]);
      ("Monthly Premium Auto", mkSeries numeric [Num (1500 # 1); Num (800 # 1); NaN]) ].

Definition roster_cleaned : DataFrame :=
  mkFrame [0; 1; 2]%Z
    [ ("customer", mkSeries object [Str "rb50392"; Str "qz44356"; Str "ai49188"]);
      ("gender", mkSeries object [Str "f"; Str "m"; Str "nan"]);
      ("customer_lifetime_value",
        mkSeries numeric [Num (25 # 2); Num (0 # 1); Num (7 # 1)]);
      ("monthly_premium_auto",
        mkSeries numeric [Num (1000 # 1); Num (800 # 1); Num (0 # 1)]) ].

(** One missing cell in a column of each dtype. *)
Definition holes : DataFrame :=
  mkFrame [0; 1]%Z
    [ ("gender", mkSeries object [Str "f"; NaN]);
      ("income", mkSeries numeric [NaN; Num (52000 # 1)]);
      ("effective_to_date",
        mkSeries datetime64 [Time 1580428800000000000%Z; NaT]) ].

(** A text column with a missing cell. *)
Definition text_with_hole : DataFrame :=
  mkFrame [0; 1]%Z [ ("gender", mkSeries object [Str "F "; NaN]) ].

(** A premium column that was read as text. *)
Definition text_premium : DataFrame :=
  mkFrame [0; 1]%Z [ ("monthly_premium_auto", mkSeries object [Str "1,000"; Str "800"]) ].

(** Two rows that differ by one trailing blank. *)
Definition near_duplicates : DataFrame :=
  mkFrame [0; 1]%Z
    [ ("customer", mkSeries object [Str "RB50392"; Str "RB50392 "]);
      ("income", mkSeries numeric [Num (52000 # 1); Num (52000 # 1)]) ].

(** The same two rows, the one with the trailing blank first. *)
Definition near_duplicates_reversed : DataFrame :=
  mkFrame [0; 1]%Z
    [ ("customer", mkSeries object [Str "RB50392 "; Str "RB50392"]);
      ("income", mkSeries numeric [Num (52000 # 1); Num (52000 # 1)]) ].

(** A label without a letter or a digit. *)
Definition percent_label : DataFrame :=
  mkFrame [0]%Z [ ("%", mkSeries numeric [Num (5 # 1)]) ].

End Examples.

(** ** Shapes of labels, for the proofs about [Text.clean_name] *)

Module Label.

Definition head_underscore (s : string) : bool :=
  match s with
  | String c _ => Ascii.eqb c "_"
  | EmptyString => false
  end.

Definition head_sat (p : ascii -> bool) (s : string) : bool :=
  match s with
  | String c _ => p c
  | EmptyString => false
  end.

Definition head_alnum (s : string) : bool :=
  match s with
  | String c _ => Text.is_lower_alnum c
  | EmptyString => false
  end.

(** Letters, digits and underscores, no two underscores in a row. *)
Fixpoint neat (s : string) : bool :=
  match s with
  | EmptyString => true
  | String c s' =>
      (Text.is_lower_alnum c || (Ascii.eqb c "_" && negb (head_underscore s')))
      && neat s'
  end.

(** Letters, digits and underscores, every underscore followed by a
    letter or a digit. *)
Fixpoint tidy (s : string) : bool :=
  match s with
  | EmptyString => true
  | String c s' =>
      (Text.is_lower_alnum c || (Ascii.eqb c "_" && head_alnum s')) && tidy s'
  end.

End Label.

(** ** Vocabulary of the statements *)

Section Vocabulary.
Context `{NumPy}.

(** The frame whose column labelled [c] holding [s] is replaced by [f c s]. *)
Definition map_cols (f : string -> Series -> Series) (df : DataFrame) : DataFrame :=
  mkFrame (index df) ((fun cs => (cs.1, f cs.1 cs.2)) <$> data df).

(** The first [n] rows of a list of columns, peeled off one at a time. *)
Fixpoint transpose (n : nat) (cols : list (list pyobj)) : list (list pyobj) :=
  match n with
  | O => []
  | S n' => ((fun vs => default NaN (head vs)) <$> cols) :: transpose n' (tail <$> cols)
  end.

(** How many of the rows [rs] hold the same values as [r]. *)
Definition count_same (r : list pyobj) (rs : list (list pyobj)) : nat :=
  length (filter (fun r' => same_row r r' = true) rs).

(** The shape shared by the stages that rewrite one named column: do
    nothing when the label is absent, otherwise overwrite the column
    with [f] of its content, which may raise. *)
Definition on_column (col : string) (f : Series -> outcome Series) (df : DataFrame)
  : outcome DataFrame :=
  if has_column df col then
    s ← getitem df col;
    s' ← f s;
    Ok (setitem df col s')
  else Ok df.

(** What [strip_text_columns] writes in place of one cell. *)
Definition text_of (v : pyobj) : pyobj :=
  Str (Text.lower (Text.strip (str_of v))).

(** What [clean_customer_lifetime_value] writes in place of one cell. *)
Definition lifetime_value_of (v : pyobj) : pyobj :=
  match to_numeric_str (Text.strip (Text.replace_char "%" "" (str_of v))) with
  | Value x => Num x
  | _ => NaN
  end.

(** What [cap_monthly_premium_auto] computes for one column. *)
Definition capped (cap : num) (s : Series) : outcome Series :=
  mask ← series_gt s cap; Ok (np_where mask cap s).

(** What [convert_data_types] writes in place of one column. *)
Definition converted (s : Series) : Series :=
  let s1 := to_numeric_ignore s in
  if decide (dtype_of s1 = object) then to_datetime_ignore s1 else s1.

(** What [handle_missing_values] writes in place of one column. *)
Definition filled (s : Series) : Series :=
  if is_numeric_dtype s then fillna (Num (num_of_Z 0)) s
  else fillna (Str "unknown") s.

(** A stage changes at most the column labelled [target]. *)
Definition modifies_only (target : string)
           (stage : DataFrame -> outcome DataFrame) : Prop :=
  forall df : DataFrame,
    (has_column df target = false -> stage df = Ok df)
    /\ (forall df', stage df = Ok df' ->
           nrows df' = nrows df /\ index df' = index df
           /\ columns df' = columns df
           /\ forall j c s, data df !! j = Some (c, s) -> c <> target ->
                            data df' !! j = Some (c, s)).

(** A stage returns a frame with as many rows and columns as it got. *)
Definition keeps_shape (stage : DataFrame -> outcome DataFrame) : Prop :=
  forall df df' : DataFrame,
    stage df = Ok df' -> nrows df' = nrows df /\ ncols df' = ncols df.

(** The stages of [clean_data] other than the two structural ones. *)
Definition cellwise_stages : list (DataFrame -> outcome DataFrame) :=
  [ (fun df => Ok (clean_column_names df));
    (fun df => Ok (rename_columns df));
    strip_text_columns;
    clean_gender;
    clean_education;
    clean_state_names;
    (fun df => cap_monthly_premium_auto df default_cap);
    clean_policy_type;
    clean_customer_lifetime_value;
    convert_data_types;
    handle_missing_values ].

(** What the six column-specific stages, run one after the other, write
    in place of the column labelled [c]. *)
Definition column_pass (c : string) (s : Series) : outcome Series :=
  if decide (c = "gender") then Ok (replace gender_mapping s)
  else if decide (c = "education") then Ok (replace education_mapping s)
  else if decide (c = "state") then Ok (replace state_mapping s)
  else if decide (c = "monthly_premium_auto") then capped default_cap s
  else if decide (c = "policy_type") then Ok (replace policy_mapping s)
  else if decide (c = "customer_lifetime_value")
       then Ok (mkSeries numeric (lifetime_value_of <$> values s))
  else Ok s.

(** What [strip_text_columns] writes in place of one column. *)
Definition textified (s : Series) : Series :=
  if decide (dtype_of s = object) then mkSeries object (text_of <$> values s) else s.

(** The frame [d'] has the index and the labels of [d], and each of its
    columns is related by [R] to the column of [d] in the same place. *)
Definition columnwise (R : string -> Series -> Series -> Prop) (d d' : DataFrame) : Prop :=
  index d' = index d
  /\ Forall2 (fun cs cs' => cs'.1 = cs.1 /\ R cs.1 cs.2 cs'.2) (data d) (data d').

(** The mapping that [column_pass] applies to the column labelled [c],
    empty when its stage is not a mapping. *)
Definition column_map (c : string) : gmap string string :=
  if decide (c = "gender") then gender_mapping
  else if decide (c = "education") then education_mapping
  else if decide (c = "state") then state_mapping
  else if decide (c = "policy_type") then policy_mapping
  else ∅.

(** Text that is trimmed and in lower case. *)
Definition trimmed_lower (y : string) : Prop := Text.lower (Text.strip y) = y.

(** A text column all of whose cells are strings satisfying [Q]. *)
Definition text_cells (Q : string -> Prop) (s : Series) : Prop :=
  dtype_of s = object /\ forall v, v ∈ values s -> exists y, v = Str y /\ Q y.

(** A numeric column all of whose cells are numbers satisfying [Q]. *)
Definition num_cells (Q : num -> Prop) (s : Series) : Prop :=
  dtype_of s = numeric /\ forall v, v ∈ values s -> exists x, v = Num x /\ Q x.

(** No cell of the table is missing. *)
Definition no_missing (df : DataFrame) : Prop :=
  forall c s v, (c, s) ∈ data df -> v ∈ values s -> notna v = true.

(** A label that name normalisation and renaming leave as it is. *)
Definition label_settled (c : string) : bool :=
  bool_decide (Text.clean_name c = c) && bool_decide (c <> "st").

(** A column that the cell-level stages leave as it is: no cell is
    missing; a text column holds trimmed lowercase text and does not read
    as numbers or dates throughout; there is no temporal column; and the
    stage named after the label, if any, changes nothing. *)
Definition column_settled (cs : string * Series) : bool :=
  forallb notna (values cs.2)
  && match dtype_of cs.2 with
     | object =>
         bool_decide (text_of <$> values cs.2 = values cs.2)
         && bool_decide (converted cs.2 = cs.2)
     | numeric => true
     | datetime64 => false
     end
  && bool_decide (column_pass cs.1 cs.2 = Ok cs.2).

(** A table that is clean already. *)
Definition already_clean (df : DataFrame) : bool :=
  rectangular df
  && bool_decide (NoDup (columns df))
  && forallb label_settled (columns df)
  && forallb column_settled (data df)
  && bool_decide (nrows df = 0 <-> ncols df = 0)
  && forallb negb (duplicated df).

End Vocabulary.

(** ** Vocabulary of the statements about single stages *)

Section StageVocabulary.
Context `{NumPy}.

(** A cell that [>] can compare with a number: text and timestamps
    cannot. *)
Definition comparable (v : pyobj) : bool :=
  match v with
  | Str _ | Time _ => false
  | _ => true
  end.

(** What [cap_monthly_premium_auto] writes in place of one cell of a
    column it can compare with the cap. *)
Definition capped_cell (cap : num) (v : pyobj) : pyobj :=
  match v with
  | Num x => if num_gtb x cap then Num cap else v
  | _ => v
  end.

(** Every cell of the column reads as a number or as the null value. *)
Definition reads_as_numbers (s : Series) : bool :=
  forallb (fun v => negb (is_unparsed (to_numeric_obj v))) (values s).

(** Every cell of the column reads as a date or as the null value. *)
Definition reads_as_dates (s : Series) : bool :=
  forallb (fun v => negb (is_unparsed (to_datetime_obj v))) (values s).

(** The table that enters the cell-level stages of [clean_data]: the
    input after the two label stages and the two structural stages. *)
Definition structured (df : DataFrame) : DataFrame :=
  remove_duplicates
    (remove_empty_rows_columns (rename_columns (clean_column_names df))).

(** The label that the two label stages give to a column. *)
Definition new_label (c : string) : string :=
  if decide (Text.clean_name c = "st") then "state" else Text.clean_name c.

(** The six stages that rewrite one named column, each with the label
    it looks for. *)
Definition column_stages : list (string * (DataFrame -> outcome DataFrame)) :=
  [ ("gender", clean_gender);
    ("education", clean_education);
    ("state", clean_state_names);
    ("monthly_premium_auto", fun df => cap_monthly_premium_auto df default_cap);
    ("policy_type", clean_policy_type);
    ("customer_lifetime_value", clean_customer_lifetime_value) ].

End StageVocabulary.

(** ** More sample tables *)

Module Cases.
#[local] Existing Instance Decimal.numpy.

(** A table that has both a [st] and a [state] column. *)
Definition two_states : DataFrame :=
  mkFrame [0; 1]%Z
    [ ("st", mkSeries object [Str "az"; Str "wa"]);
      ("state", mkSeries object [Str "arizona"; Str "washington"]) ].

(** Headers without a single row. *)
Definition headers_only : DataFrame :=
  mkFrame []
    [ ("Customer", mkSeries object []);
      ("Income", mkSeries numeric []) ].

(** An empty row, an empty column and a repeated row. *)
Definition sparse : DataFrame :=
  mkFrame [0; 1; 2; 3]%Z
    [ ("customer", mkSeries object [Str "rb50392"; NaN; Str "rb50392"; Str "qz44356"]);
      ("notes", mkSeries object [NaN; NaN; PyNone; NaN]);
      ("income", mkSeries numeric [Num (52000 # 1); NaN; Num (52000 # 1); NaN]) ].

(** Premiums on either side of the cap, one of them missing. *)
Definition premiums : DataFrame :=
  mkFrame [0; 1; 2]%Z
    [ ("customer", mkSeries object [Str "rb50392"; Str "qz44356"; Str "ai49188"]);
      ("monthly_premium_auto",
        mkSeries numeric [Num (1500 # 1); Num (800 # 1); NaN]) ].

(** Spellings that the mapping stages replace, and some they do not. *)
Definition spellings : DataFrame :=
  mkFrame [0; 1; 2]%Z
    [ ("gender", mkSeries object [Str "male"; Str "f"; Str "femal"]);
      ("education", mkSeries object [Str "bachelors"; Str "doctor"; Str "college"]);
      ("state", mkSeries object [Str "cali"; Str "az"; Str "oregon"]);
      ("policy_type",
        mkSeries object [Str "personal auto"; Str "special auto"; Str "corporate"]) ].

(** Lifetime values written with several [%] signs and with blanks
    around them, one with a blank inside, and cells that are not text. *)
Definition lifetime_texts : DataFrame :=
  mkFrame [0; 1; 2; 3; 4; 5]%Z
    [ ("customer_lifetime_value",
        mkSeries object
          [Str " 12.5%% "; Str "%7 %"; Str "1 2%"; Str " % "; NaN; Num (3 # 1)]) ].

End Cases.

Module TwoFormats.
#[local] Existing Instance Decimal.numpy_two_formats.

(** Dates in one format, and dates in two. *)
Definition dates : DataFrame :=
  mkFrame [0; 1; 2]%Z
    [ ("effective_to_date",
        mkSeries object [Str "1/31/2020"; NaN; Str "12/1/2021"]);
      ("renewed",
        mkSeries object [Str "2020-01-31"; Str "1/2/2020"; NaN]) ].

End TwoFormats.

(** ** The text of a lifetime value, said without the text operations *)

Module TextSpec.
Local Open Scope string_scope.

(** [removed c x y]: [y] is [x] without its occurrences of the character
    [c], all of them, and with nothing else taken away. *)
Inductive removed (c : ascii) : string -> string -> Prop :=
| removed_end : removed c "" ""
| removed_drop x y : removed c x y -> removed c (String c x) y
| removed_keep d x y :
    d <> c -> removed c x y -> removed c (String d x) (String d y).

Definition first_char (s : string) : option ascii :=
  match s with
  | EmptyString => None
  | String c _ => Some c
  end.

Fixpoint last_char (s : string) : option ascii :=
  match s with
  | EmptyString => None
  | String c EmptyString => Some c
  | String _ s' => last_char s'
  end.

(** [trimmed y t]: [t] is [y] without the whitespace at its two ends:
    [y] is [t] between two runs of whitespace, and [t] neither starts
    nor ends with whitespace. *)
Definition trimmed (y t : string) : Prop :=
  (exists l r, y = l ++ t ++ r
               /\ Text.all_chars Text.is_space l = true
               /\ Text.all_chars Text.is_space r = true)
  /\ (forall c, first_char t = Some c -> Text.is_space c = false)
  /\ (forall c, last_char t = Some c -> Text.is_space c = false).

(** The text that the lifetime-value stage is to read from the string
    form [x] of a cell: [x] with every [%] removed, then trimmed. *)
Definition percent_free_trimmed (x t : string) : Prop :=
  exists y, removed "%" x y /\ trimmed y t.

End TextSpec.

(** * Properties *)

(** Closes a decidable goal about concrete tables by evaluating its
    decision procedure. *)
Ltac by_evaluation := refine (bool_decide_unpack _ _); vm_compute; exact I.

(** ** Outcomes *)

Lemma same_outcome_refl {A : Type} (r : outcome A) : same_outcome r r.
Proof. destruct r; simpl; auto. Qed.

Lemma same_outcome_bind {A B : Type} (f : A -> outcome B) (r1 r2 : outcome A) :
  same_outcome r1 r2 -> same_outcome (r1 ≫= f) (r2 ≫= f).
Proof.
  destruct r1 as [a|e1], r2 as [b|e2]; simpl; try tauto.
  intros ->. apply same_outcome_refl.
Qed.

(** ** Element access *)

Section Access.
Context `{NumPy}.

Lemma select_nil_iff (df : DataFrame) col :
  select col df = [] <-> col ∉ columns df.
Proof.
  unfold select, columns. destruct df as [ix d]; simpl.
  induction d as [|[c s] d IH]; simpl.
  - split; [intros _; apply not_elem_of_nil | done].
  - rewrite filter_cons. simpl. destruct (decide (c = col)) as [->|Hne]; simpl.
    + split; [done | intros Hn; exfalso; apply Hn; left].
    + rewrite IH. rewrite not_elem_of_cons. split; [by auto | by intros [_ ?]].
Qed.

Lemma has_column_select (df : DataFrame) col :
  has_column df col = false <-> select col df = [].
Proof.
  unfold has_column. rewrite select_nil_iff.
  rewrite bool_decide_eq_false. done.
Qed.

Lemma getitem_Ok_has_column (df : DataFrame) col s :
  getitem df col = Ok s -> has_column df col = true.
Proof.
  unfold getitem. intros Hg.
  destruct (has_column df col) eqn:Hc; [done|].
  apply has_column_select in Hc. rewrite Hc in Hg. done.
Qed.

Lemma getitem_Ok_select (df : DataFrame) col s :
  getitem df col = Ok s <-> select col df = [s].
Proof.
  unfold getitem. destruct (select col df) as [|s0 [|s1 l]]; split; congruence.
Qed.

Lemma select_setitem_eq (df : DataFrame) col s :
  has_column df col = true ->
  select col (setitem df col s) = (fun _ => s) <$> select col df.
Proof.
  intros Hc. unfold setitem. rewrite Hc. unfold select; simpl.
  induction (data df) as [|[c s0] d IH]; [done|].
  rewrite fmap_cons, !filter_cons. simpl.
  destruct (decide (c = col)) as [->|Hne]; simpl.
  - rewrite decide_True by done. csimpl. by rewrite IH.
  - rewrite decide_False by done. done.
Qed.

Lemma select_setitem_ne (df : DataFrame) col c s :
  c <> col -> select c (setitem df col s) = select c df.
Proof.
  intros Hne. unfold setitem. destruct (has_column df col); unfold select; simpl.
  - induction (data df) as [|[c0 s0] d IH]; [done|].
    rewrite fmap_cons, !filter_cons. simpl.
    destruct (decide (c0 = col)) as [->|Hne']; simpl.
    + rewrite !decide_False by done. done.
    + destruct (decide (c0 = c)); csimpl; by rewrite IH.
  - rewrite filter_app, filter_cons. simpl.
    rewrite decide_False by done. rewrite filter_nil, app_nil_r. done.
Qed.

Lemma getitem_setitem_eq (df : DataFrame) col s s' :
  getitem df col = Ok s -> getitem (setitem df col s') col = Ok s'.
Proof.
  intros Hg. pose proof (getitem_Ok_has_column _ _ _ Hg) as Hc.
  apply getitem_Ok_select in Hg. apply getitem_Ok_select.
  rewrite select_setitem_eq by done. by rewrite Hg.
Qed.

Lemma getitem_setitem_ne (df : DataFrame) col c s :
  c <> col -> getitem (setitem df col s) c = getitem df c.
Proof. intros Hne. unfold getitem. by rewrite select_setitem_ne. Qed.

Lemma columns_setitem (df : DataFrame) col s :
  has_column df col = true -> columns (setitem df col s) = columns df.
Proof.
  intros Hc. unfold setitem. rewrite Hc. unfold columns; simpl.
  induction (data df) as [|[c s0] d IH]; [done|].
  rewrite !fmap_cons, IH. simpl. by destruct (decide (c = col)).
Qed.

Lemma index_setitem (df : DataFrame) col s : index (setitem df col s) = index df.
Proof. unfold setitem. by destruct (has_column df col). Qed.

Lemma has_column_setitem (df : DataFrame) col c s :
  has_column df col = true ->
  has_column (setitem df col s) c = has_column df c.
Proof. intros Hc. unfold has_column. by rewrite columns_setitem. Qed.

Lemma setitem_setitem (df : DataFrame) col s1 s2 :
  has_column df col = true ->
  setitem (setitem df col s1) col s2 = setitem df col s2.
Proof.
  intros Hc. unfold setitem at 1. rewrite has_column_setitem, Hc by done.
  unfold setitem. rewrite Hc. simpl. f_equal.
  rewrite <- list_fmap_compose. apply list_fmap_ext. intros i [c s0] _. simpl.
  destruct (decide (c = col)) as [->|Hne]; simpl.
  - by rewrite decide_True.
  - by rewrite decide_False.
Qed.

Lemma setitem_comm (df : DataFrame) c1 c2 s1 s2 :
  c1 <> c2 -> has_column df c1 = true -> has_column df c2 = true ->
  setitem (setitem df c1 s1) c2 s2 = setitem (setitem df c2 s2) c1 s1.
Proof.
  intros Hne H1 H2. unfold setitem at 1 3.
  rewrite !has_column_setitem, H1, H2 by done.
  unfold setitem. rewrite H1, H2. simpl. f_equal.
  rewrite <- !list_fmap_compose. apply list_fmap_ext. intros i [c s0] _. simpl.
  repeat (case_decide; simplify_eq/=); done.
Qed.

Lemma lookup_setitem_ne (df : DataFrame) col s j c s0 :
  has_column df col = true -> c <> col ->
  data df !! j = Some (c, s0) -> data (setitem df col s) !! j = Some (c, s0).
Proof.
  intros Hc Hne Hj. unfold setitem. rewrite Hc. simpl.
  rewrite list_lookup_fmap, Hj. simpl. by rewrite decide_False.
Qed.

Lemma length_data_setitem (df : DataFrame) col s :
  has_column df col = true -> ncols (setitem df col s) = ncols df.
Proof.
  intros Hc. unfold ncols, setitem. rewrite Hc. simpl. by rewrite length_fmap.
Qed.

End Access.

(** ** Loops over the columns of a frame with unique labels *)

Section Loops.
Context `{NumPy}.

Lemma map_cols_ext (f g : string -> Series -> Series) (df : DataFrame) :
  (forall c s, (c, s) ∈ data df -> f c s = g c s) ->
  map_cols f df = map_cols g df.
Proof.
  intros Hfg. unfold map_cols. f_equal.
  apply list_fmap_ext. intros i [c s] Hi. simpl.
  rewrite (Hfg c s); [done|]. eapply list_elem_of_lookup_2; eauto.
Qed.

Lemma map_cols_id (df : DataFrame) : map_cols (fun _ s => s) df = df.
Proof.
  destruct df as [ix d]. unfold map_cols. simpl. f_equal.
  rewrite <- (list_fmap_id d) at 2. apply list_fmap_ext. by intros i [c s] _.
Qed.

Lemma map_cols_compose (f g : string -> Series -> Series) (df : DataFrame) :
  map_cols f (map_cols g df) = map_cols (fun c s => f c (g c s)) df.
Proof. unfold map_cols. simpl. f_equal. by rewrite <- list_fmap_compose. Qed.

Lemma columns_map_cols f (df : DataFrame) : columns (map_cols f df) = columns df.
Proof.
  unfold columns, map_cols. simpl. rewrite <- list_fmap_compose.
  by apply list_fmap_ext.
Qed.

Lemma select_elem_of (df : DataFrame) col s :
  s ∈ select col df <-> (col, s) ∈ data df.
Proof.
  unfold select. rewrite list_elem_of_fmap. split.
  - intros [[c s0] [-> Hin]]. apply list_elem_of_filter in Hin as [Hc Hin].
    simpl in *. by subst.
  - intros Hin. exists (col, s). split; [done|].
    apply list_elem_of_filter. done.
Qed.

Lemma filter_none {A : Type} (P : A -> Prop) `{forall x, Decision (P x)} (l : list A) :
  (forall x, x ∈ l -> ~ P x) -> filter P l = [].
Proof.
  induction l as [|x l IH]; intros Hl; [done|].
  rewrite filter_cons_False by (apply Hl; left).
  apply IH. intros y Hy. apply Hl. by right.
Qed.

Lemma select_unique (df : DataFrame) col s :
  NoDup (columns df) -> (col, s) ∈ data df -> select col df = [s].
Proof.
  unfold select, columns. induction (data df) as [|[c s0] d IH]; intros Hnd Hin.
  - by apply elem_of_nil in Hin.
  - rewrite fmap_cons in Hnd. apply NoDup_cons in Hnd as [Hnotin Hnd].
    rewrite filter_cons. simpl in *.
    apply elem_of_cons in Hin as [Heq|Hin].
    + inversion Heq; subst. rewrite decide_True by done. csimpl. f_equal.
      assert (filter (fun cs : string * Series => cs.1 = c) d = []) as ->; [|done].
      apply filter_none. intros [c' s'] Hin' Hc'.
      simpl in *. subst. apply Hnotin. apply list_elem_of_fmap. by exists (c, s').
    + destruct (decide (c = col)) as [->|Hne].
      * exfalso. apply Hnotin. apply list_elem_of_fmap. by exists (col, s).
      * by apply IH.
Qed.

Lemma getitem_unique (df : DataFrame) col :
  NoDup (columns df) -> col ∈ columns df ->
  exists s, getitem df col = Ok s /\ (col, s) ∈ data df.
Proof.
  intros Hnd Hin. unfold columns in Hin.
  apply list_elem_of_fmap in Hin as [[c s] [-> Hin]].
  exists s. split; [|done]. apply getitem_Ok_select. by apply select_unique.
Qed.

Lemma getitem_elem_of (df : DataFrame) col s s0 :
  getitem df col = Ok s -> (col, s0) ∈ data df -> s0 = s.
Proof.
  intros Hg Hin. apply getitem_Ok_select in Hg.
  apply select_elem_of in Hin. rewrite Hg in Hin.
  by apply list_elem_of_singleton in Hin.
Qed.

Lemma setitem_map_cols (df : DataFrame) col s :
  has_column df col = true ->
  setitem df col s = map_cols (fun c s0 => if decide (c = col) then s else s0) df.
Proof.
  intros Hc. unfold setitem, map_cols. rewrite Hc. f_equal.
  apply list_fmap_ext. intros i [c s0] _. simpl. by destruct (decide (c = col)).
Qed.

(** A loop that overwrites each listed column with a function of its
    content overwrites exactly the listed columns. *)
Lemma for_each_setitem (g : Series -> Series)
      (body : DataFrame -> string -> outcome DataFrame) :
  (forall df col s, getitem df col = Ok s -> body df col = Ok (setitem df col (g s))) ->
  forall ls (df : DataFrame),
    NoDup ls -> ls ⊆ columns df -> NoDup (columns df) ->
    for_each ls body df
    = Ok (map_cols (fun c s => if bool_decide (c ∈ ls) then g s else s) df).
Proof.
  intros Hbody ls. induction ls as [|col ls IH]; intros df Hls Hsub Hnd.
  - simpl. f_equal.
    transitivity (map_cols (fun _ s => s) df); [by rewrite map_cols_id|].
    apply map_cols_ext. by intros c s _.
  - apply NoDup_cons in Hls as [Hnotin Hls].
    destruct (getitem_unique df col Hnd) as [s [Hg Hin]].
    { apply Hsub. left. }
    pose proof (getitem_Ok_has_column _ _ _ Hg) as Hc.
    simpl. rewrite (Hbody _ _ _ Hg). simpl.
    rewrite IH; [| done | | ].
    + f_equal. rewrite setitem_map_cols by done. rewrite map_cols_compose.
      apply map_cols_ext. intros c s0 Hin0.
      destruct (decide (c = col)) as [->|Hne].
      * rewrite (bool_decide_eq_false_2 _ Hnotin).
        rewrite bool_decide_eq_true_2 by left.
        by rewrite (getitem_elem_of _ _ _ _ Hg Hin0).
      * rewrite (bool_decide_ext (c ∈ col :: ls) (c ∈ ls)); [done|].
        rewrite elem_of_cons. split; [by intros [?|?] | by right].
    + rewrite columns_setitem by done. intros c Hcin. apply Hsub. by right.
    + by rewrite columns_setitem.
Qed.

End Loops.

(** ** Stages that rewrite one named column *)

Section OneColumn.
Context `{NumPy}.

Lemma clean_gender_on_column (df : DataFrame) :
  clean_gender df = on_column "gender" (fun s => Ok (replace gender_mapping s)) df.
Proof. reflexivity. Qed.

Lemma clean_education_on_column (df : DataFrame) :
  clean_education df
  = on_column "education" (fun s => Ok (replace education_mapping s)) df.
Proof. reflexivity. Qed.

Lemma clean_state_names_on_column (df : DataFrame) :
  clean_state_names df = on_column "state" (fun s => Ok (replace state_mapping s)) df.
Proof. reflexivity. Qed.

Lemma clean_policy_type_on_column (df : DataFrame) :
  clean_policy_type df
  = on_column "policy_type" (fun s => Ok (replace policy_mapping s)) df.
Proof. reflexivity. Qed.

Lemma cap_monthly_premium_auto_on_column (df : DataFrame) cap :
  cap_monthly_premium_auto df cap = on_column "monthly_premium_auto" (capped cap) df.
Proof.
  unfold cap_monthly_premium_auto, on_column, capped.
  destruct (has_column df "monthly_premium_auto"); [|done].
  destruct (getitem df "monthly_premium_auto") as [s|e]; [|done]. simpl.
  by destruct (series_gt s cap).
Qed.

Lemma str_method_astype_str (f g : string -> string) (s : Series) :
  str_method f (str_method g (astype_str s))
  = mkSeries object ((fun v => Str (f (g (str_of v)))) <$> values s).
Proof.
  unfold str_method, astype_str. simpl. f_equal.
  rewrite <- !list_fmap_compose. by apply list_fmap_ext.
Qed.

Lemma lifetime_value_series (s : Series) :
  to_numeric_coerce
    (str_method Text.strip (str_method (Text.replace_char "%" "") (astype_str s)))
  = mkSeries numeric (lifetime_value_of <$> values s).
Proof.
  rewrite str_method_astype_str. unfold to_numeric_coerce. simpl. f_equal.
  rewrite <- list_fmap_compose. by apply list_fmap_ext.
Qed.

Lemma clean_customer_lifetime_value_on_column (df : DataFrame) :
  clean_customer_lifetime_value df
  = on_column "customer_lifetime_value"
      (fun s => Ok (mkSeries numeric (lifetime_value_of <$> values s))) df.
Proof.
  unfold clean_customer_lifetime_value, on_column.
  destruct (has_column df "customer_lifetime_value") eqn:Hc; [|done].
  destruct (getitem df "customer_lifetime_value") as [s|e] eqn:Hg; [|done]. simpl.
  erewrite getitem_setitem_eq by done. simpl.
  by rewrite setitem_setitem, lifetime_value_series.
Qed.

Lemma on_column_absent col f (df : DataFrame) :
  has_column df col = false -> on_column col f df = Ok df.
Proof. unfold on_column. by intros ->. Qed.

Lemma on_column_inv col f (df df' : DataFrame) :
  on_column col f df = Ok df' ->
  (has_column df col = false /\ df' = df)
  \/ (exists s s', has_column df col = true /\ getitem df col = Ok s
                  /\ f s = Ok s' /\ df' = setitem df col s').
Proof.
  unfold on_column. destruct (has_column df col) eqn:Hc.
  - destruct (getitem df col) as [s|e]; [|done]. simpl.
    destruct (f s) as [s'|e] eqn:Hf; [|done]. simpl.
    intros [= <-]. right. by exists s, s'.
  - intros [= <-]. by left.
Qed.

Lemma on_column_unique col f (df : DataFrame) s :
  NoDup (columns df) -> (col, s) ∈ data df ->
  on_column col f df = (fun s' => setitem df col s') <$> f s.
Proof.
  intros Hnd Hin. unfold on_column.
  assert (getitem df col = Ok s) as Hg.
  { apply getitem_Ok_select. by apply select_unique. }
  rewrite (getitem_Ok_has_column _ _ _ Hg), Hg. simpl. by destruct (f s).
Qed.

(** Rewriting one column leaves the index, the labels and every other
    column as they were. *)
Lemma on_column_frame col f (df df' : DataFrame) :
  on_column col f df = Ok df' ->
  index df' = index df /\ columns df' = columns df
  /\ forall j c s, data df !! j = Some (c, s) -> c <> col ->
                   data df' !! j = Some (c, s).
Proof.
  intros Hon. apply on_column_inv in Hon as [[Hc ->]|(s & s' & Hc & Hg & Hf & ->)].
  - done.
  - split; [apply index_setitem|]. split; [by apply columns_setitem|].
    intros j c s0 Hj Hne. by apply lookup_setitem_ne.
Qed.

Lemma on_column_after col c f s (df : DataFrame) :
  c <> col -> has_column df col = true ->
  on_column c f (setitem df col s) = (fun d => setitem d col s) <$> on_column c f df.
Proof.
  intros Hne Hc. unfold on_column.
  rewrite has_column_setitem by done. rewrite getitem_setitem_ne by done.
  destruct (has_column df c) eqn:Hcc; [|done].
  destruct (getitem df c) as [s0|e]; [|done]. simpl.
  destruct (f s0) as [s'|e]; [|done]. simpl.
  f_equal. by apply setitem_comm.
Qed.

Lemma has_column_on_column col c f (df df' : DataFrame) :
  on_column col f df = Ok df' -> has_column df' c = has_column df c.
Proof.
  intros Hon. apply on_column_frame in Hon as (_ & Hcols & _).
  unfold has_column. by rewrite Hcols.
Qed.

(** Two stages that rewrite different columns can be run in either
    order. *)
Lemma on_column_swap c1 c2 f1 f2 (df : DataFrame) :
  c1 <> c2 ->
  same_outcome (on_column c1 f1 df ≫= on_column c2 f2)
               (on_column c2 f2 df ≫= on_column c1 f1).
Proof.
  intros Hne.
  destruct (on_column c1 f1 df) as [d1|e1] eqn:H1; simpl.
  - apply on_column_inv in H1 as H1'.
    destruct H1' as [[Hc1 ->]|(s1 & s1' & Hc1 & Hg1 & Hf1 & ->)].
    + destruct (on_column c2 f2 df) as [d2|e2] eqn:H2; simpl; [|done].
      rewrite on_column_absent; [done|].
      by rewrite (has_column_on_column _ _ _ _ _ H2).
    + rewrite on_column_after by done.
      destruct (on_column c2 f2 df) as [d2|e2] eqn:H2; simpl; [|done].
      apply on_column_inv in H2 as [[Hc2 ->]|(s2 & s2' & Hc2 & Hg2 & Hf2 & ->)].
      * by rewrite H1.
      * rewrite on_column_after, H1 by done. simpl. by apply setitem_comm.
  - destruct (on_column c2 f2 df) as [d2|e2] eqn:H2; simpl; [|done].
    apply on_column_inv in H2 as [[Hc2 ->]|(s2 & s2' & Hc2 & Hg2 & Hf2 & ->)].
    + by rewrite H1.
    + rewrite on_column_after, H1 by done. done.
Qed.

End OneColumn.

(** ** The order of the stages *)

Section StageOrder.
Context `{NumPy}.

Lemma outcome_bind_assoc {A B C : Type} (m : outcome A)
      (f : A -> outcome B) (g : B -> outcome C) :
  (m ≫= f) ≫= g = m ≫= (fun a => f a ≫= g).
Proof. by destruct m. Qed.

Lemma cap_policy_swap (df : DataFrame) cap :
  same_outcome (cap_monthly_premium_auto df cap ≫= clean_policy_type)
               (clean_policy_type df ≫= fun d => cap_monthly_premium_auto d cap).
Proof.
  pose proof (on_column_swap "monthly_premium_auto" "policy_type" (capped cap)
                (fun s => Ok (replace policy_mapping s)) df) as Hswap.
  rewrite <- cap_monthly_premium_auto_on_column in Hswap.
  destruct (cap_monthly_premium_auto df cap) as [d1|e1];
    destruct (clean_policy_type df) as [d2|e2] eqn:H2;
    rewrite clean_policy_type_on_column in H2; rewrite H2 in Hswap;
    simpl in *; try rewrite cap_monthly_premium_auto_on_column;
    try rewrite clean_policy_type_on_column; by apply Hswap.
Qed.

(** C5.  [clean_data] runs the premium cap before the policy-type
    mapping, the specification lists them the other way round; the two
    sequences are observationally the same: on every input table both
    raise, or both return the same table. *)
Theorem clean_data_refines_spec_order (df : DataFrame) :
  same_outcome (clean_data df) (clean_data_spec_order df).
Proof.
  unfold clean_data, clean_data_spec_order.
  destruct (strip_text_columns _) as [d1|e]; simpl; [|done].
  destruct (clean_gender d1) as [d2|e]; simpl; [|done].
  destruct (clean_education d2) as [d3|e]; simpl; [|done].
  destruct (clean_state_names d3) as [d4|e]; simpl; [|done].
  pose proof (cap_policy_swap d4 default_cap) as Hswap.
  apply (same_outcome_bind
           (fun d => d ← clean_customer_lifetime_value d;
                     d ← convert_data_types d;
                     handle_missing_values d)) in Hswap.
  rewrite !outcome_bind_assoc in Hswap. exact Hswap.
Qed.

End StageOrder.

(** ** The loops of the pipeline on frames with unique labels *)

Section LoopStages.
Context `{NumPy}.

Lemma elem_of_columns (df : DataFrame) c s : (c, s) ∈ data df -> c ∈ columns df.
Proof. intros Hin. unfold columns. apply list_elem_of_fmap. by exists (c, s). Qed.

Lemma handle_missing_values_unique (df : DataFrame) :
  NoDup (columns df) ->
  handle_missing_values df = Ok (map_cols (fun _ s => filled s) df).
Proof.
  intros Hnd. unfold handle_missing_values.
  rewrite (for_each_setitem filled); [| | done | done | done].
  - f_equal. apply map_cols_ext. intros c s Hin.
    rewrite bool_decide_eq_true_2; [done|]. by eapply elem_of_columns.
  - intros d col s ->. simpl. unfold filled. by destruct (is_numeric_dtype s).
Qed.

Lemma convert_data_types_unique (df : DataFrame) :
  NoDup (columns df) ->
  convert_data_types df = Ok (map_cols (fun _ s => converted s) df).
Proof.
  intros Hnd. unfold convert_data_types.
  rewrite (for_each_setitem converted); [| | done | done | done].
  - f_equal. apply map_cols_ext. intros c s Hin.
    rewrite bool_decide_eq_true_2; [done|]. by eapply elem_of_columns.
  - intros d col s Hg. rewrite Hg. simpl.
    pose proof (getitem_Ok_has_column _ _ _ Hg) as Hc.
    erewrite getitem_setitem_eq by done. simpl. unfold converted.
    destruct (decide (dtype_of (to_numeric_ignore s) = object)); [|done].
    by rewrite setitem_setitem.
Qed.

Lemma text_series (s : Series) :
  str_method Text.lower (str_method Text.strip (astype_str s))
  = mkSeries object (text_of <$> values s).
Proof. by rewrite str_method_astype_str. Qed.

Lemma select_dtypes_object_sublist (df : DataFrame) :
  select_dtypes_object df `sublist_of` columns df.
Proof.
  unfold select_dtypes_object, columns. apply fmap_sublist, sublist_filter.
Qed.

Lemma unique_series (df : DataFrame) c s s' :
  NoDup (columns df) -> (c, s) ∈ data df -> (c, s') ∈ data df -> s = s'.
Proof.
  intros Hnd Hin Hin'. apply (select_unique _ _ _ Hnd) in Hin.
  apply select_elem_of in Hin'. rewrite Hin in Hin'.
  by apply list_elem_of_singleton in Hin'.
Qed.

Lemma strip_text_columns_unique (df : DataFrame) :
  NoDup (columns df) ->
  strip_text_columns df
  = Ok (map_cols (fun _ s => if decide (dtype_of s = object)
                             then mkSeries object (text_of <$> values s)
                             else s) df).
Proof.
  intros Hnd. unfold strip_text_columns.
  pose proof (select_dtypes_object_sublist df) as Hsub.
  rewrite (for_each_setitem (fun s => mkSeries object (text_of <$> values s)));
    [| | by eapply sublist_NoDup | | done].
  - f_equal. apply map_cols_ext. intros c s Hin.
    destruct (decide (dtype_of s = object)) as [Hobj|Hobj].
    + rewrite bool_decide_eq_true_2; [done|].
      unfold select_dtypes_object. apply list_elem_of_fmap. exists (c, s).
      split; [done|]. by apply list_elem_of_filter.
    + rewrite bool_decide_eq_false_2; [done|].
      unfold select_dtypes_object. intros Hc.
      apply list_elem_of_fmap in Hc as [[c' s'] [-> Hc]].
      apply list_elem_of_filter in Hc as [Hobj' Hin']. simpl in *.
      by rewrite (unique_series _ _ _ _ Hnd Hin Hin') in Hobj.
  - intros d col s ->. simpl. by rewrite text_series.
  - intros c Hc. by eapply elem_of_sublist.
Qed.

(** A loop whose body overwrites existing columns keeps the index and
    the labels. *)
Lemma for_each_keeps (body : DataFrame -> string -> outcome DataFrame) :
  (forall d col d', body d col = Ok d' ->
                    index d' = index d /\ columns d' = columns d) ->
  forall ls (df df' : DataFrame),
    for_each ls body df = Ok df' ->
    index df' = index df /\ columns df' = columns df.
Proof.
  intros Hbody ls. induction ls as [|col ls IH]; intros df df'; simpl.
  - by intros [= <-].
  - destruct (body df col) as [d|e] eqn:Hb; simpl; [|done].
    intros Hfe. apply IH in Hfe as [-> ->]. by apply (Hbody df col).
Qed.

Lemma overwrite_keeps (d d' : DataFrame) col (f : Series -> Series) :
  (s ← getitem d col; Ok (setitem d col (f s))) = Ok d' ->
  index d' = index d /\ columns d' = columns d.
Proof.
  destruct (getitem d col) as [s|e] eqn:Hg; simpl; [|done].
  intros [= <-]. split; [apply index_setitem|].
  apply columns_setitem. by eapply getitem_Ok_has_column.
Qed.

Lemma strip_text_columns_keeps (df df' : DataFrame) :
  strip_text_columns df = Ok df' ->
  index df' = index df /\ columns df' = columns df.
Proof.
  apply for_each_keeps. intros d col d'. apply (overwrite_keeps d d' col
    (fun s => str_method Text.lower (str_method Text.strip (astype_str s)))).
Qed.

Lemma convert_data_types_keeps (df df' : DataFrame) :
  convert_data_types df = Ok df' ->
  index df' = index df /\ columns df' = columns df.
Proof.
  apply for_each_keeps. intros d col d' Hb.
  apply (overwrite_keeps d d' col converted).
  destruct (getitem d col) as [s|e] eqn:Hg; simpl in *; [|done].
  pose proof (getitem_Ok_has_column _ _ _ Hg) as Hc.
  erewrite getitem_setitem_eq in Hb by done. simpl in Hb. unfold converted.
  destruct (decide (dtype_of (to_numeric_ignore s) = object)); [|done].
  by rewrite setitem_setitem in Hb.
Qed.

Lemma handle_missing_values_keeps (df df' : DataFrame) :
  handle_missing_values df = Ok df' ->
  index df' = index df /\ columns df' = columns df.
Proof.
  apply for_each_keeps. intros d col d' Hb.
  apply (overwrite_keeps d d' col filled).
  destruct (getitem d col) as [s|e] eqn:Hg; simpl in *; [|done].
  unfold filled. by destruct (is_numeric_dtype s).
Qed.

End LoopStages.

(** ** Missing values *)

Section MissingValues.
Context `{NumPy}.

Lemma values_filled (s : Series) :
  values (filled s)
  = (fun v => if isna v
              then (if is_numeric_dtype s then Num (num_of_Z 0) else Str "unknown")
              else v) <$> values s.
Proof. unfold filled. by destruct (is_numeric_dtype s). Qed.

(** C1.  On a table with unique labels [handle_missing_values] returns
    a table with the same index and labels in which no cell is
    missing: a missing cell of a numeric column has become 0, a missing
    cell of any other column has become the text [unknown], and every
    other cell is as it was. *)
Theorem handle_missing_values_fills (df : DataFrame) :
  NoDup (columns df) ->
  exists df',
    handle_missing_values df = Ok df'
    /\ index df' = index df
    /\ columns df' = columns df
    /\ (forall c s' v, (c, s') ∈ data df' -> v ∈ values s' -> isna v = false)
    /\ (forall j c s, data df !! j = Some (c, s) ->
           exists s', data df' !! j = Some (c, s')
             /\ values s'
                = (fun v => if isna v
                            then (if is_numeric_dtype s
                                  then Num (num_of_Z 0) else Str "unknown")
                            else v) <$> values s).
Proof.
  intros Hnd. eexists. split; [by apply handle_missing_values_unique|].
  split; [done|]. split; [apply columns_map_cols|]. split.
  - intros c s' v Hin Hv. unfold map_cols in Hin. simpl in Hin.
    apply list_elem_of_fmap in Hin as [[c0 s0] [[= -> ->] _]]. simpl in Hv.
    rewrite values_filled in Hv.
    apply list_elem_of_fmap in Hv as [v0 [-> _]].
    destruct (isna v0) eqn:Hna; [|done]. by destruct (is_numeric_dtype s0).
  - intros j c s Hj. exists (filled s). split; [|apply values_filled].
    unfold map_cols. simpl. by rewrite list_lookup_fmap, Hj.
Qed.

End MissingValues.

Section MissingValuesOnSample.
#[local] Existing Instance Decimal.numpy.

Lemma handle_missing_values_fills_witness :
  exists df',
    handle_missing_values Examples.holes = Ok df'
    /\ index df' = index Examples.holes
    /\ columns df' = columns Examples.holes
    /\ (forall c s' v, (c, s') ∈ data df' -> v ∈ values s' -> isna v = false)
    /\ (forall j c s, data Examples.holes !! j = Some (c, s) ->
           exists s', data df' !! j = Some (c, s')
             /\ values s'
                = (fun v => if isna v
                            then (if is_numeric_dtype s
                                  then Num (num_of_Z 0) else Str "unknown")
                            else v) <$> values s).
Proof.
  apply (handle_missing_values_fills Examples.holes).
  by_evaluation.
Defined.

End MissingValuesOnSample.

(** ** Lifetime-value parsing *)

Module TrimFacts.
Import Text TextSpec.
Local Open Scope string_scope.

Lemma removed_replace_char c (x : string) : removed c x (replace_char c "" x).
Proof.
  induction x as [|d x IH]; simpl; [constructor|].
  destruct (Ascii.eqb d c) eqn:Hd.
  - apply Ascii.eqb_eq in Hd as ->. by constructor.
  - apply Ascii.eqb_neq in Hd. by constructor.
Qed.

Lemma removed_unique c (x y : string) : removed c x y -> y = replace_char c "" x.
Proof.
  induction 1 as [|x y _ IH|d x y Hd _ IH]; simpl; [done| |].
  - by rewrite Ascii.eqb_refl.
  - apply Ascii.eqb_neq in Hd. by rewrite Hd, IH.
Qed.

Lemma string_app_cons c (a b : string) : String c a ++ b = String c (a ++ b).
Proof. reflexivity. Qed.

Lemma lstrip_with_split p (s : string) :
  exists l, s = l ++ lstrip_with p s /\ all_chars p l = true.
Proof.
  induction s as [|c s [l [Hs Hl]]]; [by exists ""|]. simpl.
  destruct (p c) eqn:Hc; [|by exists ""].
  exists (String c l). split; [by rewrite string_app_cons, <- Hs|].
  simpl. by rewrite Hc.
Qed.

Lemma first_char_lstrip_with p (s : string) c :
  first_char (lstrip_with p s) = Some c -> p c = false.
Proof.
  induction s as [|d s IH]; simpl; [done|].
  destruct (p d) eqn:Hd; [done|]. simpl. by intros [= <-].
Qed.

Lemma rstrip_with_split p (s : string) :
  exists r, s = rstrip_with p s ++ r /\ all_chars p r = true.
Proof.
  induction s as [|c s [r [Hs Hr]]]; [by exists ""|]. simpl.
  destruct (rstrip_with p s) as [|d u] eqn:Hu.
  - change ("" ++ r) with r in Hs. subst r. destruct (p c) eqn:Hc.
    + exists (String c s). split; [done|]. simpl. by rewrite Hc.
    + exists s. by split.
  - exists r. rewrite string_app_cons. by rewrite <- Hs.
Qed.

Lemma last_char_rstrip_with p (s : string) c :
  last_char (rstrip_with p s) = Some c -> p c = false.
Proof.
  induction s as [|d s IH]; simpl; [done|].
  destruct (rstrip_with p s) as [|e u] eqn:Hu.
  - destruct (p d) eqn:Hd; [done|]. simpl. by intros [= <-].
  - done.
Qed.

Lemma first_char_rstrip_with p (s : string) c :
  first_char (rstrip_with p s) = Some c -> first_char s = Some c.
Proof.
  destruct s as [|d s]; simpl; [done|].
  destruct (rstrip_with p s); [destruct (p d)|]; done.
Qed.

Lemma lstrip_with_blanks p (l u : string) :
  all_chars p l = true -> lstrip_with p (l ++ u) = lstrip_with p u.
Proof.
  induction l as [|c l IH]; [done|]. rewrite string_app_cons. simpl.
  intros [-> Hl]%andb_true_iff. by apply IH.
Qed.

Lemma rstrip_with_blank p (r : string) :
  all_chars p r = true -> rstrip_with p r = "".
Proof.
  induction r as [|c r IH]; simpl; [done|].
  intros [-> Hr]%andb_true_iff. by rewrite IH.
Qed.

Lemma rstrip_with_blanks p (t r : string) :
  all_chars p r = true -> rstrip_with p (t ++ r) = rstrip_with p t.
Proof.
  intros Hr. induction t as [|c t IH].
  - by apply rstrip_with_blank.
  - rewrite string_app_cons. simpl. by rewrite IH.
Qed.

Lemma rstrip_with_kept p (t : string) :
  (forall c, last_char t = Some c -> p c = false) -> rstrip_with p t = t.
Proof.
  induction t as [|c t IH]; simpl; [done|]. intros Hlast.
  destruct t as [|d t].
  - simpl. by rewrite (Hlast c).
  - rewrite IH by done. done.
Qed.

(** [Text.strip] trims, and what is trimmed is what [Text.strip] gives. *)
Lemma trimmed_strip (y : string) : trimmed y (strip y).
Proof.
  unfold strip, strip_with.
  destruct (lstrip_with_split is_space y) as [l [Hy Hl]].
  destruct (rstrip_with_split is_space (lstrip_with is_space y)) as [r [Hu Hr]].
  split; [|split].
  - exists l, r. split; [|done]. by rewrite <- Hu.
  - intros c Hc. apply first_char_rstrip_with in Hc.
    by apply first_char_lstrip_with in Hc.
  - intros c. apply last_char_rstrip_with.
Qed.

Lemma trimmed_unique (y t : string) : trimmed y t -> t = strip y.
Proof.
  intros [(l & r & -> & Hl & Hr) [Hfirst Hlast]].
  unfold strip, strip_with. rewrite lstrip_with_blanks by done.
  destruct t as [|c t].
  - change ("" ++ r) with r.
    assert (lstrip_with is_space r = "") as ->; [|done].
    clear -Hr. induction r as [|c r IH]; simpl; [done|].
    simpl in Hr. apply andb_true_iff in Hr as [-> Hr]. by apply IH.
  - rewrite string_app_cons. cbn [lstrip_with].
    rewrite (Hfirst c) by done. rewrite <- string_app_cons.
    rewrite rstrip_with_blanks by done. by rewrite rstrip_with_kept.
Qed.

(** The text read by the stage is the one the words describe, and the
    words describe no other. *)
Lemma percent_free_trimmed_text (x : string) :
  percent_free_trimmed x (strip (replace_char "%" "" x)).
Proof. eexists. split; [apply removed_replace_char|apply trimmed_strip]. Qed.

Lemma percent_free_trimmed_unique (x t : string) :
  percent_free_trimmed x t -> t = strip (replace_char "%" "" x).
Proof.
  intros (y & Hy & Ht). apply removed_unique in Hy as ->. by apply trimmed_unique.
Qed.

End TrimFacts.

Section LifetimeValue.
Context `{NumPy}.

(** C9.  When the table has a [customer_lifetime_value] column, the
    stage returns normally, and the column it writes is numeric and has
    a cell for each cell of the old column, in order.  Let [t] be the
    string form of the old cell with every [%] removed
    ([TextSpec.removed]) and the whitespace at both ends trimmed
    ([TextSpec.trimmed]): the new cell is the number read from [t], or is
    missing when [t] cannot be read as a number.  No other column
    changes.  Without that column the table is returned as it is. *)
Theorem clean_customer_lifetime_value_parses (df : DataFrame) :
  (has_column df "customer_lifetime_value" = false ->
   clean_customer_lifetime_value df = Ok df)
  /\ (forall s, getitem df "customer_lifetime_value" = Ok s ->
        exists s',
          clean_customer_lifetime_value df
          = Ok (setitem df "customer_lifetime_value" s')
          /\ dtype_of s' = numeric
          /\ Forall2 (fun v v' =>
                        exists t,
                          TextSpec.percent_free_trimmed (str_of v) t
                          /\ v' = match to_numeric_str t with
                                  | Value x => Num x
                                  | _ => NaN
                                  end)
                     (values s) (values s')).
Proof.
  rewrite clean_customer_lifetime_value_on_column. split.
  - apply on_column_absent.
  - intros s Hg. exists (mkSeries numeric (lifetime_value_of <$> values s)).
    split; [|split; [done|]].
    + unfold on_column. rewrite (getitem_Ok_has_column _ _ _ Hg), Hg. done.
    + simpl. apply Forall2_fmap_r, Forall_Forall2_diag, Forall_forall.
      intros v _. eexists. split; [apply TrimFacts.percent_free_trimmed_text|done].
Qed.

End LifetimeValue.

Section LifetimeValueOnSample.
#[local] Existing Instance Decimal.numpy.

(** The next cell of the new column, from the text that the words
    describe. *)
Ltac next_cell H :=
  let v := fresh "v" in
  let vs := fresh "vs" in
  let t := fresh "t" in
  let Ht := fresh "Ht" in
  apply Forall2_cons_inv_l in H as (v & vs & (t & Ht & ->) & H & ->);
  apply TrimFacts.percent_free_trimmed_unique in Ht as ->.

(** Several [%] signs and blanks on both sides: the numbers are read;
    a blank inside the text, or nothing left of it, gives a missing
    cell, and so does a missing cell, whose string form is [nan]. *)
Lemma clean_customer_lifetime_value_parses_witness :
  clean_customer_lifetime_value Cases.lifetime_texts
  = Ok (setitem Cases.lifetime_texts "customer_lifetime_value"
          (mkSeries numeric
             [Num (25 # 2); Num (7 # 1); NaN; NaN; NaN; Num (3 # 1)])).
Proof.
  destruct (clean_customer_lifetime_value_parses Cases.lifetime_texts)
    as [_ Hpresent].
  destruct (Hpresent _ eq_refl) as (s' & -> & Hd & Hv).
  destruct s' as [d vs]. simpl in Hd, Hv. subst d. do 3 f_equal.
  repeat next_cell Hv. apply Forall2_nil_inv_l in Hv as ->. reflexivity.
Defined.

End LifetimeValueOnSample.

(** ** Frame properties of the column-specific stages *)

Section FrameEffect.
Context `{NumPy}.

Lemma on_column_modifies_only col f :
  modifies_only col (on_column col f).
Proof.
  intros df. split; [apply on_column_absent|].
  intros df' Hon. apply on_column_frame in Hon as (Hi & Hc & Hrest).
  unfold nrows. by rewrite Hi.
Qed.

(** C10.  Each column-specific stage changes at most the column it is
    named after: when it returns, the row count, the index, the labels
    and their order, and every column under another label are those of
    its input; when its column is absent it returns its input. *)
Theorem column_stages_modify_only_their_column :
  modifies_only "gender" clean_gender
  /\ modifies_only "education" clean_education
  /\ modifies_only "state" clean_state_names
  /\ modifies_only "policy_type" clean_policy_type
  /\ (forall cap, modifies_only "monthly_premium_auto"
                    (fun df => cap_monthly_premium_auto df cap))
  /\ modifies_only "customer_lifetime_value" clean_customer_lifetime_value.
Proof.
  split; [|split; [|split; [|split; [|split]]]].
  - exact (on_column_modifies_only "gender" (fun s => Ok (replace gender_mapping s))).
  - exact (on_column_modifies_only "education" (fun s => Ok (replace education_mapping s))).
  - exact (on_column_modifies_only "state" (fun s => Ok (replace state_mapping s))).
  - exact (on_column_modifies_only "policy_type" (fun s => Ok (replace policy_mapping s))).
  - intros cap df.
    pose proof (on_column_modifies_only "monthly_premium_auto" (capped cap) df) as Hm.
    rewrite <- cap_monthly_premium_auto_on_column in Hm. exact Hm.
  - intros df.
    pose proof (on_column_modifies_only "customer_lifetime_value"
                  (fun s => Ok (mkSeries numeric (lifetime_value_of <$> values s)))
                  df) as Hm.
    rewrite <- clean_customer_lifetime_value_on_column in Hm. exact Hm.
Qed.

End FrameEffect.

Section FrameEffectOnSample.
#[local] Existing Instance Decimal.numpy.

Lemma column_stages_modify_only_their_column_witness :
  exists df',
    clean_gender Examples.customers_named = Ok df'
    /\ nrows df' = nrows Examples.customers_named
    /\ index df' = index Examples.customers_named
    /\ columns df' = columns Examples.customers_named
    /\ forall j c s, data Examples.customers_named !! j = Some (c, s) ->
                     c <> "gender" -> data df' !! j = Some (c, s).
Proof.
  destruct column_stages_modify_only_their_column as (Hgender & _).
  destruct (Hgender Examples.customers_named) as [_ Hframe].
  eexists. split; [reflexivity|]. apply Hframe. reflexivity.
Defined.

End FrameEffectOnSample.

(** ** Row and column counts *)

Section Shape.
Context `{NumPy}.

Lemma length_compress {A : Type} (mask : list bool) (l : list A) :
  length (compress mask l) <= length l.
Proof.
  revert l. induction mask as [|b mask IH]; intros [|x l]; simpl; try lia.
  specialize (IH l). destruct b; simpl; lia.
Qed.

Lemma ncols_columns (df : DataFrame) : ncols df = length (columns df).
Proof. unfold ncols, columns. by rewrite length_fmap. Qed.

Lemma same_index_columns_shape (df df' : DataFrame) :
  index df' = index df /\ columns df' = columns df ->
  nrows df' = nrows df /\ ncols df' = ncols df.
Proof. intros [Hi Hc]. rewrite !ncols_columns. unfold nrows. by rewrite Hi, Hc. Qed.

Lemma on_column_keeps_shape col f : keeps_shape (on_column col f).
Proof.
  intros df df' Hon. apply same_index_columns_shape.
  apply on_column_frame in Hon. tauto.
Qed.

Lemma take_rows_shape mask (df : DataFrame) :
  nrows (take_rows mask df) <= nrows df /\ ncols (take_rows mask df) = ncols df.
Proof.
  unfold nrows, ncols, take_rows. simpl. split; [apply length_compress|].
  by rewrite length_fmap.
Qed.

Lemma dropna_columns_shape (df : DataFrame) :
  nrows (dropna_columns df) = nrows df /\ ncols (dropna_columns df) <= ncols df.
Proof. unfold nrows, ncols, dropna_columns. simpl. split; [done|apply length_filter]. Qed.

Lemma remove_empty_rows_columns_shape (df : DataFrame) :
  nrows (remove_empty_rows_columns df) <= nrows df
  /\ ncols (remove_empty_rows_columns df) <= ncols df.
Proof.
  unfold remove_empty_rows_columns.
  pose proof (dropna_columns_shape (dropna_rows df)) as [Hr Hc].
  pose proof (take_rows_shape (existsb notna <$> rows df) df) as [Hr' Hc'].
  unfold dropna_rows in *. lia.
Qed.

Lemma remove_duplicates_shape (df : DataFrame) :
  nrows (remove_duplicates df) <= nrows df
  /\ ncols (remove_duplicates df) = ncols df.
Proof.
  unfold remove_duplicates, drop_duplicates. destruct (empty df); [lia|].
  apply take_rows_shape.
Qed.

Lemma cellwise_stages_keep_shape : Forall keeps_shape cellwise_stages.
Proof.
  unfold cellwise_stages. repeat apply Forall_cons_2; [..|apply Forall_nil_2].
  - intros df df' [= <-]. unfold nrows, ncols, clean_column_names. simpl.
    by rewrite length_fmap.
  - intros df df' [= <-]. unfold nrows, ncols, rename_columns, rename. simpl.
    by rewrite length_fmap.
  - intros df df' Hs. by apply same_index_columns_shape, strip_text_columns_keeps.
  - apply (on_column_keeps_shape "gender" (fun s => Ok (replace gender_mapping s))).
  - apply (on_column_keeps_shape "education"
             (fun s => Ok (replace education_mapping s))).
  - apply (on_column_keeps_shape "state" (fun s => Ok (replace state_mapping s))).
  - intros df df'. rewrite cap_monthly_premium_auto_on_column.
    apply on_column_keeps_shape.
  - apply (on_column_keeps_shape "policy_type"
             (fun s => Ok (replace policy_mapping s))).
  - intros df df'. rewrite clean_customer_lifetime_value_on_column.
    apply on_column_keeps_shape.
  - intros df df' Hs. by apply same_index_columns_shape, convert_data_types_keeps.
  - intros df df' Hs. by apply same_index_columns_shape, handle_missing_values_keeps.
Qed.

(** C7.  No stage adds a row or a column.  Every stage other than the
    two structural ones returns as many rows and columns as it received;
    [remove_empty_rows_columns] may drop rows and columns,
    [remove_duplicates] may drop rows and keeps the columns; and the
    table returned by [clean_data] has no more rows and no more columns
    than its input. *)
Theorem stages_never_add_rows_or_columns :
  Forall keeps_shape cellwise_stages
  /\ (forall df : DataFrame,
        nrows (remove_empty_rows_columns df) <= nrows df
        /\ ncols (remove_empty_rows_columns df) <= ncols df)
  /\ (forall df : DataFrame,
        nrows (remove_duplicates df) <= nrows df
        /\ ncols (remove_duplicates df) = ncols df)
  /\ (forall df df' : DataFrame,
        clean_data df = Ok df' ->
        nrows df' <= nrows df /\ ncols df' <= ncols df).
Proof.
  pose proof cellwise_stages_keep_shape as Hall.
  split; [done|]. split; [apply remove_empty_rows_columns_shape|].
  split; [apply remove_duplicates_shape|].
  intros df df'. unfold clean_data.
  unfold cellwise_stages in Hall.
  repeat (apply Forall_cons_1 in Hall as [? Hall]).
  set (d0 := clean_column_names df).
  set (d1 := rename_columns d0).
  set (d2 := remove_empty_rows_columns d1).
  set (d3 := remove_duplicates d2).
  assert (nrows d3 <= nrows df /\ ncols d3 <= ncols df) as Hstruct.
  { pose proof (remove_duplicates_shape d2).
    pose proof (remove_empty_rows_columns_shape d1).
    assert (nrows d0 = nrows df /\ ncols d0 = ncols df) by eauto.
    assert (nrows d1 = nrows d0 /\ ncols d1 = ncols d0) by eauto.
    subst d3 d2. lia. }
  clearbody d3. clear d0 d1 d2.
  repeat match goal with
         | |- (?stage ?d ≫= _) = Ok _ -> _ =>
             let d' := fresh "d" in
             let Hd := fresh "Hd" in
             destruct (stage d) as [d'|] eqn:Hd; simpl; [|done]
         | |- (cap_monthly_premium_auto ?d ?c ≫= _) = Ok _ -> _ =>
             let d' := fresh "d" in
             let Hd := fresh "Hd" in
             destruct (cap_monthly_premium_auto d c) as [d'|] eqn:Hd; simpl; [|done]
         end.
  intros Hlast.
  repeat match goal with
         | Hk : keeps_shape ?f, Hd : ?e = Ok ?d' |- _ =>
             apply (Hk _ d') in Hd
         end.
  lia.
Qed.

End Shape.

Section PipelineOnSamples.
#[local] Existing Instance Decimal.numpy.

Lemma stages_never_add_rows_or_columns_witness :
  exists df',
    clean_data Examples.customers = Ok df'
    /\ nrows df' <= nrows Examples.customers
    /\ ncols df' <= ncols Examples.customers.
Proof.
  destruct stages_never_add_rows_or_columns as (_ & _ & _ & Hpipeline).
  assert (clean_data Examples.customers <> Raise TypeError
          /\ clean_data Examples.customers <> Raise KeyError
          /\ clean_data Examples.customers <> Raise AmbiguousLabel)
    as (Ht & Hk & Ha) by by_evaluation.
  destruct (clean_data Examples.customers) as [df'|[]] eqn:Hrun; try congruence.
  exists df'. split; [reflexivity|]. by apply Hpipeline.
Defined.

(** The examples of the specification. *)
Example clean_data_customers :
  clean_data Examples.customers
  = Ok (mkFrame [0; 1; 2]%Z
          [ ("customer", mkSeries object [Str "rb50392"; Str "qz44356"; Str "ai49188"]);
            ("state", mkSeries object [Str "california"; Str "arizona"; Str "oregon"]);
            ("gender", mkSeries object [Str "f"; Str "m"; Str "nan"]);
            ("education", mkSeries object [Str "bachelor"; Str "doctorate"; Str "college"]);
            ("customer_lifetime_value",
              mkSeries numeric [Num (25 # 2); Num (0 # 1); Num (7 # 1)]);
            ("monthly_premium_auto",
              mkSeries numeric [Num (1000 # 1); Num (800 # 1); Num (0 # 1)]);
            ("policy_type", mkSeries object [Str "personal"; Str "corporate"; Str "nan"]);
            ("effective_to_date",
              mkSeries object [Time 1580428800000000000%Z; Time 1638316800000000000%Z;
                               Str "unknown"]) ]).
Proof. by_evaluation. Qed.

(** C2.  [strip_text_columns] does not leave a missing cell of a text
    column missing: [astype(str)] prints it, so the missing cell of
    [Examples.text_with_hole] comes out as the text [nan]. *)
Theorem strip_text_columns_prints_missing_cells :
  strip_text_columns Examples.text_with_hole
  = Ok (mkFrame [0; 1]%Z [ ("gender", mkSeries object [Str "f"; Str "nan"]) ]).
Proof. by_evaluation. Qed.

(** C3.  [clean_data] raises on a well-formed table: the premium column
    of [Examples.text_premium] holds text, and [cap_monthly_premium_auto]
    compares it with the number 1000. *)
Theorem clean_data_raises_on_text_premium :
  wf_frame Examples.text_premium = true
  /\ NoDup (columns Examples.text_premium)
  /\ clean_data Examples.text_premium = Raise TypeError.
Proof.
  by_evaluation.
Qed.

(** C4, as stated, fails: the two rows of [Examples.near_duplicates]
    differ by one trailing blank, and both are in the output, because
    [clean_data] removes duplicates before it normalises text. *)
Lemma clean_data_keeps_near_duplicates :
  clean_data Examples.near_duplicates
  = Ok (mkFrame [0; 1]%Z
          [ ("customer", mkSeries object [Str "rb50392"; Str "rb50392"]);
            ("income", mkSeries numeric [Num (52000 # 1); Num (52000 # 1)]) ]).
Proof. by_evaluation. Qed.

(** C6, as stated, fails: a second run on the output of the first run
    on [Examples.near_duplicates] removes a row. *)
Lemma clean_data_not_idempotent :
  clean_data Examples.near_duplicates
  = Ok (mkFrame [0; 1]%Z
          [ ("customer", mkSeries object [Str "rb50392"; Str "rb50392"]);
            ("income", mkSeries numeric [Num (52000 # 1); Num (52000 # 1)]) ])
  /\ (clean_data Examples.near_duplicates ≫= clean_data)
     = Ok (mkFrame [0]%Z
             [ ("customer", mkSeries object [Str "rb50392"]);
               ("income", mkSeries numeric [Num (52000 # 1)]) ])
  /\ (clean_data Examples.near_duplicates ≫= clean_data)
     <> clean_data Examples.near_duplicates.
Proof.
  by_evaluation.
Qed.

End PipelineOnSamples.

(** ** Column labels *)

Module LabelFacts.
Import Text Label.

Ltac by_cases_on c :=
  destruct c as [[] [] [] [] [] [] [] []]; vm_compute; congruence.

Lemma alnum_not_underscore c : is_lower_alnum c = true -> Ascii.eqb c "_" = false.
Proof. by_cases_on c. Qed.

Lemma space_not_alnum c : is_space c = true -> is_lower_alnum (lower_char c) = false.
Proof. by_cases_on c. Qed.

Lemma mem_char_underscore c : mem_char c "_" = Ascii.eqb c "_".
Proof. simpl. by rewrite orb_false_r. Qed.

Lemma append_one c (s : string) : (String c "" ++ s)%string = String c s.
Proof. reflexivity. Qed.

(** *** What the two substitutions produce *)

Lemma sub_runs_from_neat (cls : ascii -> bool) (t : string) :
  cls "_"%char = true ->
  all_chars (fun c => cls c || is_lower_alnum c) t = true ->
  forall b,
    neat (sub_runs_from cls "_" b t) = true
    /\ (b = true -> head_underscore (sub_runs_from cls "_" b t) = false).
Proof.
  intros Hus. induction t as [|c t IH]; intros Hall b; simpl in *.
  - by destruct b.
  - apply andb_true_iff in Hall as [Hc Hall]. specialize (IH Hall).
    destruct (cls c) eqn:Hcls.
    + destruct b.
      * apply (IH true).
      * destruct (IH true) as [Hn Hh]. rewrite append_one. simpl.
        rewrite Hn, (Hh eq_refl). by split.
    + simpl in Hc. destruct (IH false) as [Hn _]. simpl. rewrite Hc, Hn.
      split; [done|]. intros _. by apply alnum_not_underscore.
Qed.

Lemma neat_all_chars (s : string) :
  neat s = true ->
  all_chars (fun c => Ascii.eqb "_" c || is_lower_alnum c) s = true.
Proof.
  induction s as [|c s IH]; [done|]. cbn [neat all_chars].
  intros [Hc Hn]%andb_true_iff. rewrite (IH Hn), andb_true_r.
  apply orb_true_iff in Hc as [Hc|Hc].
  - by rewrite Hc, orb_true_r.
  - apply andb_true_iff in Hc as [Hc _]. rewrite Ascii.eqb_sym in Hc. by rewrite Hc.
Qed.

(** *** What stripping keeps *)

Lemma lstrip_with_neat p (s : string) : neat s = true -> neat (lstrip_with p s) = true.
Proof.
  induction s as [|c s IH]; simpl; [done|]. intros Hn.
  destruct (p c); [|done]. apply IH. by apply andb_true_iff in Hn as [_ Hn].
Qed.

Lemma lstrip_underscore_head (s : string) :
  head_underscore (lstrip_with (fun c => mem_char c "_") s) = false.
Proof.
  induction s as [|c s IH]; [done|]. cbn [lstrip_with].
  destruct (mem_char c "_") eqn:Hc; [done|]. simpl.
  by rewrite <- mem_char_underscore.
Qed.

Lemma rstrip_with_head p (s : string) d r :
  rstrip_with p s = String d r -> exists s', s = String d s'.
Proof.
  destruct s as [|c s]; simpl; [done|].
  destruct (rstrip_with p s) as [|e r']; [destruct (p c)|]; intros [= -> _]; eauto.
Qed.

Lemma rstrip_with_head_underscore p (s : string) :
  head_underscore s = false -> head_underscore (rstrip_with p s) = false.
Proof.
  destruct (rstrip_with p s) as [|d r] eqn:Hr; [done|].
  apply rstrip_with_head in Hr as [s' ->]. done.
Qed.

Lemma rstrip_underscore_tidy (s : string) :
  neat s = true -> tidy (rstrip_with (fun c => mem_char c "_") s) = true.
Proof.
  induction s as [|c s IH]; [done|]. cbn [neat rstrip_with].
  intros [Hc Hn]%andb_true_iff. specialize (IH Hn).
  destruct (rstrip_with (fun c => mem_char c "_") s) as [|d r] eqn:Hr.
  - rewrite mem_char_underscore. destruct (Ascii.eqb c "_") eqn:Hus; [done|].
    rewrite andb_false_l, orb_false_r in Hc. cbn [tidy]. by rewrite Hc.
  - cbn [tidy]. cbn [tidy] in IH. rewrite IH, andb_true_r.
    apply orb_true_iff in Hc as [Hc|Hc]; [by rewrite Hc|].
    apply andb_true_iff in Hc as [Hus Hhead]. rewrite Hus. simpl.
    apply rstrip_with_head in Hr as [s' ->]. simpl in *.
    apply andb_true_iff in Hn as [Hd _]. apply negb_true_iff in Hhead.
    rewrite Hhead in Hd. simpl in Hd. rewrite orb_false_r in Hd.
    by rewrite Hd, orb_true_r.
Qed.

(** *** The label is tidy and does not start with an underscore *)

Lemma clean_name_tidy (name : string) :
  tidy (clean_name name) = true /\ head_underscore (clean_name name) = false.
Proof.
  unfold clean_name, strip_chars, strip_with, sub_runs.
  set (t := lower (strip name)).
  destruct (sub_runs_from_neat (fun c => negb (is_lower_alnum c)) t) with (b := false)
    as [Hu _]; [done| |].
  { clear. induction t as [|c t IH]; simpl; [done|].
    rewrite IH. by destruct (is_lower_alnum c). }
  set (u := sub_runs_from _ "_" false t) in *.
  destruct (sub_runs_from_neat (Ascii.eqb "_") u) with (b := false)
    as [Hv _]; [done|by apply neat_all_chars|].
  set (v := sub_runs_from _ "_" false u) in *.
  split.
  - by apply rstrip_underscore_tidy, lstrip_with_neat.
  - apply rstrip_with_head_underscore, lstrip_underscore_head.
Qed.

(** *** A tidy string without leading underscore matches the pattern *)

Import Regex.

Lemma tidy_decompose (w : string) :
  tidy w = true ->
  exists a r,
    w = (a ++ r)%string
    /\ matches (Star (Cat underscore (Plus alnum))) r
    /\ ((head_alnum w = true /\ matches (Plus alnum) a)
        \/ (head_alnum w = false /\ a = "")).
Proof.
  induction w as [|c w IH]; simpl.
  - intros _. exists "", "". split; [done|]. split; [constructor|]. by right.
  - intros [Hc Hw]%andb_true_iff. destruct (IH Hw) as (a & r & -> & Hr & Ha).
    destruct (is_lower_alnum c) eqn:Halnum.
    + destruct Ha as [[_ Ha]|[_ ->]].
      * exists (String c a), r. split; [done|]. split; [done|]. left. split; [done|].
        apply (MPlusMore alnum (String c "") a); [by constructor|done].
      * exists (String c ""), r. split; [done|]. split; [done|]. left. split; [done|].
        apply MPlusOne. by constructor.
    + simpl in Hc. apply andb_true_iff in Hc as [Hus Hhead].
      apply Ascii.eqb_eq in Hus as ->.
      destruct Ha as [[_ Ha]|[Hno _]]; [|congruence].
      exists "", (String "_" (a ++ r)%string). split; [done|]. split; [|by right].
      apply (MStarMore _ (String "_" a) r); [|done].
      apply (MCat underscore (Plus alnum) (String "_" "") a); [by constructor|done].
Qed.

Lemma tidy_matches (w : string) :
  tidy w = true -> head_underscore w = false ->
  w = "" \/ matches label_pattern w.
Proof.
  intros Ht Hh.
  destruct (tidy_decompose _ Ht) as (a & r & Hw & Hr & [[_ Ha]|[Hno _]]).
  - right. rewrite Hw. by constructor.
  - destruct w as [|c w]; [by left|]. cbn [tidy head_alnum head_underscore] in *.
    rewrite Hno, Hh in Ht. done.
Qed.

Lemma plus_alnum_nonempty (s : string) : matches (Plus alnum) s -> s <> "".
Proof.
  intros Hm. remember (Plus alnum) as r eqn:Er.
  induction Hm as [| | r0 s Hm _ | r0 s1 s2 Hm1 _ Hm2 _ | |]; try discriminate.
  - injection Er as ->. by inversion Hm.
  - injection Er as ->. by inversion Hm1.
Qed.

Lemma label_pattern_nonempty : ~ matches label_pattern "".
Proof.
  intros Hm. inversion Hm as [| r1 r2 s1 s2 H1 H2 Happ | | | |]; subst.
  apply plus_alnum_nonempty in H1. destruct s1; [done|discriminate].
Qed.

(** *** When the label is empty *)

Lemma any_chars_lstrip_with p q (s : string) :
  (forall c, p c = true -> q c = false) ->
  any_chars q (lstrip_with p s) = any_chars q s.
Proof.
  intros Hpq. induction s as [|c s IH]; simpl; [done|].
  destruct (p c) eqn:Hp; [|done]. by rewrite (Hpq c Hp).
Qed.

Lemma any_chars_rstrip_with p q (s : string) :
  (forall c, p c = true -> q c = false) ->
  any_chars q (rstrip_with p s) = any_chars q s.
Proof.
  intros Hpq. induction s as [|c s IH]; simpl; [done|].
  destruct (rstrip_with p s) as [|d r].
  - simpl in IH. rewrite <- IH. destruct (p c) eqn:Hp; simpl.
    + by rewrite (Hpq c Hp).
    + by rewrite orb_false_r.
  - simpl in *. by rewrite IH.
Qed.

Lemma any_chars_lower (s : string) :
  any_chars is_lower_alnum (lower s) = has_alnum s.
Proof.
  unfold has_alnum, lower. induction s as [|c s IH]; simpl; [done|]. by rewrite IH.
Qed.

Lemma any_chars_sub_runs_from cls b (s : string) :
  (forall c, cls c = true -> is_lower_alnum c = false) ->
  any_chars is_lower_alnum (sub_runs_from cls "_" b s) = any_chars is_lower_alnum s.
Proof.
  intros Hcls. revert b. induction s as [|c s IH]; intros b; simpl; [done|].
  destruct (cls c) eqn:Hc.
  - rewrite (Hcls c Hc). destruct b; rewrite ?append_one; simpl; by rewrite IH.
  - simpl. by rewrite IH.
Qed.

Lemma any_chars_clean_name (name : string) :
  any_chars is_lower_alnum (clean_name name) = has_alnum name.
Proof.
  unfold clean_name, strip_chars, strip_with, sub_runs.
  rewrite any_chars_rstrip_with, any_chars_lstrip_with, !any_chars_sub_runs_from.
  - rewrite any_chars_lower. unfold has_alnum, strip, strip_with.
    rewrite any_chars_rstrip_with, any_chars_lstrip_with; auto using space_not_alnum.
  - intros c Hc. by apply negb_true_iff.
  - intros c Hc. apply Ascii.eqb_eq in Hc as <-. done.
  - intros c Hc. rewrite mem_char_underscore in Hc. apply Ascii.eqb_eq in Hc as ->. done.
  - intros c Hc. rewrite mem_char_underscore in Hc. apply Ascii.eqb_eq in Hc as ->. done.
Qed.

(** The label produced from [name]: the pattern when [name] holds a
    letter or a digit, the empty string otherwise. *)
Lemma clean_name_label (name : string) :
  if has_alnum name then matches label_pattern (clean_name name)
  else clean_name name = "".
Proof.
  destruct (clean_name_tidy name) as [Ht Hh].
  pose proof (any_chars_clean_name name) as Hany.
  destruct (has_alnum name).
  - destruct (tidy_matches _ Ht Hh) as [Hw|Hw]; [|done].
    rewrite Hw in Hany. done.
  - destruct (clean_name name) as [|c w]; [done|]. simpl in *.
    apply orb_false_iff in Hany as [Hc _]. rewrite Hc, Hh in Ht. done.
Qed.

End LabelFacts.

Section ColumnNames.
Context `{NumPy}.

Lemma columns_clean_column_names (df : DataFrame) :
  columns (clean_column_names df) = Text.clean_name <$> columns df.
Proof.
  unfold columns, clean_column_names. simpl.
  rewrite <- !list_fmap_compose. by apply list_fmap_ext.
Qed.

(** C8, amended.  [clean_column_names] rewrites the labels in place and
    in order.  Every label it produces is empty or matches
    [[a-z0-9]+(_[a-z0-9]+)*]; and it matches the pattern whenever the
    label it comes from holds an ASCII letter or digit. *)
Theorem clean_column_names_labels (df : DataFrame) :
  Forall2 (fun old new =>
             (new = "" \/ Regex.matches Regex.label_pattern new)
             /\ (Text.has_alnum old = true ->
                 Regex.matches Regex.label_pattern new))
          (columns df) (columns (clean_column_names df)).
Proof.
  rewrite columns_clean_column_names.
  induction (columns df) as [|name names IH]; [constructor|].
  rewrite fmap_cons. constructor; [|done].
  pose proof (LabelFacts.clean_name_label name) as Hl.
  destruct (Text.has_alnum name); split; auto; done.
Qed.

End ColumnNames.

Section ColumnNamesOnSample.
#[local] Existing Instance Decimal.numpy.

(** C8, as stated, fails: the label [%] of [Examples.percent_label]
    becomes the empty label, which the pattern does not match. *)
Lemma clean_column_names_empty_label :
  columns (clean_column_names Examples.percent_label) = [""]
  /\ ~ Regex.matches Regex.label_pattern "".
Proof. split; [reflexivity|apply LabelFacts.label_pattern_nonempty]. Qed.

(** The labels of [Examples.customers], each with a letter, and what
    they become. *)
Example clean_column_names_customers :
  forallb Text.has_alnum (columns Examples.customers) = true
  /\ columns (clean_column_names Examples.customers)
     = [ "customer"; "st"; "gender"; "education"; "customer_lifetime_value";
         "monthly_premium_auto"; "policy_type"; "effective_to_date" ].
Proof. split; reflexivity. Qed.

End ColumnNamesOnSample.

(** ** Trailing blanks *)

Module StripFacts.
Import Text.

Lemma append_cons c (a b : string) : (String c a ++ b)%string = String c (a ++ b)%string.
Proof. reflexivity. Qed.

Lemma lstrip_with_all p (s : string) :
  all_chars p s = true -> lstrip_with p s = "".
Proof.
  induction s as [|c s IH]; simpl; [done|].
  intros [-> Hs]%andb_true_iff. by apply IH.
Qed.

Lemma rstrip_with_all p (s : string) :
  all_chars p s = true -> rstrip_with p s = "".
Proof.
  induction s as [|c s IH]; simpl; [done|].
  intros [-> Hs]%andb_true_iff. by rewrite IH.
Qed.

Lemma rstrip_with_app p (x ws : string) :
  all_chars p ws = true -> rstrip_with p (x ++ ws)%string = rstrip_with p x.
Proof.
  intros Hws. induction x as [|c x IH].
  - by apply rstrip_with_all.
  - rewrite append_cons. simpl. by rewrite IH.
Qed.

Lemma strip_with_app p (a ws : string) :
  all_chars p ws = true -> strip_with p (a ++ ws)%string = strip_with p a.
Proof.
  intros Hws. unfold strip_with. induction a as [|c a IH].
  - change ("" ++ ws)%string with ws. by rewrite lstrip_with_all.
  - rewrite append_cons. cbn [lstrip_with]. destruct (p c); [done|].
    rewrite <- append_cons. by apply rstrip_with_app.
Qed.

(** Blanks after the text do not show once the text is stripped. *)
Lemma strip_app_blanks (a ws : string) :
  all_chars is_space ws = true -> strip (a ++ ws)%string = strip a.
Proof. apply strip_with_app. Qed.

End StripFacts.

(** ** Duplicate rows *)

Section Duplicates.
Context `{NumPy}.

Lemma same_cell_refl v : same_cell v v = true.
Proof. unfold same_cell. destruct (isna v) eqn:Hv; [done|]. by apply bool_decide_eq_true_2. Qed.

Lemma same_cell_sym v w : same_cell v w = same_cell w v.
Proof.
  unfold same_cell. destruct (isna v) eqn:Hv, (isna w) eqn:Hw; try done.
  - symmetry. apply bool_decide_eq_false_2. intros ->. congruence.
  - apply bool_decide_eq_false_2. intros ->. congruence.
  - apply bool_decide_ext. split; congruence.
Qed.

Lemma same_cell_trans u v w :
  same_cell u v = true -> same_cell v w = true -> same_cell u w = true.
Proof.
  unfold same_cell. destruct (isna u) eqn:Hu.
  - intros ->. done.
  - intros ->%bool_decide_eq_true_1. by rewrite Hu.
Qed.

Lemma same_row_refl r : same_row r r = true.
Proof. induction r as [|v r IH]; simpl; [done|]. by rewrite same_cell_refl, IH. Qed.

Lemma same_row_sym r1 r2 : same_row r1 r2 = same_row r2 r1.
Proof.
  revert r2. induction r1 as [|v r1 IH]; intros [|w r2]; simpl; try done.
  by rewrite same_cell_sym, IH.
Qed.

Lemma same_row_trans r1 r2 r3 :
  same_row r1 r2 = true -> same_row r2 r3 = true -> same_row r1 r3 = true.
Proof.
  revert r2 r3. induction r1 as [|u r1 IH]; intros [|v r2] [|w r3]; simpl; try done.
  intros [Huv H12]%andb_true_iff [Hvw H23]%andb_true_iff.
  by rewrite (same_cell_trans _ _ _ Huv Hvw), (IH _ _ H12 H23).
Qed.

Lemma length_duplicated_from seen rs : length (duplicated_from seen rs) = length rs.
Proof. revert seen. induction rs as [|r rs IH]; intros seen; simpl; [done|]. by rewrite IH. Qed.

Lemma length_rows (df : DataFrame) : length (rows df) = nrows df.
Proof. unfold rows. by rewrite length_fmap, length_seq. Qed.

Lemma rows_lookup (df : DataFrame) i :
  i < nrows df -> rows df !! i = Some (row df i).
Proof.
  intros Hi. unfold rows. rewrite list_lookup_fmap.
  by rewrite (lookup_seq_lt 0 (nrows df) i Hi).
Qed.

(** A row that repeats an earlier row, or a row already seen, is marked. *)
Lemma duplicated_from_marks rs :
  forall seen j r,
    rs !! j = Some r ->
    (existsb (same_row r) seen = true
     \/ exists i r', i < j /\ rs !! i = Some r' /\ same_row r r' = true) ->
    duplicated_from seen rs !! j = Some true.
Proof.
  induction rs as [|x rs IH]; intros seen j r Hj Hdup; [done|].
  destruct j as [|j]; simpl in *.
  - injection Hj as ->. destruct Hdup as [->|(i & r' & Hi & _)]; [done|lia].
  - apply (IH _ _ r Hj). destruct Hdup as [Hseen|(i & r' & Hi & Hr' & Hsame)].
    + left. simpl. by rewrite Hseen, orb_true_r.
    + destruct i as [|i]; simpl in Hr'.
      * injection Hr' as ->. left. simpl. by rewrite Hsame.
      * right. exists i, r'. split; [lia|done].
Qed.

Lemma length_compress_lt {A : Type} (mask : list bool) (l : list A) j :
  mask !! j = Some false -> j < length l -> length (compress mask l) < length l.
Proof.
  revert l j. induction mask as [|b mask IH]; intros [|x l] j Hj Hlen;
    simpl in *; try done; try lia.
  destruct j as [|j]; simpl in Hj.
  - injection Hj as ->. pose proof (length_compress mask l). lia.
  - specialize (IH l j Hj). destruct b; simpl; lia.
Qed.

End Duplicates.

Section Transposition.
Context `{NumPy}.

Lemma compress_nil_r {A : Type} (mask : list bool) : compress mask (@nil A) = [].
Proof. by destruct mask as [|[] mask]. Qed.

Lemma tail_drop {A : Type} k (l : list A) : tail (drop k l) = drop (S k) l.
Proof.
  revert l. induction k as [|k IH]; intros [|x l]; try done. apply (IH l).
Qed.

Lemma transpose_lookup n : forall (cols : list (list pyobj)) k,
  transpose n (drop k <$> cols)
  = (fun i => (fun vs => default NaN (vs !! i)) <$> cols) <$> seq k n.
Proof.
  induction n as [|n IH]; intros cols k; simpl; [done|]. f_equal.
  - rewrite <- list_fmap_compose. apply list_fmap_ext. intros i vs _. simpl.
    by rewrite head_lookup, lookup_drop, Nat.add_0_r.
  - rewrite <- IH. f_equal. rewrite <- list_fmap_compose.
    apply list_fmap_ext. intros i vs _. simpl.
    by rewrite tail_drop.
Qed.

Lemma rows_transpose (df : DataFrame) :
  rows df = transpose (nrows df) ((fun cs => values cs.2) <$> data df).
Proof.
  pose proof (transpose_lookup (nrows df) ((fun cs => values cs.2) <$> data df) 0) as Ht.
  rewrite (list_fmap_ext (drop 0) id) in Ht by done. rewrite list_fmap_id in Ht.
  rewrite Ht. unfold rows. apply list_fmap_ext. intros _ i _.
  unfold row. rewrite <- list_fmap_compose. by apply list_fmap_ext.
Qed.

Lemma transpose_compress mask :
  forall (idx : list Z) (cols : list (list pyobj)),
    length idx = length mask ->
    transpose (length (compress mask idx)) (compress mask <$> cols)
    = compress mask (transpose (length mask) cols).
Proof.
  induction mask as [|b mask IH]; intros [|x idx] cols Hlen; try done.
  injection Hlen as Hlen. specialize (IH idx (tail <$> cols) Hlen).
  assert (tail <$> (compress (true :: mask) <$> cols) = compress mask <$> (tail <$> cols))
    as Htrue.
  { rewrite <- !list_fmap_compose. apply list_fmap_ext. intros i [|v vs] _; simpl.
    - by rewrite compress_nil_r.
    - done. }
  assert (compress (false :: mask) <$> cols = compress mask <$> (tail <$> cols))
    as Hfalse.
  { rewrite <- !list_fmap_compose. apply list_fmap_ext. intros i [|v vs] _; simpl.
    - by rewrite compress_nil_r.
    - done. }
  assert ((fun vs => default NaN (head vs)) <$> (compress (true :: mask) <$> cols)
          = (fun vs => default NaN (head vs)) <$> cols) as Hhead.
  { rewrite <- list_fmap_compose. apply list_fmap_ext. by intros i [|v vs] _. }
  destruct b.
  - change (length (compress (true :: mask) (x :: idx)))
      with (S (length (compress mask idx))).
    change (length (true :: mask)) with (S (length mask)).
    cbn [transpose]. rewrite Htrue, Hhead, IH. done.
  - change (length (compress (false :: mask) (x :: idx)))
      with (length (compress mask idx)).
    change (length (false :: mask)) with (S (length mask)).
    cbn [transpose]. rewrite Hfalse, IH. done.
Qed.

(** Selecting rows by a mask selects the same rows of the table read row
    by row. *)
Lemma rows_take_rows mask (df : DataFrame) :
  length mask = nrows df ->
  rows (take_rows mask df) = compress mask (rows df).
Proof.
  intros Hlen. rewrite !rows_transpose. unfold take_rows, nrows in *. simpl.
  rewrite <- Hlen. rewrite <- (transpose_compress mask (index df)) by done. f_equal.
  rewrite <- !list_fmap_compose. by apply list_fmap_ext.
Qed.

End Transposition.

Section Deduplication.
Context `{NumPy}.

Lemma count_same_cons r x rs :
  count_same r (x :: rs) = (if same_row r x then 1 else 0) + count_same r rs.
Proof.
  unfold count_same. rewrite filter_cons.
  destruct (same_row r x); by rewrite ?decide_True, ?decide_False by done.
Qed.

Lemma existsb_same_row_trans r x seen :
  same_row r x = true ->
  existsb (same_row r) seen = existsb (same_row x) seen.
Proof.
  intros Hrx. induction seen as [|y seen IH]; simpl; [done|]. rewrite IH. f_equal.
  destruct (same_row x y) eqn:Hxy.
  - by apply (same_row_trans _ x).
  - destruct (same_row r y) eqn:Hry; [|done]. rewrite <- Hxy. symmetry.
    apply (same_row_trans _ r); [|done]. by rewrite same_row_sym.
Qed.

(** A row that repeats a row seen before does not survive. *)
Lemma count_same_seen rs :
  forall seen r,
    existsb (same_row r) seen = true ->
    count_same r (compress (negb <$> duplicated_from seen rs) rs) = 0.
Proof.
  induction rs as [|x rs IH]; intros seen r Hseen; [done|].
  cbn [duplicated_from fmap list_fmap compress].
  assert (existsb (same_row r) (x :: seen) = true) as Hseen'.
  { simpl. by rewrite Hseen, orb_true_r. }
  destruct (existsb (same_row x) seen) eqn:Hx; simpl.
  - by apply IH.
  - rewrite count_same_cons, (IH _ _ Hseen').
    destruct (same_row r x) eqn:Hrx; [|done].
    rewrite (existsb_same_row_trans _ _ _ Hrx) in Hseen. congruence.
Qed.

(** Of the rows holding the same values, exactly the first survives. *)
Lemma count_same_fresh rs :
  forall seen r,
    existsb (same_row r) seen = false ->
    count_same r (compress (negb <$> duplicated_from seen rs) rs)
    = if existsb (same_row r) rs then 1 else 0.
Proof.
  induction rs as [|x rs IH]; intros seen r Hseen; [done|].
  cbn [duplicated_from fmap list_fmap compress existsb].
  destruct (same_row r x) eqn:Hrx.
  - rewrite <- (existsb_same_row_trans _ _ _ Hrx), Hseen. simpl.
    rewrite count_same_cons, Hrx, count_same_seen; [done|].
    simpl. by rewrite Hrx.
  - simpl. assert (existsb (same_row r) (x :: seen) = false) as Hseen'.
    { simpl. by rewrite Hrx, Hseen. }
    destruct (existsb (same_row x) seen); simpl.
    + by apply IH.
    + rewrite count_same_cons, Hrx. by apply IH.
Qed.

Lemma row_map_cols f (df : DataFrame) i :
  row (map_cols f df) i = (fun cs => cell (f cs.1 cs.2) i) <$> data df.
Proof. unfold row, map_cols. simpl. by rewrite <- list_fmap_compose. Qed.

(** C4, amended.  Take a table with unique labels and two of its rows,
    at positions [i] and [j] with [i] before [j], that hold the same
    cells in every column except one text column, where one of the two
    rows, the earlier or the later, holds the text of the other followed
    by blanks.  Text normalisation followed by deduplication
    ([strip_text_columns], then [remove_duplicates]) makes the two rows
    equal, marks the later row [j] as a duplicate and drops it, and
    leaves exactly one row with these values. *)
Theorem strip_then_deduplicate_merges_rows
        (df : DataFrame) (i j k : nat) (c : string) (s : Series) (a ws : string) :
  NoDup (columns df) ->
  i < j -> j < nrows df ->
  data df !! k = Some (c, s) ->
  dtype_of s = object ->
  (values s !! i = Some (Str a) /\ values s !! j = Some (Str (a ++ ws)%string))
  \/ (values s !! i = Some (Str (a ++ ws)%string) /\ values s !! j = Some (Str a)) ->
  Text.all_chars Text.is_space ws = true ->
  (forall k' c' s', k' <> k -> data df !! k' = Some (c', s') ->
                    values s' !! i = values s' !! j) ->
  exists df1,
    strip_text_columns df = Ok df1
    /\ row df1 i = row df1 j
    /\ duplicated df1 !! j = Some true
    /\ remove_duplicates df1 = take_rows (negb <$> duplicated df1) df1
    /\ nrows (remove_duplicates df1) < nrows df
    /\ count_same (row df1 i) (rows (remove_duplicates df1)) = 1.
Proof.
  intros Hnd Hij Hj Hk Hobj Hcells Hws Hothers.
  eexists. split; [by apply strip_text_columns_unique|].
  set (df1 := map_cols _ df).
  assert (nrows df1 = nrows df) as Hn by done.
  assert (row df1 i = row df1 j) as Hrow.
  { unfold df1. rewrite !row_map_cols. apply list_eq. intros k'.
    rewrite !list_lookup_fmap.
    destruct (data df !! k') as [[c' s']|] eqn:Hk'; [|done]. simpl. f_equal.
    destruct (decide (k' = k)) as [->|Hne].
    - rewrite Hk in Hk'. injection Hk' as <- <-.
      rewrite decide_True by done. unfold cell. simpl.
      destruct Hcells as [[Hi Hjv]|[Hi Hjv]];
        rewrite !list_lookup_fmap, Hi, Hjv; simpl; unfold text_of; simpl;
        by rewrite StripFacts.strip_app_blanks.
    - pose proof (Hothers _ _ _ Hne Hk') as Hsame.
      destruct (decide (dtype_of s' = object)); unfold cell; simpl.
      + by rewrite !list_lookup_fmap, Hsame.
      + by rewrite Hsame. }
  assert (duplicated df1 !! j = Some true) as Hdup.
  { unfold duplicated. apply (duplicated_from_marks _ _ _ (row df1 j)).
    - apply rows_lookup. lia.
    - right. exists i, (row df1 i). split; [done|]. split.
      + apply rows_lookup. lia.
      + rewrite Hrow. apply same_row_refl. }
  assert (remove_duplicates df1 = take_rows (negb <$> duplicated df1) df1) as Hrm.
  { unfold remove_duplicates, drop_duplicates, empty.
    rewrite bool_decide_eq_false_2 by lia.
    rewrite bool_decide_eq_false_2; [done|].
    unfold ncols, df1, map_cols. simpl. rewrite length_fmap.
    apply lookup_lt_Some in Hk. lia. }
  split; [done|]. split; [done|]. split; [done|]. rewrite Hrm. split.
  - unfold nrows, take_rows. simpl. apply (length_compress_lt _ _ j).
    + by rewrite list_lookup_fmap, Hdup.
    + done.
  - rewrite rows_take_rows.
    + unfold duplicated. rewrite count_same_fresh by done.
      assert (existsb (same_row (row df1 i)) (rows df1) = true) as ->; [|done].
      apply existsb_exists. exists (row df1 i). split; [|apply same_row_refl].
      apply list_elem_of_In. eapply list_elem_of_lookup_2. apply rows_lookup. lia.
    + rewrite length_fmap. unfold duplicated.
      by rewrite length_duplicated_from, length_rows.
Qed.

End Deduplication.

Section DeduplicationOnSample.
#[local] Existing Instance Decimal.numpy.

(** The blank on the later row, and the blank on the earlier row. *)
Lemma strip_then_deduplicate_merges_rows_witness :
  (exists df1,
      strip_text_columns Examples.near_duplicates = Ok df1
      /\ row df1 0 = row df1 1
      /\ duplicated df1 !! 1 = Some true
      /\ remove_duplicates df1 = take_rows (negb <$> duplicated df1) df1
      /\ nrows (remove_duplicates df1) < nrows Examples.near_duplicates
      /\ count_same (row df1 0) (rows (remove_duplicates df1)) = 1)
  /\ (exists df1,
         strip_text_columns Examples.near_duplicates_reversed = Ok df1
         /\ row df1 0 = row df1 1
         /\ duplicated df1 !! 1 = Some true
         /\ remove_duplicates df1 = take_rows (negb <$> duplicated df1) df1
         /\ nrows (remove_duplicates df1) < nrows Examples.near_duplicates_reversed
         /\ count_same (row df1 0) (rows (remove_duplicates df1)) = 1).
Proof.
  split.
  - apply (strip_then_deduplicate_merges_rows Examples.near_duplicates 0 1 0
             "customer" (mkSeries object [Str "RB50392"; Str "RB50392 "])
             "RB50392" " ").
    + by_evaluation.
    + lia.
    + unfold nrows, Examples.near_duplicates. simpl. lia.
    + reflexivity.
    + reflexivity.
    + left. split; reflexivity.
    + reflexivity.
    + intros [|[|k']] c' s' Hne Hk'; [done| |done].
      injection Hk' as <- <-. reflexivity.
  - apply (strip_then_deduplicate_merges_rows Examples.near_duplicates_reversed 0 1 0
             "customer" (mkSeries object [Str "RB50392 "; Str "RB50392"])
             "RB50392" " ").
    + by_evaluation.
    + lia.
    + unfold nrows, Examples.near_duplicates_reversed. simpl. lia.
    + reflexivity.
    + reflexivity.
    + right. split; reflexivity.
    + reflexivity.
    + intros [|[|k']] c' s' Hne Hk'; [done| |done].
      injection Hk' as <- <-. reflexivity.
Defined.

(** The same two rows through text normalisation and deduplication. *)
Example strip_then_deduplicate_near_duplicates :
  (strip_text_columns Examples.near_duplicates ≫= fun df => Ok (remove_duplicates df))
  = Ok (mkFrame [0]%Z
          [ ("customer", mkSeries object [Str "rb50392"]);
            ("income", mkSeries numeric [Num (52000 # 1)]) ]).
Proof. by_evaluation. Qed.

(** The same with the blank on the first of the two rows; and the whole
    pipeline, which removes duplicates first, keeps both rows of that
    table as well. *)
Example strip_then_deduplicate_near_duplicates_reversed :
  (strip_text_columns Examples.near_duplicates_reversed
     ≫= fun df => Ok (remove_duplicates df))
  = Ok (mkFrame [0]%Z
          [ ("customer", mkSeries object [Str "rb50392"]);
            ("income", mkSeries numeric [Num (52000 # 1)]) ])
  /\ (nrows <$> clean_data Examples.near_duplicates_reversed) = Ok 2.
Proof. split; by_evaluation. Qed.

End DeduplicationOnSample.

(** ** Tables that are clean already *)

Section AlreadyClean.
Context `{NumPy}.

Lemma compress_all {A : Type} (mask : list bool) (l : list A) :
  forallb id mask = true -> length l <= length mask -> compress mask l = l.
Proof.
  revert l. induction mask as [|b mask IH]; intros [|x l]; simpl; try done; [lia|].
  intros [-> Hm]%andb_true_iff Hlen. simpl. rewrite IH; [done|done|lia].
Qed.

Lemma series_eta (s : Series) : mkSeries (dtype_of s) (values s) = s.
Proof. by destruct s. Qed.

Lemma rectangular_lookup (df : DataFrame) c s :
  rectangular df = true -> (c, s) ∈ data df -> length (values s) = nrows df.
Proof.
  unfold rectangular. intros Hwf Hin.
  rewrite forallb_forall in Hwf. apply list_elem_of_In, Hwf in Hin.
  by apply bool_decide_eq_true_1 in Hin.
Qed.

Lemma wf_frame_rectangular (df : DataFrame) :
  wf_frame df = true -> rectangular df = true.
Proof.
  unfold wf_frame, rectangular. rewrite !forallb_forall. intros Hwf cs Hin.
  specialize (Hwf cs Hin). unfold wf_series in Hwf.
  by apply andb_true_iff in Hwf as [Hlen _].
Qed.

Lemma take_rows_all mask (df : DataFrame) :
  forallb id mask = true -> length mask = nrows df -> rectangular df = true ->
  take_rows mask df = df.
Proof.
  intros Hall Hlen Hwf. transitivity (map_cols (fun _ s => s) df); [|apply map_cols_id].
  unfold take_rows, map_cols. f_equal.
  - apply compress_all; [done|]. unfold nrows in Hlen. lia.
  - apply list_fmap_ext. intros i [c s] Hi. simpl. f_equal.
    rewrite compress_all; [apply series_eta|done|].
    rewrite (rectangular_lookup df c s Hwf); [lia|].
    by eapply list_elem_of_lookup_2.
Qed.

Lemma filter_all {A : Type} (P : A -> Prop) `{forall x, Decision (P x)} (l : list A) :
  (forall x, x ∈ l -> P x) -> filter P l = l.
Proof.
  induction l as [|x l IH]; intros Hl; [done|].
  rewrite filter_cons_True by (apply Hl; left).
  f_equal. apply IH. intros y Hy. apply Hl. by right.
Qed.

Lemma cell_notna (df : DataFrame) c s i :
  rectangular df = true -> no_missing df -> (c, s) ∈ data df -> i < nrows df ->
  notna (cell s i) = true.
Proof.
  intros Hwf Hno Hin Hi. unfold cell.
  destruct (values s !! i) as [v|] eqn:Hv.
  - simpl. apply (Hno c s v Hin). by eapply list_elem_of_lookup_2.
  - apply lookup_ge_None in Hv. rewrite (rectangular_lookup df c s Hwf Hin) in Hv. lia.
Qed.

Lemma dropna_rows_id (df : DataFrame) :
  rectangular df = true -> no_missing df -> (ncols df = 0 -> nrows df = 0) ->
  dropna_rows df = df.
Proof.
  intros Hwf Hno He. unfold dropna_rows. apply take_rows_all; [|by rewrite length_fmap, length_rows|done].
  apply forallb_forall. intros b Hb. apply list_elem_of_In in Hb.
  apply list_elem_of_fmap in Hb as [r [-> Hr]].
  unfold rows in Hr. apply list_elem_of_fmap in Hr as [i [-> Hi]].
  apply elem_of_seq in Hi as [_ Hi]. simpl in Hi.
  unfold row. destruct (data df) as [|[c s] d] eqn:Hd.
  - unfold ncols in He. rewrite Hd in He. simpl in He. lia.
  - simpl. rewrite (cell_notna df c s i); [done|done|done| |done].
    rewrite Hd. left.
Qed.

Lemma dropna_columns_id (df : DataFrame) :
  rectangular df = true -> no_missing df -> (nrows df = 0 -> ncols df = 0) ->
  dropna_columns df = df.
Proof.
  intros Hwf Hno He. unfold dropna_columns. destruct df as [ix d] eqn:Hdf.
  simpl. f_equal. rewrite <- Hdf in *. apply filter_all. intros [c s] Hin. simpl.
  assert ((c, s) ∈ data df) as Hin' by (by rewrite Hdf).
  destruct (values s) as [|v vs] eqn:Hv.
  - pose proof (rectangular_lookup df c s Hwf Hin') as Hlen. rewrite Hv in Hlen.
    simpl in Hlen. symmetry in Hlen. apply He in Hlen.
    unfold ncols in Hlen. rewrite Hdf in Hlen. simpl in Hlen.
    destruct d; [by apply elem_of_nil in Hin|done].
  - simpl. rewrite (Hno c s v Hin'); [done|]. rewrite Hv. left.
Qed.

Lemma drop_duplicates_id (df : DataFrame) :
  rectangular df = true -> forallb negb (duplicated df) = true ->
  drop_duplicates df = df.
Proof.
  intros Hwf Hnodup. unfold drop_duplicates. destruct (empty df); [done|].
  apply take_rows_all; [| |done].
  - apply forallb_forall. intros b Hb. apply list_elem_of_In in Hb.
    apply list_elem_of_fmap in Hb as [b' [-> Hb']].
    rewrite forallb_forall in Hnodup. apply list_elem_of_In in Hb'.
    by rewrite (Hnodup b' Hb').
  - rewrite length_fmap. unfold duplicated.
    by rewrite length_duplicated_from, length_rows.
Qed.

Lemma setitem_same (df : DataFrame) col s :
  NoDup (columns df) -> (col, s) ∈ data df -> setitem df col s = df.
Proof.
  intros Hnd Hin. rewrite setitem_map_cols.
  - transitivity (map_cols (fun _ s0 => s0) df); [|apply map_cols_id].
    apply map_cols_ext. intros c s0 Hin0.
    destruct (decide (c = col)) as [->|]; [|done].
    by apply (unique_series df col).
  - unfold has_column. apply bool_decide_eq_true_2. by eapply elem_of_columns.
Qed.

Lemma on_column_fixed col f (df : DataFrame) :
  NoDup (columns df) ->
  (forall s, (col, s) ∈ data df -> f s = Ok s) ->
  on_column col f df = Ok df.
Proof.
  intros Hnd Hf. destruct (has_column df col) eqn:Hc.
  - apply bool_decide_eq_true_1 in Hc. unfold columns in Hc.
    apply list_elem_of_fmap in Hc as [[c s] [-> Hin]]. simpl.
    rewrite (on_column_unique _ _ _ s Hnd Hin), (Hf s Hin). simpl.
    by rewrite setitem_same.
  - by apply on_column_absent.
Qed.

Lemma fmap_notna_id (f : pyobj -> pyobj) (vs : list pyobj) :
  forallb notna vs = true ->
  (fun v => if isna v then f v else v) <$> vs = vs.
Proof.
  induction vs as [|v vs IH]; [done|]. cbn [forallb].
  intros [Hv Hvs]%andb_true_iff. rewrite fmap_cons, (IH Hvs).
  unfold notna in Hv. apply negb_true_iff in Hv. by rewrite Hv.
Qed.

Lemma filled_id (s : Series) :
  forallb notna (values s) = true -> filled s = s.
Proof.
  intros Hno. unfold filled, fillna.
  assert (existsb isna (values s) = false) as Hex.
  { apply not_true_iff_false. intros [v [Hin Hv]]%existsb_exists.
    rewrite forallb_forall in Hno. specialize (Hno v Hin).
    unfold notna in Hno. by rewrite Hv in Hno. }
  rewrite Hex.
  destruct (is_numeric_dtype s);
    rewrite (fmap_notna_id (fun _ => _) _ Hno);
    destruct s as [[] vs]; done.
Qed.

(** The pipeline returns a table that is clean already as it received
    it. *)
Lemma clean_data_already_clean (df : DataFrame) :
  already_clean df = true -> clean_data df = Ok df.
Proof.
  unfold already_clean. rewrite !andb_true_iff.
  intros [[[[[Hwf Hnd] Hlabels] Hcols] Hempty] Hdup].
  apply bool_decide_eq_true_1 in Hnd, Hempty.
  rewrite forallb_forall in Hlabels. rewrite forallb_forall in Hcols.
  assert (forall c s, (c, s) ∈ data df -> column_settled (c, s) = true) as Hcol.
  { intros c s Hin. by apply Hcols, list_elem_of_In. }
  assert (no_missing df) as Hno.
  { intros c s v Hin Hv. specialize (Hcol c s Hin). unfold column_settled in Hcol.
    rewrite !andb_true_iff in Hcol. destruct Hcol as [[Hna _] _]. simpl in Hna.
    rewrite forallb_forall in Hna. by apply Hna, list_elem_of_In. }
  assert (clean_column_names df = df) as Hnames.
  { transitivity (map_cols (fun _ s => s) df); [|apply map_cols_id].
    unfold clean_column_names, map_cols. f_equal. apply list_fmap_ext.
    intros i [c s] Hi. simpl. f_equal.
    assert (label_settled c = true) as Hc.
    { apply Hlabels, list_elem_of_In. eapply elem_of_columns, list_elem_of_lookup_2, Hi. }
    apply andb_true_iff in Hc as [Hc _]. by apply bool_decide_eq_true_1 in Hc. }
  assert (rename_columns df = df) as Hrename.
  { transitivity (map_cols (fun _ s => s) df); [|apply map_cols_id].
    unfold rename_columns, rename, map_cols. f_equal. apply list_fmap_ext.
    intros i [c s] Hi. simpl. f_equal.
    assert (label_settled c = true) as Hc.
    { apply Hlabels, list_elem_of_In. eapply elem_of_columns, list_elem_of_lookup_2, Hi. }
    apply andb_true_iff in Hc as [_ Hc]. apply bool_decide_eq_true_1 in Hc.
    by rewrite lookup_singleton_ne. }
  assert (remove_empty_rows_columns df = df) as Hrm.
  { unfold remove_empty_rows_columns.
    rewrite dropna_rows_id by (try done; apply Hempty).
    apply dropna_columns_id; try done. apply Hempty. }
  assert (remove_duplicates df = df) as Hdd by by apply drop_duplicates_id.
  assert (strip_text_columns df = Ok df) as Hstrip.
  { rewrite strip_text_columns_unique by done. f_equal.
    transitivity (map_cols (fun _ s => s) df); [|apply map_cols_id].
    apply map_cols_ext. intros c s Hin. specialize (Hcol c s Hin).
    unfold column_settled in Hcol. rewrite !andb_true_iff in Hcol.
    destruct Hcol as [[_ Hd] _]. simpl in Hd.
    destruct (decide (dtype_of s = object)) as [Hobj|]; [|done].
    rewrite Hobj in Hd. apply andb_true_iff in Hd as [Ht _].
    apply bool_decide_eq_true_1 in Ht. rewrite Ht, <- Hobj. apply series_eta. }
  assert (forall c s, (c, s) ∈ data df -> column_pass c s = Ok s) as Hpass.
  { intros c s Hin. specialize (Hcol c s Hin).
    unfold column_settled in Hcol. rewrite !andb_true_iff in Hcol.
    destruct Hcol as [_ Hp]. by apply bool_decide_eq_true_1 in Hp. }
  assert (convert_data_types df = Ok df) as Hconv.
  { rewrite convert_data_types_unique by done. f_equal.
    transitivity (map_cols (fun _ s => s) df); [|apply map_cols_id].
    apply map_cols_ext. intros c s Hin. specialize (Hcol c s Hin).
    unfold column_settled in Hcol. rewrite !andb_true_iff in Hcol.
    destruct Hcol as [[_ Hd] _]. simpl in Hd.
    destruct s as [[] vs]; simpl in *; [|done|done].
    apply andb_true_iff in Hd as [_ Hc]. by apply bool_decide_eq_true_1 in Hc. }
  assert (handle_missing_values df = Ok df) as Hfill.
  { rewrite handle_missing_values_unique by done. f_equal.
    transitivity (map_cols (fun _ s => s) df); [|apply map_cols_id].
    apply map_cols_ext. intros c s Hin. apply filled_id.
    apply forallb_forall. intros v Hv. apply (Hno c s v Hin). by apply list_elem_of_In. }
  unfold clean_data. rewrite Hnames, Hrename, Hrm, Hdd, Hstrip. simpl.
  rewrite clean_gender_on_column, on_column_fixed; [simpl| done |by apply (Hpass "gender")].
  rewrite clean_education_on_column, on_column_fixed;
    [simpl| done |by apply (Hpass "education")].
  rewrite clean_state_names_on_column, on_column_fixed;
    [simpl| done |by apply (Hpass "state")].
  rewrite cap_monthly_premium_auto_on_column, on_column_fixed;
    [simpl| done |by apply (Hpass "monthly_premium_auto")].
  rewrite clean_policy_type_on_column, on_column_fixed;
    [simpl| done |by apply (Hpass "policy_type")].
  rewrite clean_customer_lifetime_value_on_column, on_column_fixed;
    [simpl| done |by apply (Hpass "customer_lifetime_value")].
  by rewrite Hconv.
Qed.

End AlreadyClean.

(** ** Normalising text or a label twice *)

Module TwiceFacts.
Import Text Label LabelFacts StripFacts.

Lemma lower_char_twice c : lower_char (lower_char c) = lower_char c.
Proof. by_cases_on c. Qed.

Lemma is_space_lower_char c : is_space (lower_char c) = is_space c.
Proof. by_cases_on c. Qed.

Lemma label_char_not_space c :
  is_lower_alnum c || Ascii.eqb c "_" = true -> is_space c = false.
Proof. by_cases_on c. Qed.

Lemma label_char_lower c :
  is_lower_alnum c || Ascii.eqb c "_" = true -> lower_char c = c.
Proof. by_cases_on c. Qed.

Lemma lower_twice (s : string) : lower (lower s) = lower s.
Proof.
  unfold lower. induction s as [|c s IH]; simpl; [done|].
  by rewrite lower_char_twice, IH.
Qed.

Lemma lstrip_with_head p (s : string) : head_sat p (lstrip_with p s) = false.
Proof.
  induction s as [|c s IH]; [done|]. cbn [lstrip_with].
  destruct (p c) eqn:Hc; [done|]. done.
Qed.

Lemma lstrip_with_id p (s : string) : head_sat p s = false -> lstrip_with p s = s.
Proof. destruct s as [|c s]; simpl; [done|]. by intros ->. Qed.

Lemma rstrip_with_head_sat p (s : string) :
  head_sat p s = false -> head_sat p (rstrip_with p s) = false.
Proof.
  destruct (rstrip_with p s) as [|d r] eqn:Hr; [done|].
  apply rstrip_with_head in Hr as [s' ->]. done.
Qed.

Lemma rstrip_with_twice p (s : string) :
  rstrip_with p (rstrip_with p s) = rstrip_with p s.
Proof.
  induction s as [|c s IH]; [done|]. cbn [rstrip_with].
  destruct (rstrip_with p s) as [|d r] eqn:Hr.
  - destruct (p c) eqn:Hc; [done|]. simpl. by rewrite Hc.
  - cbn [rstrip_with]. cbn [rstrip_with] in IH. by rewrite IH.
Qed.

Lemma strip_with_twice p (s : string) :
  strip_with p (strip_with p s) = strip_with p s.
Proof.
  unfold strip_with. rewrite (lstrip_with_id p (rstrip_with p (lstrip_with p s))).
  - apply rstrip_with_twice.
  - apply rstrip_with_head_sat, lstrip_with_head.
Qed.

Lemma lstrip_with_map_chars p f (s : string) :
  (forall c, p (f c) = p c) ->
  lstrip_with p (map_chars f s) = map_chars f (lstrip_with p s).
Proof.
  intros Hpf. induction s as [|c s IH]; [done|]. cbn [map_chars lstrip_with].
  rewrite Hpf. by destruct (p c).
Qed.

Lemma rstrip_with_map_chars p f (s : string) :
  (forall c, p (f c) = p c) ->
  rstrip_with p (map_chars f s) = map_chars f (rstrip_with p s).
Proof.
  intros Hpf. induction s as [|c s IH]; [done|]. cbn [map_chars rstrip_with].
  rewrite IH, Hpf. destruct (rstrip_with p s); [by destruct (p c)|done].
Qed.

Lemma strip_lower (s : string) : strip (lower s) = lower (strip s).
Proof.
  unfold strip, strip_with, lower.
  rewrite lstrip_with_map_chars, rstrip_with_map_chars; auto using is_space_lower_char.
Qed.

(** Trimmed lowercase text is its own trimmed lowercase form. *)
Lemma lower_strip_twice (s : string) :
  lower (strip (lower (strip s))) = lower (strip s).
Proof.
  rewrite strip_lower, lower_twice. unfold strip. by rewrite strip_with_twice.
Qed.

(** *** Labels *)

Lemma tidy_all_chars (w : string) :
  tidy w = true -> all_chars (fun c => is_lower_alnum c || Ascii.eqb c "_") w = true.
Proof.
  induction w as [|c w IH]; [done|]. cbn [tidy all_chars].
  intros [Hc Hw]%andb_true_iff. rewrite (IH Hw), andb_true_r.
  apply orb_true_iff in Hc as [->|[-> _]%andb_true_iff]; [done|apply orb_true_r].
Qed.

Lemma lstrip_with_none p (s : string) :
  all_chars (fun c => negb (p c)) s = true -> lstrip_with p s = s.
Proof.
  destruct s as [|c s]; simpl; [done|]. intros [Hc _]%andb_true_iff.
  apply negb_true_iff in Hc. by rewrite Hc.
Qed.

Lemma rstrip_with_none p (s : string) :
  all_chars (fun c => negb (p c)) s = true -> rstrip_with p s = s.
Proof.
  induction s as [|c s IH]; [done|]. cbn [all_chars rstrip_with].
  intros [Hc Hs]%andb_true_iff. rewrite (IH Hs).
  apply negb_true_iff in Hc. rewrite Hc. by destruct s.
Qed.

Lemma all_chars_impl (p q : ascii -> bool) (s : string) :
  (forall c, p c = true -> q c = true) ->
  all_chars p s = true -> all_chars q s = true.
Proof.
  intros Hpq. induction s as [|c s IH]; [done|]. cbn [all_chars].
  intros [Hc Hs]%andb_true_iff. by rewrite (Hpq c Hc), (IH Hs).
Qed.

Lemma map_chars_id f (s : string) :
  all_chars (fun c => bool_decide (f c = c)) s = true -> map_chars f s = s.
Proof.
  induction s as [|c s IH]; [done|]. cbn [all_chars map_chars].
  intros [Hc Hs]%andb_true_iff. apply bool_decide_eq_true_1 in Hc.
  by rewrite Hc, (IH Hs).
Qed.

Lemma sub_runs_from_tidy (cls : ascii -> bool) (w : string) :
  cls "_"%char = true ->
  (forall c, is_lower_alnum c = true -> cls c = false) ->
  tidy w = true ->
  forall b, (b = true -> head_underscore w = false) ->
            sub_runs_from cls "_" b w = w.
Proof.
  intros Hus Halnum. induction w as [|c w IH]; [done|]. cbn [tidy sub_runs_from].
  intros [Hc Hw]%andb_true_iff b Hb. specialize (IH Hw).
  destruct (is_lower_alnum c) eqn:Hal.
  - rewrite (Halnum c Hal). by rewrite (IH false).
  - simpl in Hc. apply andb_true_iff in Hc as [Hc Hhead].
    apply Ascii.eqb_eq in Hc as ->. rewrite Hus.
    destruct b; [by specialize (Hb eq_refl)|].
    rewrite append_one, (IH true); [done|]. intros _.
    destruct w as [|d w]; [done|]. simpl in *. by apply alnum_not_underscore.
Qed.

Lemma rstrip_underscore_tidy_id (w : string) :
  tidy w = true -> rstrip_with (fun c => mem_char c "_") w = w.
Proof.
  induction w as [|c w IH]; [done|]. cbn [tidy rstrip_with].
  intros [Hc Hw]%andb_true_iff. rewrite (IH Hw).
  destruct w as [|d w]; [|done]. simpl in Hc.
  rewrite andb_false_r, orb_false_r in Hc.
  by rewrite mem_char_underscore, (alnum_not_underscore c Hc).
Qed.

(** A tidy label without leading underscore is its own normal form. *)
Lemma clean_name_tidy_id (w : string) :
  tidy w = true -> head_underscore w = false -> clean_name w = w.
Proof.
  intros Ht Hh. unfold clean_name.
  pose proof (tidy_all_chars w Ht) as Hall.
  assert (all_chars (fun c => negb (is_space c)) w = true) as Hns.
  { apply (all_chars_impl (fun c => is_lower_alnum c || Ascii.eqb c "_")); [|done].
    intros c Hc. by rewrite (label_char_not_space c Hc). }
  assert (strip w = w) as ->.
  { unfold strip, strip_with. by rewrite lstrip_with_none, rstrip_with_none. }
  assert (lower w = w) as ->.
  { apply map_chars_id.
    apply (all_chars_impl (fun c => is_lower_alnum c || Ascii.eqb c "_")); [|done].
    intros c Hc. apply bool_decide_eq_true_2. by apply label_char_lower. }
  assert (sub_runs_from (fun c => negb (is_lower_alnum c)) "_" false w = w) as H1.
  { apply sub_runs_from_tidy; try done. intros c Hc. by rewrite Hc. }
  assert (sub_runs_from (Ascii.eqb "_") "_" false w = w) as H2.
  { apply sub_runs_from_tidy; try done.
    intros c Hc. rewrite Ascii.eqb_sym. by apply alnum_not_underscore. }
  unfold sub_runs. rewrite H1, H2.
  unfold strip_chars, strip_with. rewrite lstrip_with_id.
  - by apply rstrip_underscore_tidy_id.
  - destruct w as [|c w]; [done|]. cbn [head_sat head_underscore] in *.
    by rewrite mem_char_underscore.
Qed.

Lemma clean_name_twice (name : string) : clean_name (clean_name name) = clean_name name.
Proof. destruct (clean_name_tidy name). by apply clean_name_tidy_id. Qed.

End TwiceFacts.

(** ** What a successful run tells about the table *)

Section FirstRun.
Context `{NumPy}.

(** *** Labels are unique once [convert_data_types] has returned *)

Lemma filter_columns_length (d : DataFrame) col :
  length (filter (fun c => c = col) (columns d)) = length (select col d).
Proof.
  unfold columns, select. induction (data d) as [|[c s] l IH]; [done|].
  rewrite !fmap_cons, !filter_cons. simpl.
  destruct (decide (c = col)); csimpl; by rewrite IH.
Qed.

Lemma getitem_count (d : DataFrame) col s :
  getitem d col = Ok s -> length (filter (fun c => c = col) (columns d)) = 1.
Proof.
  intros Hg%getitem_Ok_select. by rewrite filter_columns_length, Hg.
Qed.

Lemma NoDup_count (l : list string) :
  (forall c, c ∈ l -> length (filter (fun x => x = c) l) = 1) -> NoDup l.
Proof.
  induction l as [|x l IH]; intros Hcount; [constructor|].
  assert (x ∉ l) as Hx.
  { pose proof (Hcount x (list_elem_of_here x l)) as Hc.
    rewrite filter_cons_True in Hc by done. simpl in Hc.
    intros Hin. eapply (filter_nil_not_elem_of (fun y => y = x)); [|reflexivity|exact Hin].
    apply nil_length_inv. lia. }
  constructor; [done|]. apply IH. intros c Hc.
  specialize (Hcount c (list_elem_of_further _ x _ Hc)).
  rewrite filter_cons_False in Hcount; [done|]. intros ->. done.
Qed.

Lemma for_each_columns_count (body : DataFrame -> string -> outcome DataFrame) :
  (forall d col d', body d col = Ok d' ->
                    (exists s, getitem d col = Ok s) /\ columns d' = columns d) ->
  forall ls (d d' : DataFrame),
    for_each ls body d = Ok d' ->
    forall col, col ∈ ls -> length (filter (fun c => c = col) (columns d)) = 1.
Proof.
  intros Hbody ls. induction ls as [|x ls IH]; intros d d' Hfe col Hcol.
  - by apply elem_of_nil in Hcol.
  - simpl in Hfe. destruct (body d x) as [d1|e] eqn:Hb; simpl in Hfe; [|done].
    destruct (Hbody _ _ _ Hb) as [[s Hg] Hcols].
    apply elem_of_cons in Hcol as [->|Hcol].
    + by eapply getitem_count.
    + rewrite <- Hcols. by eapply IH.
Qed.

Lemma convert_data_types_unique_labels (d d' : DataFrame) :
  convert_data_types d = Ok d' -> NoDup (columns d).
Proof.
  intros Hc. apply NoDup_count. intros c Hin.
  eapply (for_each_columns_count _ _ (columns d) d d' Hc c Hin).
  Unshelve.
  intros d0 col d1 Hb. simpl in Hb.
  destruct (getitem d0 col) as [s|e] eqn:Hg; simpl in Hb; [|done].
  split; [by exists s|].
  pose proof (getitem_Ok_has_column _ _ _ Hg) as Hhas.
  erewrite getitem_setitem_eq in Hb by done. simpl in Hb.
  destruct (decide (dtype_of (to_numeric_ignore s) = object)).
  - injection Hb as <-. by rewrite setitem_setitem, columns_setitem.
  - injection Hb as <-. by rewrite columns_setitem.
Qed.

(** *** Column by column *)

Lemma columnwise_columns R (d d' : DataFrame) :
  columnwise R d d' -> columns d' = columns d.
Proof.
  intros [_ Hcols]. unfold columns.
  induction Hcols as [|cs cs' l l' [Hc _] _ IH]; [done|].
  by rewrite !fmap_cons, Hc, IH.
Qed.

Lemma columnwise_map_cols f (d : DataFrame) :
  columnwise (fun c s s' => s' = f c s) d (map_cols f d).
Proof.
  split; [done|]. unfold map_cols. simpl. apply Forall2_fmap_r.
  apply Forall_Forall2_diag, Forall_forall. by intros [c s] _.
Qed.

Lemma Forall2_impl_elem_of {A B : Type} (P Q : A -> B -> Prop) (l : list A) (k : list B) :
  Forall2 P l k -> (forall x y, x ∈ l -> P x y -> Q x y) -> Forall2 Q l k.
Proof.
  induction 1 as [|x y l k Hxy _ IH]; intros Himpl; constructor.
  - apply Himpl; [left|done].
  - apply IH. intros x' y' Hin. apply Himpl. by right.
Qed.

Lemma columnwise_impl (R R' : string -> Series -> Series -> Prop) (d d' : DataFrame) :
  (forall c s s', (c, s) ∈ data d -> R c s s' -> R' c s s') ->
  columnwise R d d' -> columnwise R' d d'.
Proof.
  intros Himpl [Hi Hcols]. split; [done|].
  eapply Forall2_impl_elem_of; [exact Hcols|].
  intros [c s] [c' s'] Hin [Hc HR]. split; [done|]. by apply Himpl.
Qed.

Lemma columnwise_compose R1 R2 (d d' d'' : DataFrame) :
  columnwise R1 d d' -> columnwise R2 d' d'' ->
  columnwise (fun c s s'' => exists s', R1 c s s' /\ R2 c s' s'') d d''.
Proof.
  intros [Hi1 H1] [Hi2 H2]. split; [congruence|].
  revert H2. generalize (data d''). induction H1 as [|cs cs' l l' [Hc HR] _ IH].
  - intros l'' Hl''. inversion Hl''. constructor.
  - intros l'' Hl''. inversion Hl'' as [|? cs'' ? l''0 [Hc' HR'] Hrest]; subst.
    constructor; [|by apply IH].
    split; [congruence|]. exists cs'.2. split; [done|]. by rewrite <- Hc.
Qed.

Lemma columnwise_on_column col f (d d' : DataFrame) :
  NoDup (columns d) ->
  on_column col f d = Ok d' ->
  columnwise (fun c s s' => if decide (c = col) then f s = Ok s' else s' = s) d d'.
Proof.
  intros Hnd Hon.
  apply on_column_inv in Hon as [[Hc ->]|(s & s' & Hc & Hg & Hf & ->)].
  - apply (columnwise_impl (fun c s s' => s' = (fun _ s => s) c s)).
    + intros c s s' Hin ->. rewrite decide_False; [done|]. intros ->.
      apply bool_decide_eq_false_1 in Hc. apply Hc. by eapply elem_of_columns.
    + rewrite <- (map_cols_id d) at 2. apply columnwise_map_cols.
  - rewrite setitem_map_cols by done.
    eapply columnwise_impl; [|apply columnwise_map_cols].
    intros c s0 s1 Hin ->. simpl. destruct (decide (c = col)) as [->|]; [|done].
    by rewrite (getitem_elem_of _ _ _ _ Hg Hin).
Qed.

End FirstRun.

Section FirstRunColumns.
Context `{NumPy}.

Lemma on_column_columns col f (d d' : DataFrame) :
  on_column col f d = Ok d' -> columns d' = columns d.
Proof. intros Hon. apply on_column_frame in Hon. tauto. Qed.

(** The table returned by [clean_data] is, column by column, a function
    of the table that enters [strip_text_columns]. *)
Lemma first_run_columns (df out : DataFrame) :
  clean_data df = Ok out ->
  let d := remove_duplicates
             (remove_empty_rows_columns (rename_columns (clean_column_names df))) in
  NoDup (columns d)
  /\ columnwise (fun c s o => exists s', column_pass c (textified s) = Ok s'
                                         /\ o = filled (converted s')) d out.
Proof.
  unfold clean_data. intros Hrun.
  set (d := remove_duplicates _) in *.
  destruct (strip_text_columns d) as [d1|] eqn:H1; simpl in Hrun; [|done].
  destruct (clean_gender d1) as [d2|] eqn:H2; simpl in Hrun; [|done].
  destruct (clean_education d2) as [d3|] eqn:H3; simpl in Hrun; [|done].
  destruct (clean_state_names d3) as [d4|] eqn:H4; simpl in Hrun; [|done].
  destruct (cap_monthly_premium_auto d4 default_cap) as [d5|] eqn:H5;
    simpl in Hrun; [|done].
  destruct (clean_policy_type d5) as [d6|] eqn:H6; simpl in Hrun; [|done].
  destruct (clean_customer_lifetime_value d6) as [d7|] eqn:H7; simpl in Hrun; [|done].
  destruct (convert_data_types d7) as [d8|] eqn:H8; simpl in Hrun; [|done].
  rewrite clean_gender_on_column in H2.
  rewrite clean_education_on_column in H3.
  rewrite clean_state_names_on_column in H4.
  rewrite cap_monthly_premium_auto_on_column in H5.
  rewrite clean_policy_type_on_column in H6.
  rewrite clean_customer_lifetime_value_on_column in H7.
  pose proof (convert_data_types_unique_labels _ _ H8) as Hnd7.
  pose proof (on_column_columns _ _ _ _ H7) as E7.
  pose proof (on_column_columns _ _ _ _ H6) as E6.
  pose proof (on_column_columns _ _ _ _ H5) as E5.
  pose proof (on_column_columns _ _ _ _ H4) as E4.
  pose proof (on_column_columns _ _ _ _ H3) as E3.
  pose proof (on_column_columns _ _ _ _ H2) as E2.
  destruct (strip_text_columns_keeps _ _ H1) as [_ E1].
  assert (NoDup (columns d6)) as Hnd6 by congruence.
  assert (NoDup (columns d5)) as Hnd5 by congruence.
  assert (NoDup (columns d4)) as Hnd4 by congruence.
  assert (NoDup (columns d3)) as Hnd3 by congruence.
  assert (NoDup (columns d2)) as Hnd2 by congruence.
  assert (NoDup (columns d1)) as Hnd1 by congruence.
  assert (NoDup (columns d)) as Hnd by congruence.
  split; [done|].
  rewrite strip_text_columns_unique in H1 by done. injection H1 as <-.
  rewrite convert_data_types_unique in H8 by done. injection H8 as <-.
  rewrite handle_missing_values_unique in Hrun
    by (by rewrite columns_map_cols). injection Hrun as <-.
  pose proof (columnwise_map_cols
                (fun _ s => if decide (dtype_of s = object)
                            then mkSeries object (text_of <$> values s) else s) d) as C1.
  pose proof (columnwise_on_column _ _ _ _ Hnd1 H2) as C2.
  pose proof (columnwise_on_column _ _ _ _ Hnd2 H3) as C3.
  pose proof (columnwise_on_column _ _ _ _ Hnd3 H4) as C4.
  pose proof (columnwise_on_column _ _ _ _ Hnd4 H5) as C5.
  pose proof (columnwise_on_column _ _ _ _ Hnd5 H6) as C6.
  pose proof (columnwise_on_column _ _ _ _ Hnd6 H7) as C7.
  pose proof (columnwise_map_cols (fun _ s => converted s) d7) as C8.
  pose proof (columnwise_map_cols (fun _ s => filled s)
                (map_cols (fun _ s => converted s) d7)) as C9.
  pose proof (columnwise_compose _ _ _ _ _ C1 C2) as K2.
  pose proof (columnwise_compose _ _ _ _ _ K2 C3) as K3.
  pose proof (columnwise_compose _ _ _ _ _ K3 C4) as K4.
  pose proof (columnwise_compose _ _ _ _ _ K4 C5) as K5.
  pose proof (columnwise_compose _ _ _ _ _ K5 C6) as K6.
  pose proof (columnwise_compose _ _ _ _ _ K6 C7) as K7.
  pose proof (columnwise_compose _ _ _ _ _ K7 C8) as K8.
  pose proof (columnwise_compose _ _ _ _ _ K8 C9) as K9.
  eapply columnwise_impl; [|exact K9]. clear.
  intros c s o _
    (s8 & (s7 & (s6 & (s5 & (s4 & (s3 & (s2 & (s1 & -> & G2) & G3) & G4) & G5)
                        & G6) & G7) & ->) & ->).
  exists s7. split; [|done]. unfold column_pass, textified.
  repeat case_decide; simplify_eq; done.
Qed.

End FirstRunColumns.

(** ** Shape of the table that enters the cell-level stages *)

Section Structure.
Context `{NumPy}.

Lemma wf_frame_iff (df : DataFrame) :
  wf_frame df = true
  <-> forall c s, (c, s) ∈ data df -> wf_series (nrows df) s = true.
Proof.
  unfold wf_frame. rewrite forallb_forall. split.
  - intros Hwf c s Hin. by apply (Hwf (c, s)), list_elem_of_In.
  - intros Hwf [c s] Hin. by apply (Hwf c s), list_elem_of_In.
Qed.

Lemma length_compress_eq {A B : Type} (mask : list bool) (l : list A) (k : list B) :
  length l = length k -> length (compress mask l) = length (compress mask k).
Proof.
  revert l k. induction mask as [|b mask IH]; intros [|x l] [|y k] Hlen;
    simpl in *; try done.
  injection Hlen as Hlen. specialize (IH l k Hlen). destruct b; simpl; lia.
Qed.

Lemma elem_of_compress {A : Type} (mask : list bool) (l : list A) x :
  x ∈ compress mask l -> x ∈ l.
Proof.
  revert l. induction mask as [|b mask IH]; intros [|y l]; simpl; try done.
  - intros Hx. by apply elem_of_nil in Hx.
  - destruct b.
    + intros [->|Hx]%elem_of_cons; [left|right; by apply IH].
    + intros Hx. right. by apply IH.
Qed.

Lemma wf_frame_relabel (f : string -> string) (df : DataFrame) :
  wf_frame df = true ->
  wf_frame (mkFrame (index df) ((fun cs => (f cs.1, cs.2)) <$> data df)) = true.
Proof.
  rewrite !wf_frame_iff. intros Hwf c s Hin. simpl in Hin.
  apply list_elem_of_fmap in Hin as [[c0 s0] [[= -> ->] Hin]]. by apply (Hwf c0).
Qed.

Lemma wf_frame_take_rows mask (df : DataFrame) :
  wf_frame df = true -> wf_frame (take_rows mask df) = true.
Proof.
  rewrite !wf_frame_iff. intros Hwf c s Hin. unfold take_rows in Hin. simpl in Hin.
  apply list_elem_of_fmap in Hin as [[c0 s0] [[= -> ->] Hin]].
  specialize (Hwf c0 s0 Hin). unfold wf_series in *. simpl.
  apply andb_true_iff in Hwf as [Hlen Hfits]. apply bool_decide_eq_true_1 in Hlen.
  apply andb_true_iff. split.
  - apply bool_decide_eq_true_2. unfold nrows. simpl. by apply length_compress_eq.
  - rewrite forallb_forall in Hfits. apply forallb_forall. intros v Hv.
    apply Hfits. apply list_elem_of_In. apply list_elem_of_In in Hv.
    by eapply elem_of_compress.
Qed.

Lemma wf_frame_dropna_columns (df : DataFrame) :
  wf_frame df = true -> wf_frame (dropna_columns df) = true.
Proof.
  rewrite !wf_frame_iff. intros Hwf c s Hin. unfold dropna_columns in Hin.
  simpl in Hin. apply list_elem_of_filter in Hin as [_ Hin]. by apply Hwf in Hin.
Qed.

Lemma wf_frame_labels (df : DataFrame) :
  wf_frame df = true -> wf_frame (rename_columns (clean_column_names df)) = true.
Proof.
  intros Hwf. unfold rename_columns, rename.
  apply (wf_frame_relabel
           (fun c => default c (({[ "st" := "state" ]} : gmap string string) !! c))
           (clean_column_names df)).
  unfold clean_column_names. by apply (wf_frame_relabel Text.clean_name).
Qed.

(** The structural stages keep a well-formed table well formed. *)
Lemma wf_frame_structural (df : DataFrame) :
  wf_frame df = true ->
  wf_frame (remove_duplicates
              (remove_empty_rows_columns (rename_columns (clean_column_names df))))
  = true.
Proof.
  intros Hwf. unfold remove_duplicates, drop_duplicates.
  assert (wf_frame (remove_empty_rows_columns
                      (rename_columns (clean_column_names df))) = true) as Hwf'.
  { unfold remove_empty_rows_columns, dropna_rows.
    by apply wf_frame_dropna_columns, wf_frame_take_rows, wf_frame_labels. }
  destruct (empty _); [done|]. by apply wf_frame_take_rows.
Qed.

(** *** No rows exactly when no columns *)

Lemma compress_fmap_true {A : Type} (f : A -> bool) (l : list A) x :
  x ∈ compress (f <$> l) l -> f x = true.
Proof.
  induction l as [|y l IH]; simpl.
  - intros Hx. by apply elem_of_nil in Hx.
  - destruct (f y) eqn:Hy.
    + intros [->|Hx]%elem_of_cons; [done|by apply IH].
    + apply IH.
Qed.

Lemma dropna_columns_empty (d : DataFrame) :
  wf_frame d = true ->
  (forall i, i < nrows d -> existsb notna (row d i) = true) ->
  nrows (dropna_columns d) = 0 <-> ncols (dropna_columns d) = 0.
Proof.
  intros Hwf Hrows. unfold dropna_columns, ncols. unfold nrows at 1. simpl. split.
  - intros Hn. apply length_zero_iff_nil. apply filter_none. intros [c s] Hin Hex.
    simpl in Hex. rewrite wf_frame_iff in Hwf. specialize (Hwf c s Hin).
    unfold wf_series in Hwf. apply andb_true_iff in Hwf as [Hlen _].
    apply bool_decide_eq_true_1 in Hlen. unfold nrows in Hlen. rewrite Hn in Hlen.
    apply nil_length_inv in Hlen. by rewrite Hlen in Hex.
  - intros Hc. destruct (index d) as [|x ix] eqn:Hix; [done|]. exfalso.
    assert (0 < nrows d) as Hpos by (unfold nrows; rewrite Hix; simpl; lia).
    pose proof (Hrows 0 Hpos) as Hex.
    apply existsb_exists in Hex as [v [Hv Hna]]. unfold row in Hv.
    apply list_elem_of_In, list_elem_of_fmap in Hv as [[c s] [-> Hin]].
    apply length_zero_iff_nil in Hc.
    eapply (filter_nil_not_elem_of _ _ (c, s)); [exact Hc| |exact Hin].
    simpl. unfold cell in Hna. simpl in Hna.
    destruct (values s !! 0) as [v|] eqn:Hv0; [|done]. simpl in Hna.
    apply existsb_exists. exists v. split; [|done].
    apply list_elem_of_In. by eapply list_elem_of_lookup_2.
Qed.

Lemma remove_empty_rows_columns_empty (df : DataFrame) :
  wf_frame df = true ->
  nrows (remove_empty_rows_columns df) = 0 <-> ncols (remove_empty_rows_columns df) = 0.
Proof.
  intros Hwf. unfold remove_empty_rows_columns.
  apply dropna_columns_empty; [by apply wf_frame_take_rows|].
  intros i Hi. apply (compress_fmap_true _ (rows df)).
  pose proof (rows_lookup _ i Hi) as Hrow. unfold dropna_rows in Hrow at 1.
  rewrite rows_take_rows in Hrow by (by rewrite length_fmap, length_rows).
  by eapply list_elem_of_lookup_2.
Qed.

Lemma drop_duplicates_empty (df : DataFrame) :
  nrows (drop_duplicates df) = 0 <-> nrows df = 0.
Proof.
  unfold drop_duplicates. destruct (empty df); [done|].
  unfold nrows, take_rows, duplicated. simpl.
  pose proof (length_rows df) as Hlen. unfold nrows in Hlen.
  destruct (index df) as [|x ix], (rows df) as [|r rs]; simpl in *; try done.
Qed.

Lemma structural_empty (df : DataFrame) :
  wf_frame df = true ->
  let d := remove_duplicates
             (remove_empty_rows_columns (rename_columns (clean_column_names df))) in
  nrows d = 0 <-> ncols d = 0.
Proof.
  intros Hwf d. unfold d.
  destruct (remove_duplicates_shape
              (remove_empty_rows_columns (rename_columns (clean_column_names df))))
    as [_ ->].
  unfold remove_duplicates. rewrite drop_duplicates_empty.
  by apply remove_empty_rows_columns_empty, wf_frame_labels.
Qed.

End Structure.

(** ** The mapping tables *)

Section Mappings.
Context `{NumPy}.

Lemma replace_empty (s : Series) : replace ∅ s = s.
Proof.
  destruct s as [d vs]. unfold replace, map_values. simpl. f_equal.
  transitivity (id <$> vs); [|apply list_fmap_id]. apply list_fmap_ext.
  intros i v _. by destruct v.
Qed.

Lemma column_pass_map c (s : Series) :
  c <> "monthly_premium_auto" -> c <> "customer_lifetime_value" ->
  column_pass c s = Ok (replace (column_map c) s).
Proof.
  intros Hcap Hclv. unfold column_pass, column_map.
  repeat case_decide; try done. by rewrite replace_empty.
Qed.

Ltac lookup_cases E :=
  repeat (apply lookup_insert_Some in E as [[<- <-]|[_ E]]; [by vm_compute|]);
  try (apply lookup_singleton_Some in E as [<- <-]; by vm_compute);
  try (by rewrite lookup_empty in E).

(** The values of a mapping are trimmed lowercase text and are not
    mapped any further. *)
Lemma column_map_fixed c (x : string) :
  trimmed_lower x ->
  trimmed_lower (default x (column_map c !! x))
  /\ default (default x (column_map c !! x))
       (column_map c !! default x (column_map c !! x))
     = default x (column_map c !! x).
Proof.
  intros Hx. destruct (column_map c !! x) as [y|] eqn:E; simpl.
  - clear Hx. unfold column_map in *.
    repeat case_decide;
      unfold gender_mapping, education_mapping, state_mapping, policy_mapping in *;
      lookup_cases E.
  - by rewrite E.
Qed.

Lemma column_map_unknown c : column_map c !! "unknown" = None.
Proof. unfold column_map. repeat case_decide; by vm_compute. Qed.

End Mappings.

(** ** One column through coercion and filling *)

Section ColumnKinds.
Context `{NumPy}.

Lemma filled_notna (x : Series) : forallb notna (values (filled x)) = true.
Proof.
  rewrite values_filled. apply forallb_forall. intros v Hv.
  apply list_elem_of_In, list_elem_of_fmap in Hv as [w [-> _]].
  destruct (isna w) eqn:Hw; [by destruct (is_numeric_dtype x)|].
  unfold notna. by rewrite Hw.
Qed.

Lemma text_cells_notna Q (s : Series) :
  text_cells Q s -> forallb notna (values s) = true.
Proof.
  intros [_ Hcells]. apply forallb_forall. intros v Hv.
  apply list_elem_of_In, Hcells in Hv as (y & -> & _). done.
Qed.

Lemma fmap_fixed {A : Type} (f : A -> A) (l : list A) :
  (forall x, x ∈ l -> f x = x) -> f <$> l = l.
Proof.
  intros Hf. transitivity (id <$> l); [|apply list_fmap_id].
  apply list_fmap_ext. intros i x Hi. apply Hf. by eapply list_elem_of_lookup_2.
Qed.

Lemma existsb_true {A : Type} (f : A -> bool) (l : list A) x :
  x ∈ l -> f x = true -> existsb f l = true.
Proof. intros Hin Hf. apply existsb_exists. exists x. by rewrite <- list_elem_of_In. Qed.

(** A text column either stays text, and is then left alone by a second
    coercion, or becomes numeric. *)
Lemma converted_text_cells (Q : string -> Prop) (s' : Series) :
  text_cells Q s' -> Q "unknown" ->
  to_numeric_str "unknown" = Unparsed -> to_datetime_str "unknown" = Unparsed ->
  dtype_of (filled (converted s')) <> datetime64 ->
  (forall t, Time t ∉ values (filled (converted s'))) ->
  (text_cells Q (filled (converted s'))
   /\ converted (filled (converted s')) = filled (converted s'))
  \/ num_cells (fun _ => True) (filled (converted s')).
Proof.
  intros Htext Hunknown Hnum Hdt Hnodt Hnotime.
  pose proof (text_cells_notna _ _ Htext) as Hnotna.
  destruct Htext as [Hobj Hcells]. destruct s' as [d vs]. simpl in *. subst d.
  unfold converted in *. unfold to_numeric_ignore in *. simpl in *.
  destruct (existsb (fun v => is_unparsed (to_numeric_obj v)) vs) eqn:Un; simpl in *.
  - unfold to_datetime_ignore in *. simpl in *.
    destruct (existsb (fun v => is_unparsed (to_datetime_obj v)) vs
              || negb (one_format (texts (mkSeries object vs)))) eqn:Ud.
    + left. rewrite filled_id by done. split; [by split|].
      unfold to_numeric_ignore. simpl. rewrite Un. simpl.
      unfold to_datetime_ignore. simpl. by rewrite Ud.
    + left. unfold filled, fillna in *. simpl in *.
      destruct (existsb isna ((fun v => cell_of_time (to_datetime_obj v)) <$> vs))
        eqn:Hna; [|done].
      assert (forall v, v ∈ (fun v => if isna v then Str "unknown" else v)
                            <$> ((fun v => cell_of_time (to_datetime_obj v)) <$> vs) ->
                        v = Str "unknown") as Hall.
      { intros v Hv. pose proof (Hnotime_v := Hv).
        apply list_elem_of_fmap in Hv as [w [-> Hw]].
        apply list_elem_of_fmap in Hw as [u [-> _]].
        destruct (to_datetime_obj u) as [| |t] eqn:Hu; simpl in *; try done.
        exfalso. by apply (Hnotime t). }
      apply existsb_exists in Hna as [w [Hw Hwna]].
      assert (Str "unknown" ∈ (fun v => if isna v then Str "unknown" else v)
                <$> ((fun v => cell_of_time (to_datetime_obj v)) <$> vs)) as Hin.
      { apply list_elem_of_fmap. exists w. rewrite Hwna. split; [done|].
        by apply list_elem_of_In. }
      set (vs' := (fun v => if isna v then Str "unknown" else v) <$> _) in *.
      split.
      * split; [done|]. intros v Hv. exists "unknown". split; [by apply Hall|done].
      * cbn [dtype_of values]. rewrite (existsb_true _ vs' (Str "unknown") Hin)
          by (simpl; by rewrite Hnum).
        simpl. by rewrite (existsb_true _ vs' (Str "unknown") Hin)
          by (simpl; by rewrite Hdt).
  - right. unfold filled, fillna. simpl. split; [done|].
    intros v Hv. apply list_elem_of_fmap in Hv as [w [-> Hw]].
    apply list_elem_of_fmap in Hw as [u [-> _]].
    destruct (to_numeric_obj u); simpl; eauto.
Qed.

Lemma converted_num_cells (Q : num -> Prop) (s' : Series) :
  dtype_of s' = numeric ->
  (forall v, v ∈ values s' -> isna v = true \/ exists x, v = Num x /\ Q x) ->
  Q (num_of_Z 0) ->
  num_cells Q (filled (converted s')).
Proof.
  intros Hd Hcells Hzero. destruct s' as [d vs]. simpl in *. subst d.
  unfold converted, to_numeric_ignore, filled, fillna. simpl. split; [done|].
  intros v Hv. apply list_elem_of_fmap in Hv as [w [-> Hw]].
  destruct (Hcells w Hw) as [Hna|(x & -> & Hx)].
  - rewrite Hna. eauto.
  - simpl. eauto.
Qed.

Lemma converted_datetime (s' : Series) :
  dtype_of s' = datetime64 -> num_cells (fun _ => True) (filled (converted s')).
Proof.
  intros Hd. destruct s' as [d vs]. simpl in *. subst d.
  unfold converted, to_numeric_ignore, view_i8, filled, fillna. simpl.
  split; [done|].
  intros v Hv. apply list_elem_of_fmap in Hv as [w [-> Hw]].
  apply list_elem_of_fmap in Hw as [u [-> _]]. destruct u; simpl; eauto.
Qed.

(** *** Columns that the cell-level stages leave alone *)

Lemma num_cells_notna Q (o : Series) :
  num_cells Q o -> forallb notna (values o) = true.
Proof.
  intros [_ Hcells]. apply forallb_forall. intros v Hv.
  apply list_elem_of_In, Hcells in Hv as (x & -> & _). done.
Qed.

Lemma replace_num_cells Q m (o : Series) : num_cells Q o -> replace m o = o.
Proof.
  intros [_ Hcells]. destruct o as [d vs]. unfold replace, map_values. simpl in *.
  f_equal. apply fmap_fixed. intros v Hv. by destruct (Hcells v Hv) as (x & -> & _).
Qed.

Lemma settled_text c (o : Series) :
  c <> "monthly_premium_auto" -> c <> "customer_lifetime_value" ->
  text_cells (fun y => trimmed_lower y /\ default y (column_map c !! y) = y) o ->
  converted o = o ->
  column_settled (c, o) = true.
Proof.
  intros Hcap Hclv Htext Hconv. unfold column_settled. simpl.
  rewrite (text_cells_notna _ _ Htext). destruct Htext as [Hobj Hcells].
  rewrite Hobj. simpl. rewrite (bool_decide_eq_true_2 _ Hconv), andb_true_r.
  apply andb_true_iff. split; apply bool_decide_eq_true_2.
  - apply fmap_fixed. intros v Hv. destruct (Hcells v Hv) as (y & -> & Hy & _).
    unfold text_of. simpl. by rewrite Hy.
  - rewrite column_pass_map by done. f_equal.
    destruct o as [d vs]. unfold replace, map_values. simpl in *. f_equal.
    apply fmap_fixed. intros v Hv. destruct (Hcells v Hv) as (y & -> & _ & Hy).
    by rewrite Hy.
Qed.

Lemma settled_num_map c (o : Series) :
  c <> "monthly_premium_auto" -> c <> "customer_lifetime_value" ->
  num_cells (fun _ => True) o ->
  column_settled (c, o) = true.
Proof.
  intros Hcap Hclv Hnum. unfold column_settled. simpl.
  rewrite (num_cells_notna _ _ Hnum). destruct (Hnum) as [-> _]. simpl.
  apply bool_decide_eq_true_2. rewrite column_pass_map by done.
  by rewrite (replace_num_cells _ _ _ Hnum).
Qed.

Lemma capped_num_cells cap (o : Series) :
  num_cells (fun x => num_gtb x cap = false) o -> capped cap o = Ok o.
Proof.
  intros [Hd Hcells]. destruct o as [d vs]. simpl in *. subst d.
  unfold capped, series_gt, np_where. simpl.
  assert (all_ok (cell_gt cap) vs = Ok ((fun _ => false) <$> vs)) as ->.
  { induction vs as [|v vs IH]; [done|]. simpl.
    destruct (Hcells v) as (x & -> & Hx); [left|]. simpl. rewrite Hx. simpl.
    rewrite IH; [done|]. intros w Hw. apply Hcells. by right. }
  simpl. f_equal. f_equal. clear. induction vs as [|v vs IH]; [done|].
  csimpl. by f_equal.
Qed.

Lemma settled_num_cap (o : Series) :
  num_cells (fun x => num_gtb x default_cap = false) o ->
  column_settled ("monthly_premium_auto", o) = true.
Proof.
  intros Hnum. unfold column_settled. simpl.
  rewrite (num_cells_notna _ _ Hnum). destruct (Hnum) as [-> _]. simpl.
  apply bool_decide_eq_true_2. by apply capped_num_cells.
Qed.

Lemma settled_num_lifetime_value Q (o : Series) :
  num_cells Q o ->
  lifetime_value_of <$> values o = values o ->
  column_settled ("customer_lifetime_value", o) = true.
Proof.
  intros Hnum Hback. unfold column_settled. simpl.
  rewrite (num_cells_notna _ _ Hnum). destruct (Hnum) as [Hd _]. rewrite Hd. simpl.
  apply bool_decide_eq_true_2. unfold column_pass. simpl.
  rewrite Hback, <- Hd. by rewrite series_eta.
Qed.

End ColumnKinds.

Section ColumnAfterRun.
Context `{NumPy}.

Lemma np_where_cells cap (vs : list pyobj) :
  forall mask,
    all_ok (cell_gt cap) vs = Ok mask ->
    forall v, v ∈ zip_with (fun (b : bool) v => if b then Num cap else v) mask vs ->
              isna v = true \/ exists x, v = Num x /\ (num_gtb x cap = false \/ x = cap).
Proof.
  induction vs as [|w vs IH]; intros mask Hok v Hv.
  - simpl in Hok. injection Hok as <-. by apply elem_of_nil in Hv.
  - simpl in Hok. destruct (cell_gt cap w) as [b|] eqn:Hw; simpl in Hok; [|done].
    destruct (all_ok (cell_gt cap) vs) as [bs|] eqn:Hvs; simpl in Hok; [|done].
    injection Hok as <-. simpl in Hv. apply elem_of_cons in Hv as [->|Hv].
    + destruct b; [right; eauto|].
      destruct w; simpl in Hw; try done; auto.
      injection Hw as Hw. right. eauto.
    + by apply (IH bs).
Qed.

Lemma text_of_trimmed_lower v : exists y, text_of v = Str y /\ trimmed_lower y.
Proof.
  eexists. split; [reflexivity|]. apply TwiceFacts.lower_strip_twice.
Qed.

(** What one column of the output of a run looks like to the cell-level
    stages of a second run. *)
Lemma column_settled_after_run c (s s' : Series) :
  forallb (fits (dtype_of s)) (values s) = true ->
  column_pass c (textified s) = Ok s' ->
  to_numeric_str "unknown" = Unparsed ->
  to_datetime_str "unknown" = Unparsed ->
  num_gtb (num_of_Z 0) default_cap = false ->
  num_gtb default_cap default_cap = false ->
  dtype_of (filled (converted s')) <> datetime64 ->
  (forall t, Time t ∉ values (filled (converted s'))) ->
  (c = "customer_lifetime_value" ->
   lifetime_value_of <$> values (filled (converted s'))
   = values (filled (converted s'))) ->
  column_settled (c, filled (converted s')) = true.
Proof.
  intros Hfits Hpass Hnum Hdt Hzero Hcapcap Hnodt Hnotime Hback.
  destruct (decide (c = "customer_lifetime_value")) as [->|Hclv].
  { unfold column_pass in Hpass. simpl in Hpass. injection Hpass as <-.
    apply (settled_num_lifetime_value (fun _ => True)); [|by apply Hback].
    apply converted_num_cells; [done| |done].
    intros v Hv. simpl in Hv. apply list_elem_of_fmap in Hv as [w [-> _]].
    unfold lifetime_value_of.
    destruct (to_numeric_str (Text.strip (Text.replace_char "%" "" (str_of w))));
      simpl; eauto. }
  destruct (decide (c = "monthly_premium_auto")) as [->|Hcap].
  { unfold column_pass in Hpass. simpl in Hpass. apply settled_num_cap.
    unfold capped in Hpass.
    destruct (series_gt (textified s) default_cap) as [mask|] eqn:Hgt;
      simpl in Hpass; [|done].
    injection Hpass as <-. unfold series_gt in Hgt.
    destruct (dtype_of (textified s)) eqn:Hd; [| |done].
    - unfold textified in *. destruct (decide (dtype_of s = object)) as [Hobj|Hobj];
        [|congruence].
      simpl in *. destruct (values s) as [|v vs]; simpl in *; [|done].
      injection Hgt as <-. unfold np_where. simpl.
      unfold converted, to_numeric_ignore, filled, fillna. simpl.
      split; [done|]. intros w Hw. by apply elem_of_nil in Hw.
    - apply converted_num_cells; [done| |done].
      intros v Hv. unfold np_where in Hv. simpl in Hv.
      destruct (np_where_cells _ _ _ Hgt v Hv) as [?|(x & -> & [Hx| ->])]; eauto. }
  rewrite column_pass_map in Hpass by done. injection Hpass as <-.
  destruct s as [d vs]. unfold textified in *. simpl in *. destruct d; simpl in *.
  - assert (text_cells (fun y => trimmed_lower y
                                 /\ default y (column_map c !! y) = y)
              (replace (column_map c) (mkSeries object (text_of <$> vs)))) as Htext.
    { split; [done|]. intros v Hv. unfold replace, map_values in Hv. simpl in Hv.
      apply list_elem_of_fmap in Hv as [w [-> Hw]].
      apply list_elem_of_fmap in Hw as [u [-> _]].
      destruct (text_of_trimmed_lower u) as (y & -> & Hy).
      eexists. split; [reflexivity|]. by apply column_map_fixed. }
    destruct (converted_text_cells _ _ Htext) as [[Ho Hconv]|Ho]; try done.
    + split; [by vm_compute|]. by rewrite column_map_unknown.
    + by apply settled_text.
    + by apply settled_num_map.
  - apply settled_num_map; try done.
    apply converted_num_cells; [done| |done].
    intros v Hv. unfold replace, map_values in Hv. simpl in Hv.
    apply list_elem_of_fmap in Hv as [w [-> Hw]].
    rewrite forallb_forall in Hfits. apply list_elem_of_In, Hfits in Hw.
    destruct w; simpl in *; try done; eauto.
  - apply settled_num_map; try done. by apply converted_datetime.
Qed.

End ColumnAfterRun.

(** ** Running the pipeline on its own output *)

Section SecondRun.
Context `{NumPy}.

Lemma columnwise_elem_of R (d d' : DataFrame) c o :
  columnwise R d d' -> (c, o) ∈ data d' -> exists s, (c, s) ∈ data d /\ R c s o.
Proof.
  intros [_ Hcols] Hin. apply list_elem_of_lookup in Hin as [i Hi].
  destruct (Forall2_lookup_r _ _ _ _ _ Hcols Hi) as ([c0 s] & Hs & Hc & HR).
  simpl in *. subst c0. exists s. split; [|done]. by eapply list_elem_of_lookup_2.
Qed.

Lemma columnwise_shape R (d d' : DataFrame) :
  columnwise R d d' -> nrows d' = nrows d /\ ncols d' = ncols d.
Proof.
  intros [Hi Hcols]. unfold nrows, ncols. rewrite Hi. split; [done|].
  symmetry. by eapply Forall2_length.
Qed.

Lemma length_all_ok {A B : Type} (f : A -> outcome B) (l : list A) (k : list B) :
  all_ok f l = Ok k -> length k = length l.
Proof.
  revert k. induction l as [|x l IH]; intros k; simpl.
  - by intros [= <-].
  - destruct (f x) as [y|]; simpl; [|done].
    destruct (all_ok f l) as [ys|]; simpl; [|done].
    intros [= <-]. simpl. by rewrite (IH ys).
Qed.

Lemma length_column_pass c (s s' : Series) :
  column_pass c s = Ok s' -> length (values s') = length (values s).
Proof.
  unfold column_pass, capped, series_gt.
  repeat case_decide; try (intros [= <-]; simpl; by rewrite length_fmap).
  - destruct (dtype_of s); try done;
      (destruct (all_ok (cell_gt default_cap) (values s)) as [mask|] eqn:Hm;
       simpl; [|done]; intros [= <-]; unfold np_where; simpl;
       apply length_all_ok in Hm; rewrite length_zip_with; lia).
  - by intros [= <-].
Qed.

Lemma length_textified (s : Series) : length (values (textified s)) = length (values s).
Proof. unfold textified. case_decide; [|done]. simpl. by rewrite length_fmap. Qed.

Lemma length_converted (s : Series) : length (values (converted s)) = length (values s).
Proof.
  unfold converted, to_numeric_ignore, to_datetime_ignore, view_i8.
  destruct s as [[] vs]; simpl; repeat case_match; simpl;
    rewrite ?length_fmap; try done.
Qed.

Lemma length_filled (s : Series) : length (values (filled s)) = length (values s).
Proof. rewrite values_filled. by rewrite length_fmap. Qed.

Lemma columns_take_rows mask (d : DataFrame) : columns (take_rows mask d) = columns d.
Proof.
  unfold columns, take_rows. simpl. rewrite <- list_fmap_compose.
  by apply list_fmap_ext.
Qed.

Lemma columns_dropna_columns (d : DataFrame) c :
  c ∈ columns (dropna_columns d) -> c ∈ columns d.
Proof.
  unfold columns, dropna_columns. simpl. intros [cs [-> Hcs]]%list_elem_of_fmap.
  apply list_elem_of_filter in Hcs as [_ Hcs]. by apply list_elem_of_fmap_2.
Qed.

Lemma columns_drop_duplicates (d : DataFrame) : columns (drop_duplicates d) = columns d.
Proof. unfold drop_duplicates. destruct (empty d); [done|apply columns_take_rows]. Qed.

Lemma columns_structural (df : DataFrame) c :
  c ∈ columns (remove_duplicates
                 (remove_empty_rows_columns (rename_columns (clean_column_names df)))) ->
  label_settled c = true.
Proof.
  unfold remove_duplicates. rewrite columns_drop_duplicates.
  unfold remove_empty_rows_columns. intros Hc%columns_dropna_columns.
  unfold dropna_rows in Hc. rewrite columns_take_rows in Hc.
  unfold rename_columns, rename, clean_column_names, columns in Hc. simpl in Hc.
  rewrite <- !list_fmap_compose in Hc.
  apply list_elem_of_fmap in Hc as [[n s] [-> _]]. simpl.
  unfold label_settled.
  destruct (decide (Text.clean_name n = "st")) as [Hst|Hst].
  - rewrite Hst. by vm_compute.
  - rewrite lookup_singleton_ne by done. simpl.
    rewrite TwiceFacts.clean_name_twice.
    by rewrite !bool_decide_eq_true_2.
Qed.

(** C6, amended.  Suppose [clean_data] returns [out] on a well-formed
    table, and that [out] has no two rows with the same values, no
    temporal column or cell, and a [customer_lifetime_value] column (if
    any) whose numbers read back from their printed form; suppose also
    that the text [unknown] reads neither as a number nor as a date and
    that neither 0 nor the cap exceeds the cap.  Then [clean_data]
    returns [out] on [out]. *)
Theorem clean_data_twice (df out : DataFrame) :
  wf_frame df = true ->
  clean_data df = Ok out ->
  to_numeric_str "unknown" = Unparsed ->
  to_datetime_str "unknown" = Unparsed ->
  num_gtb (num_of_Z 0) default_cap = false ->
  num_gtb default_cap default_cap = false ->
  forallb negb (duplicated out) = true ->
  (forall c s, (c, s) ∈ data out ->
               dtype_of s <> datetime64 /\ forall t, Time t ∉ values s) ->
  (forall s, ("customer_lifetime_value", s) ∈ data out ->
             lifetime_value_of <$> values s = values s) ->
  clean_data out = Ok out.
Proof.
  intros Hwf Hrun Hnum Hdt Hzero Hcap Hdistinct Hnotime Hback.
  apply first_run_columns in Hrun as [Hnd Hcols].
  set (d := remove_duplicates _) in *.
  pose proof (wf_frame_structural df Hwf) as Hwfd. fold d in Hwfd.
  pose proof (structural_empty df Hwf) as Hempty. simpl in Hempty. fold d in Hempty.
  pose proof (columnwise_shape _ _ _ Hcols) as [Hrows Hncols].
  pose proof (columnwise_columns _ _ _ Hcols) as Hlabels.
  apply clean_data_already_clean. unfold already_clean.
  repeat (apply andb_true_iff; split); try done.
  - apply forallb_forall. intros [c o] Hin. apply list_elem_of_In in Hin.
    destruct (columnwise_elem_of _ _ _ _ _ Hcols Hin) as (s & Hs & s' & Hpass & ->).
    apply bool_decide_eq_true_2. simpl.
    rewrite length_filled, length_converted, (length_column_pass _ _ _ Hpass),
      length_textified, Hrows.
    rewrite wf_frame_iff in Hwfd. specialize (Hwfd c s Hs).
    unfold wf_series in Hwfd. apply andb_true_iff in Hwfd as [Hlen _].
    by apply bool_decide_eq_true_1 in Hlen.
  - apply bool_decide_eq_true_2. by rewrite Hlabels.
  - apply forallb_forall. intros c Hc. apply list_elem_of_In in Hc.
    rewrite Hlabels in Hc. by apply (columns_structural df).
  - apply forallb_forall. intros [c o] Hin. apply list_elem_of_In in Hin.
    destruct (columnwise_elem_of _ _ _ _ _ Hcols Hin) as (s & Hs & s' & Hpass & ->).
    destruct (Hnotime _ _ Hin) as [Hnodt Hnot].
    apply (column_settled_after_run c s s'); try done.
    + rewrite wf_frame_iff in Hwfd. specialize (Hwfd c s Hs).
      unfold wf_series in Hwfd. by apply andb_true_iff in Hwfd as [_ Hfits].
    + intros ->. by apply Hback.
  - apply bool_decide_eq_true_2. by rewrite Hrows, Hncols.
Qed.

End SecondRun.

Section SecondRunOnSample.
#[local] Existing Instance Decimal.numpy.

Lemma clean_data_twice_witness :
  clean_data Examples.roster_cleaned = Ok Examples.roster_cleaned.
Proof.
  apply (clean_data_twice Examples.roster Examples.roster_cleaned).
  - by_evaluation.
  - by_evaluation.
  - reflexivity.
  - reflexivity.
  - reflexivity.
  - reflexivity.
  - by_evaluation.
  - intros c s Hin. unfold Examples.roster_cleaned in Hin. simpl in Hin.
    repeat (apply elem_of_cons in Hin as [[= -> ->]|Hin];
            [split; [done|];
             intros t Ht; simpl in Ht;
             repeat (apply elem_of_cons in Ht as [?|Ht]; [done|]);
             by apply elem_of_nil in Ht|]).
    by apply elem_of_nil in Hin.
  - intros s Hin. unfold Examples.roster_cleaned in Hin. simpl in Hin.
    apply elem_of_cons in Hin as [Heq|Hin]; [discriminate Heq|].
    apply elem_of_cons in Hin as [Heq|Hin]; [discriminate Heq|].
    apply elem_of_cons in Hin as [Heq|Hin]; [injection Heq as ->; reflexivity|].
    apply elem_of_cons in Hin as [Heq|Hin]; [discriminate Heq|].
    by apply elem_of_nil in Hin.
Defined.

End SecondRunOnSample.

(** * Further properties: each stage on its own, and the output of a run *)

(** ** Labels: [rename_columns] and [clean_column_names] on their own *)

Section Renaming.
Context `{NumPy}.

Lemma lookup_st (c : string) :
  default c (({[ "st" := "state" ]} : gmap string string) !! c)
  = if decide (c = "st") then "state" else c.
Proof.
  case_decide as Hc.
  - subst c. by rewrite lookup_singleton.
  - by rewrite lookup_singleton_ne.
Qed.

Lemma columns_rename_columns (df : DataFrame) :
  columns (rename_columns df)
  = (fun c => if decide (c = "st") then "state" else c) <$> columns df.
Proof.
  unfold rename_columns, rename, columns. simpl.
  rewrite <- !list_fmap_compose. apply list_fmap_ext.
  intros i [c s] _. simpl. apply lookup_st.
Qed.

(** X1.  [rename_columns] relabels the column [st] as [state] and does
    nothing else: the index and the cells are as they were, every other
    label stays, no label [st] is left, and a table without a column
    [st] is returned unchanged. *)
Theorem rename_columns_relabels_st (df : DataFrame) :
  index (rename_columns df) = index df
  /\ columns (rename_columns df)
     = (fun c => if decide (c = "st") then "state" else c) <$> columns df
  /\ (data (rename_columns df)).*2 = (data df).*2
  /\ ("st" ∉ columns (rename_columns df))
  /\ ("st" ∉ columns df -> rename_columns df = df).
Proof.
  split; [done|]. split; [apply columns_rename_columns|]. split; [|split].
  - unfold rename_columns, rename. simpl. rewrite <- list_fmap_compose.
    by apply list_fmap_ext.
  - rewrite columns_rename_columns. intros Hin.
    apply list_elem_of_fmap in Hin as [c [Hc _]]. by case_decide.
  - intros Hst. destruct df as [ix cols]. unfold rename_columns, rename. simpl.
    f_equal. rewrite <- (list_fmap_id cols) at 2. apply list_fmap_ext.
    intros i [c s] Hi. simpl. rewrite lookup_st. case_decide as Hc; [|done].
    subst c. exfalso. apply Hst. unfold columns. simpl.
    apply list_elem_of_fmap. exists ("st", s). split; [done|].
    by eapply list_elem_of_lookup_2.
Qed.

Lemma NoDup_fmap_inj_on {A B : Type} (f : A -> B) (l : list A) x y :
  NoDup (f <$> l) -> x ∈ l -> y ∈ l -> f x = f y -> x = y.
Proof.
  induction l as [|z l IH]; intros Hnd Hx Hy Hf.
  - by apply elem_of_nil in Hx.
  - rewrite fmap_cons in Hnd. apply NoDup_cons in Hnd as [Hz Hnd].
    apply elem_of_cons in Hx as [->|Hx]; apply elem_of_cons in Hy as [->|Hy];
      try done.
    + exfalso. apply Hz. rewrite Hf. apply list_elem_of_fmap. by exists y.
    + exfalso. apply Hz. rewrite <- Hf. apply list_elem_of_fmap. by exists x.
    + by apply IH.
Qed.

(** X2.  When a table has a column [st] and a column [state],
    [rename_columns] returns a table in which two columns bear the label
    [state]: the labels are no longer unique. *)
Theorem rename_columns_duplicates_state (df : DataFrame) :
  "st" ∈ columns df -> "state" ∈ columns df ->
  ~ NoDup (columns (rename_columns df))
  /\ length (filter (fun c => c = "state") (columns (rename_columns df))) >= 2.
Proof.
  intros Hst Hstate. rewrite columns_rename_columns.
  assert (forall l : list string,
             "st" ∈ l -> "state" ∈ l ->
             length (filter (fun c => c = "state")
                       ((fun c => if decide (c = "st") then "state" else c) <$> l)) >= 2)
    as Hcount.
  { clear. intros l Hst Hstate.
    assert (forall l : list string,
               "st" ∈ l \/ "state" ∈ l ->
               length (filter (fun c => c = "state")
                         ((fun c => if decide (c = "st") then "state" else c) <$> l)) >= 1)
      as Hone.
    { clear. induction l as [|c l IH]; intros Hin.
      - destruct Hin as [Hin|Hin]; by apply elem_of_nil in Hin.
      - rewrite fmap_cons, filter_cons.
        destruct (decide (c = "st")) as [->|Hc1]; [simpl; lia|].
        destruct (decide (c = "state")) as [->|Hc2]; [simpl; lia|].
        apply IH. destruct Hin as [Hin|Hin];
          apply elem_of_cons in Hin as [E|Hin]; try tauto; congruence. }
    induction l as [|c l IH]; [by apply elem_of_nil in Hst|].
    rewrite fmap_cons, filter_cons.
    apply elem_of_cons in Hst as [Est|Hst]; apply elem_of_cons in Hstate as [E|Hstate].
    - congruence.
    - subst c. simpl. specialize (Hone l (or_intror Hstate)). lia.
    - subst c. simpl. specialize (Hone l (or_introl Hst)). lia.
    - specialize (IH Hst Hstate).
      destruct (decide (c = "st")) as [->|Hc1]; [simpl; lia|].
      destruct (decide (c = "state")) as [->|Hc2]; [simpl; lia|]. done. }
  split; [|by apply Hcount].
  intros Hnd.
  assert ("st" = "state") as E; [|done].
  by eapply (NoDup_fmap_inj_on _ _ "st" "state" Hnd).
Qed.

End Renaming.

Section RenamingOnSample.
#[local] Existing Instance Decimal.numpy.

Lemma rename_columns_duplicates_state_witness :
  ~ NoDup (columns (rename_columns Cases.two_states))
  /\ length (filter (fun c => c = "state") (columns (rename_columns Cases.two_states)))
     >= 2.
Proof.
  apply rename_columns_duplicates_state; by_evaluation.
Defined.

End RenamingOnSample.

(** ** Labels that [clean_column_names] leaves alone *)

Module PatternFacts.
Import Text Regex Label.

Lemma plus_alnum_chars (s : string) :
  matches (Plus alnum) s -> all_chars is_lower_alnum s = true /\ s <> "".
Proof.
  intros Hm. remember (Plus alnum) as r eqn:Hr.
  induction Hm as [| | r s Hm _ | r s1 s2 Hm1 _ Hm2 IH | |]; try discriminate.
  - injection Hr as ->. inversion Hm as [p c Hc| | | | |]; subst. simpl.
    by rewrite Hc.
  - injection Hr as ->. specialize (IH eq_refl) as [IH1 IH2].
    inversion Hm1 as [p c Hc| | | | |]; subst. simpl. by rewrite Hc.
Qed.

Lemma tidy_alnum_app (a r : string) :
  all_chars is_lower_alnum a = true -> tidy r = true -> tidy (a ++ r)%string = true.
Proof.
  induction a as [|c a IH]; simpl; [done|].
  intros [Hc Ha]%andb_true_iff Hr. rewrite Hc. simpl. by apply IH.
Qed.

Lemma head_alnum_app (a r : string) :
  all_chars is_lower_alnum a = true -> a <> "" ->
  head_alnum (a ++ r)%string = true.
Proof.
  destruct a as [|c a]; simpl; [done|]. by intros [Hc _]%andb_true_iff _.
Qed.

Lemma star_tail_tidy (r : string) :
  matches (Star (Cat underscore (Plus alnum))) r -> tidy r = true.
Proof.
  intros Hm. remember (Star (Cat underscore (Plus alnum))) as e eqn:He.
  induction Hm as [| | | | |e s1 s2 Hm1 _ Hm2 IH]; try discriminate; [done|].
  injection He as ->. specialize (IH eq_refl).
  inversion Hm1 as [|? ? u a Hu Ha| | | |]; subst.
  inversion Hu as [p c Hc| | | | |]; subst.
  apply plus_alnum_chars in Ha as [Ha Hne].
  change (tidy (String c (a ++ s2)%string) = true). cbn [tidy].
  apply Ascii.eqb_eq in Hc. subst c.
  rewrite head_alnum_app by done. rewrite tidy_alnum_app by done.
  by rewrite orb_true_r.
Qed.

Lemma head_underscore_alnum (s : string) :
  head_alnum s = true -> head_underscore s = false.
Proof.
  destruct s as [|c s]; simpl; [done|]. intros Hc.
  rewrite Ascii.eqb_sym. by apply LabelFacts.alnum_not_underscore.
Qed.

Lemma label_pattern_tidy (w : string) :
  matches label_pattern w -> tidy w = true /\ head_underscore w = false.
Proof.
  intros Hm. inversion Hm as [|? ? a r Ha Hr| | | |]; subst.
  apply plus_alnum_chars in Ha as [Ha Hne]. apply star_tail_tidy in Hr.
  split; [by apply tidy_alnum_app|].
  apply head_underscore_alnum. by apply head_alnum_app.
Qed.

(** The labels that [clean_name] leaves as they are. *)
Lemma clean_name_fixed (c : string) :
  clean_name c = c <-> c = "" \/ matches label_pattern c.
Proof.
  split.
  - intros Hc. pose proof (LabelFacts.clean_name_label c) as Hl.
    rewrite Hc in Hl. destruct (has_alnum c); [by right|by left].
  - intros [->|Hm]; [by vm_compute|].
    apply label_pattern_tidy in Hm as [Ht Hh]. by apply TwiceFacts.clean_name_tidy_id.
Qed.

End PatternFacts.

Section CleanLabels.
Context `{NumPy}.

(** X3.  Normalising the labels twice is the same as normalising them
    once. *)
Theorem clean_column_names_twice (df : DataFrame) :
  clean_column_names (clean_column_names df) = clean_column_names df.
Proof.
  unfold clean_column_names. simpl. f_equal.
  rewrite <- list_fmap_compose. apply list_fmap_ext.
  intros i [c s] _. simpl. by rewrite TwiceFacts.clean_name_twice.
Qed.

(** X4.  [clean_column_names] returns the table unchanged exactly when
    every label is empty or already matches
    [[a-z0-9]+(_[a-z0-9]+)*]. *)
Theorem clean_column_names_fixed (df : DataFrame) :
  clean_column_names df = df
  <-> Forall (fun c => c = "" \/ Regex.matches Regex.label_pattern c) (columns df).
Proof.
  rewrite Forall_forall. split.
  - intros Hfix c Hc. apply PatternFacts.clean_name_fixed.
    assert (columns (clean_column_names df) = columns df) as Hcols by by rewrite Hfix.
    rewrite columns_clean_column_names in Hcols.
    apply list_elem_of_lookup in Hc as [i Hi].
    apply (f_equal (fun l => l !! i)) in Hcols.
    rewrite list_lookup_fmap, Hi in Hcols. simpl in Hcols. congruence.
  - intros Hall. destruct df as [ix cols]. unfold clean_column_names. simpl.
    f_equal. rewrite <- (list_fmap_id cols) at 2. apply list_fmap_ext.
    intros i [c s] Hi. simpl. f_equal. apply PatternFacts.clean_name_fixed.
    apply Hall. unfold columns. simpl. apply list_elem_of_fmap.
    exists (c, s). split; [done|]. by eapply list_elem_of_lookup_2.
Qed.

End CleanLabels.

(** ** The structural stages on their own *)

Section EmptyRowsColumns.
Context `{NumPy}.

Lemma rectangular_iff (df : DataFrame) :
  rectangular df = true
  <-> forall c s, (c, s) ∈ data df -> length (values s) = nrows df.
Proof.
  unfold rectangular. rewrite forallb_forall. split.
  - intros Hr c s Hin. apply list_elem_of_In in Hin.
    by apply Hr, bool_decide_eq_true_1 in Hin.
  - intros Hr [c s] Hin. apply bool_decide_eq_true_2.
    by apply (Hr c s), list_elem_of_In.
Qed.

Lemma rectangular_take_rows mask (df : DataFrame) :
  rectangular df = true -> rectangular (take_rows mask df) = true.
Proof.
  rewrite !rectangular_iff. intros Hr c s Hin. unfold take_rows in Hin. simpl in Hin.
  apply list_elem_of_fmap in Hin as [[c0 s0] [[= -> ->] Hin]]. simpl.
  unfold nrows. simpl. apply length_compress_eq. by apply (Hr c0).
Qed.

Lemma rectangular_dropna_columns (df : DataFrame) :
  rectangular df = true -> rectangular (dropna_columns df) = true.
Proof.
  rewrite !rectangular_iff. intros Hr c s Hin. unfold dropna_columns in Hin.
  simpl in Hin. apply list_elem_of_filter in Hin as [_ Hin]. by apply Hr in Hin.
Qed.

Lemma rectangular_remove_empty_rows_columns (df : DataFrame) :
  rectangular df = true -> rectangular (remove_empty_rows_columns df) = true.
Proof.
  intros Hr. unfold remove_empty_rows_columns, dropna_rows.
  by apply rectangular_dropna_columns, rectangular_take_rows.
Qed.

Lemma dropna_rows_present (df : DataFrame) i :
  i < nrows (dropna_rows df) -> existsb notna (row (dropna_rows df) i) = true.
Proof.
  intros Hi. apply (compress_fmap_true _ (rows df)).
  pose proof (rows_lookup _ i Hi) as Hrow. unfold dropna_rows in Hrow at 1.
  rewrite rows_take_rows in Hrow by (by rewrite length_fmap, length_rows).
  by eapply list_elem_of_lookup_2.
Qed.

Lemma cell_present (s : Series) i :
  notna (cell s i) = true -> existsb notna (values s) = true.
Proof.
  unfold cell. destruct (values s !! i) as [v|] eqn:Hv; [|done]. simpl.
  intros Hna. by apply (existsb_true _ _ v); [eapply list_elem_of_lookup_2|].
Qed.

Lemma dropna_columns_row_present (d : DataFrame) i :
  existsb notna (row d i) = true -> existsb notna (row (dropna_columns d) i) = true.
Proof.
  intros Hex. apply existsb_exists in Hex as [v [Hv Hna]]. unfold row in Hv.
  apply list_elem_of_In, list_elem_of_fmap in Hv as [[c s] [-> Hin]]. simpl in Hna.
  apply (existsb_true _ _ (cell s i)); [|done]. unfold row, dropna_columns. simpl.
  apply list_elem_of_fmap. exists (c, s). split; [done|].
  apply list_elem_of_filter. split; [|done]. simpl. by apply (cell_present _ i).
Qed.

Lemma remove_empty_rows_columns_present (df : DataFrame) :
  (forall i, i < nrows (remove_empty_rows_columns df) ->
             existsb notna (row (remove_empty_rows_columns df) i) = true)
  /\ (forall c s, (c, s) ∈ data (remove_empty_rows_columns df) ->
                  existsb notna (values s) = true).
Proof.
  unfold remove_empty_rows_columns. split.
  - intros i Hi. apply dropna_columns_row_present. by apply dropna_rows_present.
  - intros c s Hin. unfold dropna_columns in Hin. simpl in Hin.
    by apply list_elem_of_filter in Hin as [Hex _].
Qed.

Lemma compress_sublist {A : Type} (mask : list bool) (l : list A) :
  compress mask l `sublist_of` l.
Proof.
  revert l. induction mask as [|b mask IH]; intros [|x l]; simpl;
    try apply sublist_nil_l.
  destruct b; [by apply sublist_skip|by apply sublist_cons].
Qed.

(** X5.  [remove_empty_rows_columns] only drops rows and columns: the
    row labels and the column labels that are left stand in the order
    they had.  In the table it returns every row and every column holds
    at least one cell that is not missing. *)
Theorem remove_empty_rows_columns_leaves_none_empty (df : DataFrame) :
  index (remove_empty_rows_columns df) `sublist_of` index df
  /\ columns (remove_empty_rows_columns df) `sublist_of` columns df
  /\ (forall i, i < nrows (remove_empty_rows_columns df) ->
                existsb notna (row (remove_empty_rows_columns df) i) = true)
  /\ (forall c s, (c, s) ∈ data (remove_empty_rows_columns df) ->
                  existsb notna (values s) = true).
Proof.
  split; [apply compress_sublist|]. split; [|apply remove_empty_rows_columns_present].
  unfold remove_empty_rows_columns.
  rewrite <- (columns_take_rows (existsb notna <$> rows df) df).
  unfold dropna_columns, columns. simpl. apply fmap_sublist, sublist_filter.
Qed.

Lemma remove_empty_rows_columns_id (df : DataFrame) :
  rectangular df = true ->
  (forall i, i < nrows df -> existsb notna (row df i) = true) ->
  (forall c s, (c, s) ∈ data df -> existsb notna (values s) = true) ->
  remove_empty_rows_columns df = df.
Proof.
  intros Hr Hrows Hcols. unfold remove_empty_rows_columns.
  assert (dropna_rows df = df) as ->.
  { unfold dropna_rows. apply take_rows_all; [|by rewrite length_fmap, length_rows|done].
    apply forallb_forall. intros b Hb.
    apply list_elem_of_In, list_elem_of_fmap in Hb as [r [-> Hrow]].
    apply list_elem_of_lookup in Hrow as [i Hi].
    pose proof (lookup_lt_Some _ _ _ Hi) as Hlt. rewrite length_rows in Hlt.
    rewrite rows_lookup in Hi by done. injection Hi as <-. by apply Hrows. }
  destruct df as [ix cols]. unfold dropna_columns. simpl. f_equal.
  apply filter_all. intros [c s] Hin. by apply (Hcols c s).
Qed.

(** X6.  A rectangular table is returned unchanged by
    [remove_empty_rows_columns] exactly when each of its rows and each of
    its columns holds a cell that is not missing. *)
Theorem remove_empty_rows_columns_fixed (df : DataFrame) :
  rectangular df = true ->
  remove_empty_rows_columns df = df
  <-> (forall i, i < nrows df -> existsb notna (row df i) = true)
      /\ (forall c s, (c, s) ∈ data df -> existsb notna (values s) = true).
Proof.
  intros Hr. split.
  - intros Hfix. rewrite <- Hfix. apply remove_empty_rows_columns_present.
  - intros [Hrows Hcols]. by apply remove_empty_rows_columns_id.
Qed.

(** X7.  On a rectangular table, removing the empty rows and columns a
    second time changes nothing. *)
Theorem remove_empty_rows_columns_twice (df : DataFrame) :
  rectangular df = true ->
  remove_empty_rows_columns (remove_empty_rows_columns df)
  = remove_empty_rows_columns df.
Proof.
  intros Hr. destruct (remove_empty_rows_columns_present df) as [Hrows Hcols].
  apply remove_empty_rows_columns_id; [|done|done].
  by apply rectangular_remove_empty_rows_columns.
Qed.

Lemma remove_empty_rows_columns_no_rows (df : DataFrame) :
  nrows df = 0 -> remove_empty_rows_columns df = mkFrame [] [].
Proof.
  intros Hn. destruct df as [ix cols]. unfold nrows in Hn. simpl in Hn.
  apply nil_length_inv in Hn. subst ix.
  unfold remove_empty_rows_columns, dropna_rows, dropna_columns, take_rows, rows.
  simpl. f_equal. apply filter_none. intros [c s] Hin. simpl.
  apply list_elem_of_fmap in Hin as [[c0 s0] [[= -> ->] _]]. simpl. done.
Qed.

Lemma for_each_nil {A S : Type} (body : S -> A -> outcome S) (st : S) :
  for_each [] body st = Ok st.
Proof. done. Qed.

(** X8.  A table without rows loses its columns:
    [remove_empty_rows_columns] returns the table with no row and no
    column, and so does the whole of [clean_data]. *)
Theorem clean_data_without_rows (df : DataFrame) :
  nrows df = 0 ->
  remove_empty_rows_columns df = mkFrame [] []
  /\ clean_data df = Ok (mkFrame [] []).
Proof.
  intros Hn. split; [by apply remove_empty_rows_columns_no_rows|].
  unfold clean_data.
  rewrite (remove_empty_rows_columns_no_rows (rename_columns (clean_column_names df)))
    by done.
  reflexivity.
Qed.

End EmptyRowsColumns.

Section EmptyRowsColumnsOnSample.
#[local] Existing Instance Decimal.numpy.

Lemma remove_empty_rows_columns_fixed_witness :
  remove_empty_rows_columns Examples.roster = Examples.roster
  <-> (forall i, i < nrows Examples.roster ->
                 existsb notna (row Examples.roster i) = true)
      /\ (forall c s, (c, s) ∈ data Examples.roster ->
                      existsb notna (values s) = true).
Proof. apply remove_empty_rows_columns_fixed. by_evaluation. Defined.

Lemma remove_empty_rows_columns_twice_witness :
  remove_empty_rows_columns (remove_empty_rows_columns Cases.sparse)
  = remove_empty_rows_columns Cases.sparse.
Proof. apply remove_empty_rows_columns_twice. by_evaluation. Defined.

Lemma clean_data_without_rows_witness :
  remove_empty_rows_columns Cases.headers_only = mkFrame [] []
  /\ clean_data Cases.headers_only = Ok (mkFrame [] []).
Proof. apply clean_data_without_rows. reflexivity. Defined.

End EmptyRowsColumnsOnSample.

(** ** [remove_duplicates] on its own *)

Section DuplicatesLeft.
Context `{NumPy}.

Lemma existsb_ext_seen (seen seen' : list (list pyobj)) x :
  (forall r, existsb (same_row r) seen = existsb (same_row r) seen') ->
  forall r, existsb (same_row r) (x :: seen) = existsb (same_row r) (x :: seen').
Proof. intros Hs r. simpl. by rewrite Hs. Qed.

(** Once the marked rows are dropped, no row is marked. *)
Lemma duplicated_from_compress rs :
  forall seen seen',
    (forall r, existsb (same_row r) seen = existsb (same_row r) seen') ->
    forallb negb (duplicated_from seen'
                    (compress (negb <$> duplicated_from seen rs) rs)) = true.
Proof.
  induction rs as [|x rs IH]; intros seen seen' Hs; [done|].
  cbn [duplicated_from fmap list_fmap compress].
  destruct (existsb (same_row x) seen) eqn:Hx; simpl.
  - apply IH. intros r. simpl. rewrite <- Hs.
    destruct (same_row r x) eqn:Hrx; [|done]. simpl.
    by rewrite (existsb_same_row_trans _ _ _ Hrx).
  - rewrite <- Hs, Hx. simpl. apply IH. by apply existsb_ext_seen.
Qed.

Lemma duplicated_drop_duplicates (df : DataFrame) :
  ncols df <> 0 -> forallb negb (duplicated (drop_duplicates df)) = true.
Proof.
  intros Hc. unfold drop_duplicates, empty.
  rewrite (bool_decide_eq_false_2 (ncols df = 0)) by done. rewrite orb_false_r.
  case_bool_decide as Hn.
  - unfold duplicated, rows. by rewrite Hn.
  - unfold duplicated at 1. rewrite rows_take_rows.
    + by apply duplicated_from_compress.
    + rewrite length_fmap. unfold duplicated.
      by rewrite length_duplicated_from, length_rows.
Qed.

Lemma duplicated_from_unmarked rs :
  forall seen j,
    duplicated_from seen rs !! j = Some false ->
    forall i r r', i < j -> rs !! i = Some r' -> rs !! j = Some r ->
                   same_row r r' = false.
Proof.
  intros seen j Hj i r r' Hij Hi Hr.
  destruct (same_row r r') eqn:Hsame; [|done].
  rewrite (duplicated_from_marks rs seen j r Hr) in Hj; [done|].
  right. by exists i, r'.
Qed.

(** X9.  When the table has a column, no two rows of the table returned
    by [remove_duplicates] hold the same values. *)
Theorem remove_duplicates_leaves_no_duplicates (df : DataFrame) (i j : nat) :
  ncols df <> 0 ->
  i < j -> j < nrows (remove_duplicates df) ->
  same_row (row (remove_duplicates df) j) (row (remove_duplicates df) i) = false.
Proof.
  intros Hc Hij Hj. unfold remove_duplicates in *.
  pose proof (duplicated_drop_duplicates df Hc) as Hnone.
  set (d := drop_duplicates df) in *.
  apply (duplicated_from_unmarked (rows d) [] j) with (i := i).
  - unfold duplicated in Hnone.
    destruct (duplicated_from [] (rows d) !! j) as [b|] eqn:Hb.
    + rewrite forallb_forall in Hnone.
      specialize (Hnone b). rewrite <- list_elem_of_In in Hnone.
      specialize (Hnone (list_elem_of_lookup_2 _ _ _ Hb)). by destruct b.
    + apply lookup_ge_None in Hb. rewrite length_duplicated_from, length_rows in Hb. lia.
  - done.
  - apply rows_lookup. lia.
  - by apply rows_lookup.
Qed.

(** X10.  [remove_duplicates] keeps rows of the input, in their order,
    and when the table has a column it keeps exactly one row for each
    row of the input: one row of the output holds the same values. *)
Theorem remove_duplicates_keeps_one_of_each (df : DataFrame) :
  ncols df <> 0 ->
  rows (remove_duplicates df) `sublist_of` rows df
  /\ index (remove_duplicates df) `sublist_of` index df
  /\ forall r, r ∈ rows df -> count_same r (rows (remove_duplicates df)) = 1.
Proof.
  intros Hc. unfold remove_duplicates, drop_duplicates, empty.
  rewrite (bool_decide_eq_false_2 (ncols df = 0)) by done. rewrite orb_false_r.
  case_bool_decide as Hn.
  - split; [done|]. split; [done|]. intros r Hr. unfold rows in Hr.
    rewrite Hn in Hr. by apply elem_of_nil in Hr.
  - assert (length (negb <$> duplicated df) = nrows df) as Hlen.
    { rewrite length_fmap. unfold duplicated.
      by rewrite length_duplicated_from, length_rows. }
    rewrite rows_take_rows by done.
    split; [apply compress_sublist|]. split; [apply compress_sublist|].
    intros r Hr. unfold duplicated. rewrite count_same_fresh by done.
    rewrite (existsb_true _ _ r Hr (same_row_refl r)). done.
Qed.

(** X11.  On a rectangular table, removing the duplicates a second time
    changes nothing. *)
Theorem remove_duplicates_twice (df : DataFrame) :
  rectangular df = true ->
  remove_duplicates (remove_duplicates df) = remove_duplicates df.
Proof.
  intros Hr. unfold remove_duplicates.
  destruct (decide (ncols df = 0)) as [Hc|Hc].
  - assert (drop_duplicates df = df) as Hid.
    { unfold drop_duplicates, empty.
      by rewrite (bool_decide_eq_true_2 (ncols df = 0)), orb_true_r. }
    by rewrite !Hid.
  - apply drop_duplicates_id; [|by apply duplicated_drop_duplicates].
    unfold drop_duplicates. destruct (empty df); [done|].
    by apply rectangular_take_rows.
Qed.

End DuplicatesLeft.

Section DuplicatesLeftOnSample.
#[local] Existing Instance Decimal.numpy.

Lemma remove_duplicates_leaves_no_duplicates_witness :
  same_row (row (remove_duplicates Cases.sparse) 1)
           (row (remove_duplicates Cases.sparse) 0) = false.
Proof.
  apply remove_duplicates_leaves_no_duplicates; [by_evaluation|lia|].
  assert (nrows (remove_duplicates Cases.sparse) = 3) as -> by by_evaluation. lia.
Defined.

Lemma remove_duplicates_keeps_one_of_each_witness :
  rows (remove_duplicates Cases.sparse) `sublist_of` rows Cases.sparse
  /\ index (remove_duplicates Cases.sparse) `sublist_of` index Cases.sparse
  /\ forall r, r ∈ rows Cases.sparse ->
               count_same r (rows (remove_duplicates Cases.sparse)) = 1.
Proof. apply remove_duplicates_keeps_one_of_each. by_evaluation. Defined.

Lemma remove_duplicates_twice_witness :
  remove_duplicates (remove_duplicates Cases.sparse) = remove_duplicates Cases.sparse.
Proof. apply remove_duplicates_twice. by_evaluation. Defined.

End DuplicatesLeftOnSample.

(** ** [strip_text_columns] on its own *)

Section TextColumns.
Context `{NumPy}.

Lemma text_of_twice v : text_of (text_of v) = text_of v.
Proof. unfold text_of. simpl. by rewrite TwiceFacts.lower_strip_twice. Qed.

Lemma textified_twice (s : Series) : textified (textified s) = textified s.
Proof.
  destruct s as [d vs]. destruct d; try done.
  unfold textified. simpl. f_equal.
  rewrite <- list_fmap_compose. apply list_fmap_ext. intros i v _. simpl.
  apply text_of_twice.
Qed.

Lemma strip_text_columns_textified (df : DataFrame) :
  NoDup (columns df) ->
  strip_text_columns df = Ok (map_cols (fun _ s => textified s) df).
Proof. apply strip_text_columns_unique. Qed.



(** X13.  On a table with unique labels, normalising the text columns a
    second time changes nothing. *)
Theorem strip_text_columns_twice (df : DataFrame) :
  NoDup (columns df) ->
  exists df', strip_text_columns df = Ok df' /\ strip_text_columns df' = Ok df'.
Proof.
  intros Hnd. eexists. split; [by apply strip_text_columns_textified|].
  rewrite strip_text_columns_textified by (by rewrite columns_map_cols).
  f_equal. rewrite map_cols_compose. apply map_cols_ext. intros c s _.
  apply textified_twice.
Qed.

End TextColumns.

Section TextColumnsOnSample.
#[local] Existing Instance Decimal.numpy.


Lemma strip_text_columns_twice_witness :
  exists df',
    strip_text_columns Examples.customers = Ok df' /\ strip_text_columns df' = Ok df'.
Proof. apply strip_text_columns_twice. by_evaluation. Defined.

End TextColumnsOnSample.

(** ** The four mapping stages on their own *)

Section MappingStages.
Context `{NumPy}.

Ltac mapping_cases E :=
  repeat (apply lookup_insert_Some in E as [[<- <-]|[_ E]]; [by vm_compute|]);
  try (apply lookup_singleton_Some in E as [<- <-]; by vm_compute).

(** No replacement of a mapping is itself replaced by something else. *)
Lemma gender_mapping_settles x y :
  gender_mapping !! x = Some y -> default y (gender_mapping !! y) = y.
Proof. intros E. unfold gender_mapping in E. mapping_cases E. Qed.

Lemma education_mapping_settles x y :
  education_mapping !! x = Some y -> default y (education_mapping !! y) = y.
Proof. intros E. unfold education_mapping in E. mapping_cases E. Qed.

Lemma state_mapping_settles x y :
  state_mapping !! x = Some y -> default y (state_mapping !! y) = y.
Proof. intros E. unfold state_mapping in E. mapping_cases E. Qed.

Lemma policy_mapping_settles x y :
  policy_mapping !! x = Some y -> default y (policy_mapping !! y) = y.
Proof. intros E. unfold policy_mapping in E. mapping_cases E. Qed.

Lemma default_settled (m : gmap string string) :
  (forall x y, m !! x = Some y -> default y (m !! y) = y) ->
  forall x, default (default x (m !! x)) (m !! default x (m !! x)) = default x (m !! x).
Proof.
  intros Hm x. destruct (m !! x) as [y|] eqn:E; simpl.
  - by apply (Hm x).
  - by rewrite E.
Qed.

Lemma replace_twice (m : gmap string string) (s : Series) :
  (forall x y, m !! x = Some y -> default y (m !! y) = y) ->
  replace m (replace m s) = replace m s.
Proof.
  intros Hm. unfold replace, map_values. simpl. f_equal.
  rewrite <- list_fmap_compose. apply list_fmap_ext. intros i v _. simpl.
  destruct v; try done. f_equal. by apply default_settled.
Qed.

Lemma elem_of_setitem (df : DataFrame) col s s' :
  has_column df col = true -> (col, s) ∈ data (setitem df col s') -> s = s'.
Proof.
  intros Hc Hin. unfold setitem in Hin. rewrite Hc in Hin. simpl in Hin.
  apply list_elem_of_fmap in Hin as [[c0 s0] [E _]]. simpl in E.
  case_decide; simplify_eq; done.
Qed.

Lemma on_column_twice col (g : Series -> Series) (df df' : DataFrame) :
  (forall s, g (g s) = g s) ->
  on_column col (fun s => Ok (g s)) df = Ok df' ->
  on_column col (fun s => Ok (g s)) df' = Ok df'.
Proof.
  intros Hg Hon.
  apply on_column_inv in Hon as [[Hc ->]|(s & s' & Hc & Hs & [= <-] & ->)].
  - by apply on_column_absent.
  - unfold on_column. rewrite has_column_setitem, Hc by done.
    rewrite (getitem_setitem_eq _ _ _ _ Hs). simpl.
    by rewrite setitem_setitem, Hg.
Qed.

Lemma on_column_cells col f (df df' : DataFrame) s' :
  on_column col f df = Ok df' -> (col, s') ∈ data df' ->
  exists s, getitem df col = Ok s /\ f s = Ok s'.
Proof.
  intros Hon Hin.
  apply on_column_inv in Hon as [[Hc ->]|(s & s2 & Hc & Hs & Hf & ->)].
  - exfalso. apply elem_of_columns in Hin. unfold has_column in Hc.
    by apply bool_decide_eq_false_1 in Hc.
  - exists s. split; [done|]. by rewrite (elem_of_setitem _ _ _ _ Hc Hin).
Qed.

Lemma replace_cells (m : gmap string string) (s : Series) x :
  Str x ∈ values (replace m s) -> exists x0, x = default x0 (m !! x0).
Proof.
  unfold replace, map_values. simpl. intros Hin.
  apply list_elem_of_fmap in Hin as [v [E _]]. destruct v; try done.
  injection E as ->. eauto.
Qed.

Lemma replace_settled (m : gmap string string) (s : Series) x :
  (forall x y, m !! x = Some y -> default y (m !! y) = y) ->
  Str x ∈ values (replace m s) -> default x (m !! x) = x.
Proof.
  intros Hm Hin. apply replace_cells in Hin as [x0 ->]. by apply default_settled.
Qed.

(** X14.  Each of the four mapping stages, run on a table it has
    returned, returns that table unchanged. *)
Theorem mapping_stages_twice :
  (forall df df' : DataFrame, clean_gender df = Ok df' -> clean_gender df' = Ok df')
  /\ (forall df df' : DataFrame,
         clean_education df = Ok df' -> clean_education df' = Ok df')
  /\ (forall df df' : DataFrame,
         clean_state_names df = Ok df' -> clean_state_names df' = Ok df')
  /\ (forall df df' : DataFrame,
         clean_policy_type df = Ok df' -> clean_policy_type df' = Ok df').
Proof.
  split; [|split; [|split]]; intros df df'.
  - rewrite !clean_gender_on_column. apply on_column_twice. intros s.
    apply replace_twice, gender_mapping_settles.
  - rewrite !clean_education_on_column. apply on_column_twice. intros s.
    apply replace_twice, education_mapping_settles.
  - rewrite !clean_state_names_on_column. apply on_column_twice. intros s.
    apply replace_twice, state_mapping_settles.
  - rewrite !clean_policy_type_on_column. apply on_column_twice. intros s.
    apply replace_twice, policy_mapping_settles.
Qed.

(** X15.  In the table returned by a mapping stage the target column
    holds none of the spellings that the stage replaces by another one:
    no [male], [female] or [femal] under [gender]; no [bachelors],
    [high school or below] or [doctor] under [education]; no [az], [wa]
    or [cali] under [state]; no [personal auto], [corporate auto] or
    [special auto] under [policy_type]. *)
Theorem mapping_stages_leave_no_synonym :
  (forall (df df' : DataFrame) s x,
      clean_gender df = Ok df' -> ("gender", s) ∈ data df' -> Str x ∈ values s ->
      x <> "male" /\ x <> "female" /\ x <> "femal")
  /\ (forall (df df' : DataFrame) s x,
         clean_education df = Ok df' -> ("education", s) ∈ data df' ->
         Str x ∈ values s ->
         x <> "bachelors" /\ x <> "high school or below" /\ x <> "doctor")
  /\ (forall (df df' : DataFrame) s x,
         clean_state_names df = Ok df' -> ("state", s) ∈ data df' ->
         Str x ∈ values s ->
         x <> "az" /\ x <> "wa" /\ x <> "cali")
  /\ (forall (df df' : DataFrame) s x,
         clean_policy_type df = Ok df' -> ("policy_type", s) ∈ data df' ->
         Str x ∈ values s ->
         x <> "personal auto" /\ x <> "corporate auto" /\ x <> "special auto").
Proof.
  split; [|split; [|split]]; intros df df' s x Hrun Hin Hx.
  - rewrite clean_gender_on_column in Hrun.
    destruct (on_column_cells _ _ _ _ _ Hrun Hin) as (s0 & _ & [= <-]).
    apply replace_settled in Hx; [|apply gender_mapping_settles].
    repeat split; intros ->; by vm_compute in Hx.
  - rewrite clean_education_on_column in Hrun.
    destruct (on_column_cells _ _ _ _ _ Hrun Hin) as (s0 & _ & [= <-]).
    apply replace_settled in Hx; [|apply education_mapping_settles].
    repeat split; intros ->; by vm_compute in Hx.
  - rewrite clean_state_names_on_column in Hrun.
    destruct (on_column_cells _ _ _ _ _ Hrun Hin) as (s0 & _ & [= <-]).
    apply replace_settled in Hx; [|apply state_mapping_settles].
    repeat split; intros ->; by vm_compute in Hx.
  - rewrite clean_policy_type_on_column in Hrun.
    destruct (on_column_cells _ _ _ _ _ Hrun Hin) as (s0 & _ & [= <-]).
    apply replace_settled in Hx; [|apply policy_mapping_settles].
    repeat split; intros ->; by vm_compute in Hx.
Qed.

End MappingStages.

Section MappingStagesOnSample.
#[local] Existing Instance Decimal.numpy.

Lemma mapping_stages_twice_witness :
  clean_gender
    (setitem Cases.spellings "gender" (mkSeries object [Str "m"; Str "f"; Str "f"]))
  = Ok (setitem Cases.spellings "gender" (mkSeries object [Str "m"; Str "f"; Str "f"])).
Proof.
  destruct mapping_stages_twice as (Hgender & _).
  apply (Hgender Cases.spellings). by_evaluation.
Defined.

Lemma mapping_stages_leave_no_synonym_witness :
  "arizona" <> "az" /\ "arizona" <> "wa" /\ "arizona" <> "cali".
Proof.
  destruct mapping_stages_leave_no_synonym as (_ & _ & Hstate & _).
  apply (Hstate Cases.spellings
           (setitem Cases.spellings "state"
              (mkSeries object [Str "california"; Str "arizona"; Str "oregon"]))
           (mkSeries object [Str "california"; Str "arizona"; Str "oregon"]));
    by_evaluation.
Defined.

End MappingStagesOnSample.

(** ** [cap_monthly_premium_auto] on its own *)

Section PremiumCap.
Context `{NumPy}.

Lemma all_ok_cell_gt cap (vs : list pyobj) :
  all_ok (cell_gt cap) vs
  = if forallb comparable vs
    then Ok ((fun v => match v with Num x => num_gtb x cap | _ => false end) <$> vs)
    else Raise TypeError.
Proof.
  induction vs as [|v vs IH]; [done|]. cbn [all_ok forallb]. rewrite IH.
  destruct v; simpl; try done; by destruct (forallb comparable vs).
Qed.

Lemma forallb_false {A : Type} (f : A -> bool) (l : list A) :
  forallb f l = false -> exists x, x ∈ l /\ f x = false.
Proof.
  induction l as [|x l IH]; [done|]. simpl. destruct (f x) eqn:Hx; simpl.
  - intros (y & Hy & Hf)%IH. exists y. split; [by right|done].
  - intros _. exists x. split; [by left|done].
Qed.

Lemma zip_with_fmap_l {A B C : Type} (g : B -> A -> C) (f : A -> B) (l : list A) :
  zip_with g (f <$> l) l = (fun x => g (f x) x) <$> l.
Proof. induction l as [|x l IH]; [done|]. csimpl. by rewrite IH. Qed.

Lemma capped_comparable cap (s : Series) :
  dtype_of s <> datetime64 -> forallb comparable (values s) = true ->
  capped cap s = Ok (mkSeries (dtype_of s) (capped_cell cap <$> values s)).
Proof.
  intros Hd Hcmp. unfold capped, series_gt.
  assert (all_ok (cell_gt cap) (values s)
          = Ok ((fun v => match v with Num x => num_gtb x cap | _ => false end)
                  <$> values s)) as Hok.
  { by rewrite all_ok_cell_gt, Hcmp. }
  destruct (dtype_of s) eqn:Hdt; [| |done]; rewrite Hok; simpl;
    unfold np_where; rewrite Hdt, zip_with_fmap_l; do 2 f_equal;
    apply list_fmap_ext; intros i v _; by destruct v.
Qed.

Lemma capped_raises cap (s : Series) :
  (capped cap s = Raise TypeError
   <-> dtype_of s = datetime64 \/ exists v, v ∈ values s /\ comparable v = false)
  /\ (forall e, capped cap s = Raise e -> e = TypeError).
Proof.
  destruct (decide (dtype_of s = datetime64)) as [Hd|Hd].
  { unfold capped, series_gt. rewrite Hd. simpl. split; [|congruence].
    split; [by left|done]. }
  destruct (forallb comparable (values s)) eqn:Hcmp.
  - rewrite capped_comparable by done. split; [|done]. split; [done|].
    intros [?|(v & Hv & Hf)]; [done|]. rewrite forallb_forall in Hcmp.
    apply list_elem_of_In, Hcmp in Hv. congruence.
  - assert (capped cap s = Raise TypeError) as ->.
    { unfold capped, series_gt. rewrite all_ok_cell_gt, Hcmp.
      by destruct (dtype_of s). }
    split; [|congruence]. split; [|done]. intros _. right.
    by apply forallb_false.
Qed.

Lemma on_column_getitem col f (df : DataFrame) s :
  getitem df col = Ok s ->
  on_column col f df = (fun s' => setitem df col s') <$> f s.
Proof.
  intros Hg. unfold on_column.
  rewrite (getitem_Ok_has_column _ _ _ Hg), Hg. simpl. by destruct (f s).
Qed.

(** X16.  When the premium column is not of dtype datetime64 and holds
    neither text nor timestamps, [cap_monthly_premium_auto] overwrites
    it: a number above the cap becomes the cap, every other cell (a
    number up to the cap, a missing cell) stays as it was.  No number in
    the new column exceeds the cap, unless the cap exceeds itself. *)
Theorem cap_monthly_premium_auto_caps (df : DataFrame) (cap : num) (s : Series) :
  getitem df "monthly_premium_auto" = Ok s ->
  dtype_of s <> datetime64 ->
  forallb comparable (values s) = true ->
  cap_monthly_premium_auto df cap
  = Ok (setitem df "monthly_premium_auto"
          (mkSeries (dtype_of s) (capped_cell cap <$> values s)))
  /\ (forall v, v ∈ values s -> capped_cell cap v = v \/ capped_cell cap v = Num cap)
  /\ (forall x, Num x ∈ capped_cell cap <$> values s ->
                num_gtb x cap = false \/ x = cap).
Proof.
  intros Hg Hd Hcmp. split; [|split].
  - rewrite cap_monthly_premium_auto_on_column, (on_column_getitem _ _ _ _ Hg).
    by rewrite capped_comparable.
  - intros v _. destruct v; simpl; auto. destruct (num_gtb x cap); auto.
  - intros x Hx. apply list_elem_of_fmap in Hx as [v [Hv _]].
    destruct v; simpl in Hv; try done.
    destruct (num_gtb x0 cap) eqn:Hgt; injection Hv as ->; auto.
Qed.

(** X17.  When the table has one column labelled
    [monthly_premium_auto], [cap_monthly_premium_auto] raises exactly
    when that column is of dtype datetime64 or holds a text or a
    timestamp, and what it raises is [TypeError]. *)
Theorem cap_monthly_premium_auto_raises (df : DataFrame) (cap : num) (s : Series) :
  getitem df "monthly_premium_auto" = Ok s ->
  (cap_monthly_premium_auto df cap = Raise TypeError
   <-> dtype_of s = datetime64 \/ exists v, v ∈ values s /\ comparable v = false)
  /\ (forall e, cap_monthly_premium_auto df cap = Raise e -> e = TypeError).
Proof.
  intros Hg. rewrite cap_monthly_premium_auto_on_column, (on_column_getitem _ _ _ _ Hg).
  destruct (capped_raises cap s) as [Hiff Honly].
  destruct (capped cap s) as [s'|e] eqn:Hc; simpl.
  - split; [|done]. rewrite <- Hiff. split; done.
  - split; [|intros e' [= <-]; by apply Honly].
    rewrite <- Hiff. by rewrite (Honly e eq_refl).
Qed.

End PremiumCap.

Section PremiumCapOnSample.
#[local] Existing Instance Decimal.numpy.

Lemma cap_monthly_premium_auto_caps_witness :
  cap_monthly_premium_auto Cases.premiums default_cap
  = Ok (setitem Cases.premiums "monthly_premium_auto"
          (mkSeries (dtype_of (mkSeries numeric [Num (1500 # 1); Num (800 # 1); NaN]))
             (capped_cell default_cap
                <$> values (mkSeries numeric [Num (1500 # 1); Num (800 # 1); NaN]))))
  /\ (forall v, v ∈ values (mkSeries numeric [Num (1500 # 1); Num (800 # 1); NaN]) ->
                capped_cell default_cap v = v \/ capped_cell default_cap v = Num default_cap)
  /\ (forall x,
         Num x ∈ capped_cell default_cap
                   <$> values (mkSeries numeric [Num (1500 # 1); Num (800 # 1); NaN]) ->
         num_gtb x default_cap = false \/ x = default_cap).
Proof. apply cap_monthly_premium_auto_caps; by_evaluation. Defined.

Lemma cap_monthly_premium_auto_raises_witness :
  (cap_monthly_premium_auto Examples.text_premium default_cap = Raise TypeError
   <-> dtype_of (mkSeries object [Str "1,000"; Str "800"]) = datetime64
       \/ exists v, v ∈ values (mkSeries object [Str "1,000"; Str "800"])
                    /\ comparable v = false)
  /\ (forall e, cap_monthly_premium_auto Examples.text_premium default_cap = Raise e ->
                e = TypeError).
Proof. apply cap_monthly_premium_auto_raises. by_evaluation. Defined.

End PremiumCapOnSample.

(** ** [convert_data_types] and [handle_missing_values] on their own *)

Section Coercion.
Context `{NumPy}.

Lemma existsb_negb_forallb {A : Type} (f : A -> bool) (l : list A) :
  existsb f l = negb (forallb (fun x => negb (f x)) l).
Proof.
  induction l as [|x l IH]; [done|]. simpl. rewrite IH. by destruct (f x).
Qed.

Lemma converted_cases (s : Series) :
  match dtype_of s with
  | numeric => converted s = s
  | datetime64 => converted s = view_i8 s
  | object =>
      if reads_as_numbers s
      then converted s
           = mkSeries numeric ((fun v => cell_of_num (to_numeric_obj v)) <$> values s)
      else if reads_as_dates s && one_format (texts s)
           then converted s
                = mkSeries datetime64
                    ((fun v => cell_of_time (to_datetime_obj v)) <$> values s)
           else converted s = s
  end.
Proof.
  unfold converted, to_numeric_ignore, reads_as_numbers, reads_as_dates.
  destruct (dtype_of s) eqn:Hd; [| |done].
  - rewrite existsb_negb_forallb.
    destruct (forallb (fun v => negb (is_unparsed (to_numeric_obj v))) (values s));
      simpl; [done|].
    rewrite decide_True by done. unfold to_datetime_ignore.
    rewrite existsb_negb_forallb.
    destruct (forallb (fun v => negb (is_unparsed (to_datetime_obj v))) (values s));
      simpl; [|done].
    by destruct (one_format (texts s)).
  - by rewrite Hd.
Qed.


Lemma filled_twice (s : Series) : filled (filled s) = filled s.
Proof. apply filled_id, filled_notna. Qed.

(** X19.  On a table with unique labels [handle_missing_values] returns
    a table that it leaves unchanged when run again; and a table without
    a missing cell is returned as it is. *)
Theorem handle_missing_values_twice (df : DataFrame) :
  NoDup (columns df) ->
  (exists df', handle_missing_values df = Ok df' /\ handle_missing_values df' = Ok df')
  /\ (no_missing df -> handle_missing_values df = Ok df).
Proof.
  intros Hnd. split.
  - eexists. split; [by apply handle_missing_values_unique|].
    rewrite handle_missing_values_unique by (by rewrite columns_map_cols).
    f_equal. rewrite map_cols_compose. apply map_cols_ext. intros c s _.
    apply filled_twice.
  - intros Hfull. rewrite handle_missing_values_unique by done. f_equal.
    rewrite <- (map_cols_id df) at 2. apply map_cols_ext. intros c s Hin.
    apply filled_id. apply forallb_forall. intros v Hv.
    apply list_elem_of_In in Hv. by apply (Hfull c s v).
Qed.

End Coercion.

Section CoercionOnSample.
#[local] Existing Instance Decimal.numpy.


Lemma handle_missing_values_twice_witness :
  (exists df',
      handle_missing_values Examples.holes = Ok df'
      /\ handle_missing_values df' = Ok df')
  /\ (no_missing Examples.holes -> handle_missing_values Examples.holes = Ok Examples.holes).
Proof. apply handle_missing_values_twice. by_evaluation. Defined.

End CoercionOnSample.

Section CoercionOfTwoFormats.
#[local] Existing Instance Decimal.numpy_two_formats.

(** Dates that are all written month first become datetime64; dates
    written in two formats, each of them readable on its own, stay
    text. *)
Example convert_data_types_two_formats :
  reads_as_dates (mkSeries object [Str "2020-01-31"; Str "1/2/2020"; NaN]) = true
  /\ one_format ["2020-01-31"; "1/2/2020"] = false
  /\ convert_data_types TwoFormats.dates
     = Ok (mkFrame [0; 1; 2]%Z
             [ ("effective_to_date",
                 mkSeries datetime64
                   [Time 1580428800000000000%Z; NaT; Time 1638316800000000000%Z]);
               ("renewed",
                 mkSeries object [Str "2020-01-31"; Str "1/2/2020"; NaN]) ]).
Proof. split; [|split]; by_evaluation. Qed.

End CoercionOfTwoFormats.

(** ** What every table returned by [clean_data] looks like *)

Section Output.
Context `{NumPy}.

Lemma output_columns (df out : DataFrame) :
  clean_data df = Ok out ->
  NoDup (columns (structured df))
  /\ columnwise (fun c s o => exists s', column_pass c (textified s) = Ok s'
                                         /\ o = filled (converted s'))
       (structured df) out.
Proof. intros Hrun. by apply first_run_columns in Hrun. Qed.

Lemma index_structured (df : DataFrame) : index (structured df) `sublist_of` index df.
Proof.
  unfold structured, remove_duplicates, drop_duplicates.
  set (d0 := remove_empty_rows_columns _).
  assert (index d0 `sublist_of` index df) as Hd0 by apply compress_sublist.
  destruct (empty d0); [done|]. etrans; [apply compress_sublist|done].
Qed.

Lemma columns_structured (df : DataFrame) :
  columns (structured df) `sublist_of` new_label <$> columns df.
Proof.
  unfold structured, remove_duplicates. rewrite columns_drop_duplicates.
  unfold remove_empty_rows_columns.
  etrans; [apply fmap_sublist, sublist_filter|].
  fold (columns (dropna_rows (rename_columns (clean_column_names df)))).
  unfold dropna_rows. rewrite columns_take_rows, columns_rename_columns.
  rewrite columns_clean_column_names, <- list_fmap_compose. done.
Qed.

(** X20.  No cell of a table returned by [clean_data] is missing. *)
Theorem clean_data_leaves_no_missing (df out : DataFrame) :
  clean_data df = Ok out ->
  forall c s v, (c, s) ∈ data out -> v ∈ values s -> isna v = false.
Proof.
  intros Hrun c o v Hin Hv. apply output_columns in Hrun as [_ Hcols].
  destruct (columnwise_elem_of _ _ _ _ _ Hcols Hin) as (s & _ & s' & _ & ->).
  pose proof (filled_notna (converted s')) as Hall. rewrite forallb_forall in Hall.
  apply list_elem_of_In, Hall in Hv. unfold notna in Hv. by destruct (isna v).
Qed.

(** X21.  A table returned by [clean_data] has unique labels; its row
    labels are row labels of the input, in their order; its column labels
    are the normalised and renamed labels of columns of the input, in
    their order; none of them is [st], and each is empty or matches
    [[a-z0-9]+(_[a-z0-9]+)*]. *)
Theorem clean_data_labels (df out : DataFrame) :
  clean_data df = Ok out ->
  NoDup (columns out)
  /\ index out `sublist_of` index df
  /\ columns out `sublist_of` new_label <$> columns df
  /\ forall c, c ∈ columns out ->
               c <> "st" /\ (c = "" \/ Regex.matches Regex.label_pattern c).
Proof.
  intros Hrun. apply output_columns in Hrun as [Hnd Hcols].
  pose proof (columnwise_columns _ _ _ Hcols) as Ecols.
  destruct Hcols as [Eix _]. rewrite Ecols, Eix.
  split; [done|]. split; [apply index_structured|].
  split; [apply columns_structured|].
  intros c Hc. apply columns_structural in Hc. unfold label_settled in Hc.
  apply andb_true_iff in Hc as [Hfix Hst].
  apply bool_decide_eq_true_1 in Hfix. apply bool_decide_eq_true_1 in Hst.
  split; [done|]. by apply PatternFacts.clean_name_fixed.
Qed.

(** *** Well-formedness, column by column *)

Lemma wf_series_iff n (s : Series) :
  wf_series n s = true
  <-> length (values s) = n /\ forall v, v ∈ values s -> fits (dtype_of s) v = true.
Proof.
  unfold wf_series. rewrite andb_true_iff, bool_decide_eq_true, forallb_forall.
  split.
  - intros [Hlen Hfits]. split; [done|]. intros v Hv. by apply Hfits, list_elem_of_In.
  - intros [Hlen Hfits]. split; [done|]. intros v Hv. by apply Hfits, list_elem_of_In.
Qed.

Lemma wf_series_textified n (s : Series) :
  wf_series n s = true -> wf_series n (textified s) = true.
Proof.
  unfold textified. case_decide; [|done]. rewrite !wf_series_iff. simpl.
  intros [Hlen _]. by rewrite length_fmap.
Qed.

Lemma wf_series_replace n m (s : Series) :
  wf_series n s = true -> wf_series n (replace m s) = true.
Proof.
  rewrite !wf_series_iff. unfold replace, map_values. simpl.
  intros [Hlen Hfits]. rewrite length_fmap. split; [done|].
  intros v Hv. apply list_elem_of_fmap in Hv as [w [-> Hw]].
  specialize (Hfits w Hw). destruct w; try done; by destruct (dtype_of s).
Qed.

Lemma wf_series_capped n cap (s s' : Series) :
  wf_series n s = true -> capped cap s = Ok s' -> wf_series n s' = true.
Proof.
  rewrite !wf_series_iff. intros [Hlen Hfits] Hcap.
  destruct (decide (dtype_of s = datetime64)) as [Hd|Hd].
  { unfold capped, series_gt in Hcap. by rewrite Hd in Hcap. }
  destruct (forallb comparable (values s)) eqn:Hcmp.
  - rewrite capped_comparable in Hcap by done. injection Hcap as <-. simpl.
    rewrite length_fmap. split; [done|].
    intros v Hv. apply list_elem_of_fmap in Hv as [w [-> Hw]].
    specialize (Hfits w Hw). destruct w; try done. simpl.
    destruct (num_gtb x cap); [|done]. by destruct (dtype_of s).
  - destruct (capped_raises cap s) as [Hiff _].
    rewrite (proj2 Hiff) in Hcap; [done|]. right. by apply forallb_false.
Qed.

Lemma wf_series_column_pass n c (s s' : Series) :
  wf_series n s = true -> column_pass c s = Ok s' -> wf_series n s' = true.
Proof.
  intros Hwf. unfold column_pass.
  repeat case_decide; try (intros [= <-]; by apply wf_series_replace).
  - by apply wf_series_capped.
  - intros [= <-]. apply wf_series_iff in Hwf as [Hlen _]. apply wf_series_iff.
    simpl. rewrite length_fmap. split; [done|].
    intros v Hv. apply list_elem_of_fmap in Hv as [w [-> _]].
    unfold lifetime_value_of. by destruct (to_numeric_str _).
  - by intros [= <-].
Qed.

Lemma wf_series_converted n (s : Series) :
  wf_series n s = true -> wf_series n (converted s) = true.
Proof.
  intros Hwf. pose proof (converted_cases s) as Hc.
  pose proof Hwf as Hwf'. apply wf_series_iff in Hwf' as [Hlen Hfits].
  destruct (dtype_of s) eqn:Hd.
  - destruct (reads_as_numbers s);
      [|destruct (reads_as_dates s && one_format (texts s))]; rewrite Hc;
      try done; apply wf_series_iff; simpl; rewrite length_fmap; (split; [done|]);
      intros v Hv; apply list_elem_of_fmap in Hv as [w [-> _]].
    + by destruct (to_numeric_obj w).
    + by destruct (to_datetime_obj w).
  - by rewrite Hc.
  - rewrite Hc. apply wf_series_iff. unfold view_i8. simpl. rewrite length_fmap.
    split; [done|]. intros v Hv. apply list_elem_of_fmap in Hv as [w [-> _]].
    by destruct w.
Qed.

Lemma wf_series_filled n (s : Series) :
  wf_series n s = true -> wf_series n (filled s) = true.
Proof.
  rewrite !wf_series_iff. intros [Hlen Hfits]. split.
  - by rewrite length_filled.
  - intros v Hv. rewrite values_filled in Hv.
    apply list_elem_of_fmap in Hv as [w [-> Hw]]. specialize (Hfits w Hw).
    unfold filled, is_numeric_dtype, fillna.
    destruct (dtype_of s) eqn:Hd; simpl; rewrite ?Hd; simpl.
    + by destruct (isna w).
    + by destruct (isna w).
    + destruct (existsb isna (values s)) eqn:Hna; simpl; [by destruct (isna w)|].
      destruct (isna w) eqn:Hw'; [|done].
      by rewrite (existsb_true _ _ w Hw Hw') in Hna.
Qed.

(** X22.  [clean_data] returns a well-formed table when it is given
    one: every column is as long as the index and every cell fits the
    dtype of its column. *)
Theorem clean_data_well_formed (df out : DataFrame) :
  wf_frame df = true -> clean_data df = Ok out -> wf_frame out = true.
Proof.
  intros Hwf Hrun. apply output_columns in Hrun as [_ Hcols].
  pose proof (wf_frame_structural df Hwf) as Hwfd. fold (structured df) in Hwfd.
  destruct (columnwise_shape _ _ _ Hcols) as [Hn _].
  rewrite wf_frame_iff in Hwfd. apply wf_frame_iff. intros c o Hin.
  destruct (columnwise_elem_of _ _ _ _ _ Hcols Hin) as (s & Hs & s' & Hpass & ->).
  rewrite Hn. apply wf_series_filled, wf_series_converted.
  apply (wf_series_column_pass _ c (textified s)); [|done].
  apply wf_series_textified. by apply (Hwfd c).
Qed.

(** *** The two numeric columns *)

Lemma capped_cells cap (s s' : Series) :
  capped cap s = Ok s' ->
  forall v, v ∈ values s' ->
            isna v = true \/ exists x, v = Num x /\ (num_gtb x cap = false \/ x = cap).
Proof.
  unfold capped. destruct (series_gt s cap) as [mask|] eqn:Hgt; simpl; [|done].
  intros [= <-] v Hv. unfold series_gt in Hgt.
  destruct (dtype_of s); try done; by apply (np_where_cells cap (values s) mask).
Qed.

Lemma dtype_capped cap (s s' : Series) :
  capped cap s = Ok s' -> dtype_of s' = dtype_of s.
Proof.
  unfold capped. destruct (series_gt s cap) as [mask|]; simpl; [|done].
  by intros [= <-].
Qed.

(** A premium column that the cap accepts after [strip_text_columns] is
    numeric or has no cell. *)
Lemma capped_textified cap (s s' : Series) :
  capped cap (textified s) = Ok s' -> dtype_of s = numeric \/ values s = [].
Proof.
  destruct s as [d vs]. unfold textified, capped, series_gt.
  destruct d; simpl; [|by left|done].
  destruct vs as [|v vs]; [by right|done].
Qed.

(** X23.  In a table returned by [clean_data] the column
    [customer_lifetime_value], when there is one, is numeric and holds
    numbers only; so is the column [monthly_premium_auto], and each of
    its numbers is at most the cap, is the cap, or is the 0 that filled
    a missing cell. *)
Theorem clean_data_numeric_columns (df out : DataFrame) :
  clean_data df = Ok out ->
  (forall s, ("customer_lifetime_value", s) ∈ data out -> num_cells (fun _ => True) s)
  /\ (forall s, ("monthly_premium_auto", s) ∈ data out ->
                num_cells (fun x => num_gtb x default_cap = false
                                    \/ x = default_cap \/ x = num_of_Z 0) s).
Proof.
  intros Hrun. apply output_columns in Hrun as [_ Hcols]. split; intros s Hin;
    destruct (columnwise_elem_of _ _ _ _ _ Hcols Hin) as (s0 & _ & s' & Hpass & ->).
  - unfold column_pass in Hpass. simpl in Hpass. injection Hpass as <-.
    apply converted_num_cells; [done| |done].
    intros v Hv. simpl in Hv. apply list_elem_of_fmap in Hv as [w [-> _]].
    unfold lifetime_value_of. destruct (to_numeric_str _); simpl; eauto.
  - pose proof (length_column_pass _ _ _ Hpass) as Hlen.
    unfold column_pass in Hpass. simpl in Hpass.
    pose proof (capped_cells _ _ _ Hpass) as Hcells.
    pose proof (dtype_capped _ _ _ Hpass) as Hd.
    destruct (capped_textified _ _ _ Hpass) as [Hnum|Hnil].
    + apply converted_num_cells; [|..].
      * rewrite Hd. unfold textified. by rewrite decide_False by congruence.
      * intros v Hv. destruct (Hcells v Hv) as [?|(x & -> & [?| ->])]; eauto 6.
      * auto.
    + assert (values s' = []) as Hnil'.
      { apply nil_length_inv. by rewrite Hlen, length_textified, Hnil. }
      destruct s' as [d' vs']. simpl in *. subst vs'.
      unfold converted, to_numeric_ignore, filled, fillna, is_numeric_dtype.
      destruct d'; simpl; (split; [done|]); intros v Hv; by apply elem_of_nil in Hv.
Qed.

(** *** Text that survives coercion and filling *)

Lemma converted_text (s : Series) y :
  Str y ∈ values (converted s) -> Str y ∈ values s.
Proof.
  pose proof (converted_cases s) as Hc. destruct (dtype_of s) eqn:Hd.
  - destruct (reads_as_numbers s);
      [|destruct (reads_as_dates s && one_format (texts s))]; rewrite Hc;
      try done; simpl; intros Hin; apply list_elem_of_fmap in Hin as [w [E _]].
    + by destruct (to_numeric_obj w).
    + by destruct (to_datetime_obj w).
  - by rewrite Hc.
  - rewrite Hc. unfold view_i8. simpl. intros Hin.
    apply list_elem_of_fmap in Hin as [w [E _]]. by destruct w.
Qed.

Lemma filled_text (s : Series) y :
  Str y ∈ values (filled s) -> Str y ∈ values s \/ y = "unknown".
Proof.
  rewrite values_filled. intros Hin. apply list_elem_of_fmap in Hin as [w [E Hw]].
  destruct (isna w).
  - destruct (is_numeric_dtype s); [done|]. injection E as ->. by right.
  - subst w. by left.
Qed.

Lemma output_text (s' : Series) (m : gmap string string) y :
  (forall x z, m !! x = Some z -> default z (m !! z) = z) ->
  m !! "unknown" = None ->
  Str y ∈ values (filled (converted (replace m s'))) ->
  default y (m !! y) = y.
Proof.
  intros Hm Hunknown Hin. apply filled_text in Hin as [Hin| ->].
  - apply converted_text in Hin. by apply (replace_settled m s').
  - by rewrite Hunknown.
Qed.

(** X24.  A table returned by [clean_data] holds none of the spellings
    that the mapping stages replace: no [male], [female] or [femal]
    under [gender]; no [bachelors], [high school or below] or [doctor]
    under [education]; no [az], [wa] or [cali] under [state]; no
    [personal auto], [corporate auto] or [special auto] under
    [policy_type]. *)
Theorem clean_data_leaves_no_synonym (df out : DataFrame) :
  clean_data df = Ok out ->
  (forall s x, ("gender", s) ∈ data out -> Str x ∈ values s ->
               x <> "male" /\ x <> "female" /\ x <> "femal")
  /\ (forall s x, ("education", s) ∈ data out -> Str x ∈ values s ->
                  x <> "bachelors" /\ x <> "high school or below" /\ x <> "doctor")
  /\ (forall s x, ("state", s) ∈ data out -> Str x ∈ values s ->
                  x <> "az" /\ x <> "wa" /\ x <> "cali")
  /\ (forall s x, ("policy_type", s) ∈ data out -> Str x ∈ values s ->
                  x <> "personal auto" /\ x <> "corporate auto" /\ x <> "special auto").
Proof.
  intros Hrun. apply output_columns in Hrun as [_ Hcols].
  split; [|split; [|split]]; intros s x Hin Hx;
    destruct (columnwise_elem_of _ _ _ _ _ Hcols Hin) as (s0 & _ & s' & Hpass & ->);
    unfold column_pass in Hpass; simpl in Hpass; injection Hpass as <-.
  - apply output_text in Hx;
      [|apply gender_mapping_settles|by vm_compute].
    repeat split; intros ->; by vm_compute in Hx.
  - apply output_text in Hx;
      [|apply education_mapping_settles|by vm_compute].
    repeat split; intros ->; by vm_compute in Hx.
  - apply output_text in Hx;
      [|apply state_mapping_settles|by vm_compute].
    repeat split; intros ->; by vm_compute in Hx.
  - apply output_text in Hx;
      [|apply policy_mapping_settles|by vm_compute].
    repeat split; intros ->; by vm_compute in Hx.
Qed.

End Output.

Section OutputOnSample.
#[local] Existing Instance Decimal.numpy.

Lemma clean_data_leaves_no_missing_witness :
  clean_data Examples.roster = Ok Examples.roster_cleaned
  /\ forall c s v, (c, s) ∈ data Examples.roster_cleaned -> v ∈ values s ->
                   isna v = false.
Proof.
  assert (clean_data Examples.roster = Ok Examples.roster_cleaned) as Hrun
    by by_evaluation.
  split; [exact Hrun|]. exact (clean_data_leaves_no_missing _ _ Hrun).
Defined.

Lemma clean_data_labels_witness :
  NoDup (columns Examples.roster_cleaned)
  /\ index Examples.roster_cleaned `sublist_of` index Examples.roster
  /\ columns Examples.roster_cleaned `sublist_of` new_label <$> columns Examples.roster
  /\ forall c, c ∈ columns Examples.roster_cleaned ->
               c <> "st" /\ (c = "" \/ Regex.matches Regex.label_pattern c).
Proof. apply clean_data_labels. by_evaluation. Defined.

Lemma clean_data_well_formed_witness : wf_frame Examples.roster_cleaned = true.
Proof. apply (clean_data_well_formed Examples.roster); by_evaluation. Defined.

Lemma clean_data_numeric_columns_witness :
  (forall s, ("customer_lifetime_value", s) ∈ data Examples.roster_cleaned ->
             num_cells (fun _ => True) s)
  /\ (forall s, ("monthly_premium_auto", s) ∈ data Examples.roster_cleaned ->
                num_cells (fun x => num_gtb x default_cap = false
                                    \/ x = default_cap \/ x = num_of_Z 0) s).
Proof. apply (clean_data_numeric_columns Examples.roster). by_evaluation. Defined.

Lemma clean_data_leaves_no_synonym_witness :
  (forall s x, ("gender", s) ∈ data Examples.roster_cleaned -> Str x ∈ values s ->
               x <> "male" /\ x <> "female" /\ x <> "femal")
  /\ (forall s x, ("education", s) ∈ data Examples.roster_cleaned -> Str x ∈ values s ->
                  x <> "bachelors" /\ x <> "high school or below" /\ x <> "doctor")
  /\ (forall s x, ("state", s) ∈ data Examples.roster_cleaned -> Str x ∈ values s ->
                  x <> "az" /\ x <> "wa" /\ x <> "cali")
  /\ (forall s x, ("policy_type", s) ∈ data Examples.roster_cleaned ->
                  Str x ∈ values s ->
                  x <> "personal auto" /\ x <> "corporate auto" /\ x <> "special auto").
Proof. apply (clean_data_leaves_no_synonym Examples.roster). by_evaluation. Defined.

End OutputOnSample.

(** ** When [clean_data] completes *)

Section Completion.
Context `{NumPy}.

Lemma bind_Ok {A B : Type} (a : A) (f : A -> outcome B) : Ok a ≫= f = f a.
Proof. done. Qed.

Lemma bind_Raise {A B : Type} (e : exn) (f : A -> outcome B) : Raise e ≫= f = Raise e.
Proof. done. Qed.

Lemma clean_data_structured (df : DataFrame) :
  clean_data df
  = (strip_text_columns (structured df) ≫= fun d =>
     clean_gender d ≫= fun d =>
     clean_education d ≫= fun d =>
     clean_state_names d ≫= fun d =>
     cap_monthly_premium_auto d default_cap ≫= fun d =>
     clean_policy_type d ≫= fun d =>
     clean_customer_lifetime_value d ≫= fun d =>
     convert_data_types d ≫= handle_missing_values).
Proof. done. Qed.

Lemma on_column_map_cols col (g : Series -> Series) (d : DataFrame) :
  NoDup (columns d) ->
  on_column col (fun s => Ok (g s)) d
  = Ok (map_cols (fun c s => if decide (c = col) then g s else s) d).
Proof.
  intros Hnd. destruct (has_column d col) eqn:Hc.
  - apply bool_decide_eq_true_1 in Hc.
    destruct (getitem_unique _ _ Hnd Hc) as (s & Hg & Hin).
    rewrite (on_column_unique _ _ _ s Hnd Hin). simpl. f_equal.
    rewrite setitem_map_cols by (by apply bool_decide_eq_true_2).
    apply map_cols_ext. intros c s0 Hin0. case_decide; [|done]. subst c.
    by rewrite (unique_series _ _ _ _ Hnd Hin0 Hin).
  - rewrite on_column_absent by done. f_equal.
    rewrite <- (map_cols_id d) at 1. apply map_cols_ext. intros c s Hin.
    case_decide; [|done]. subst c. apply bool_decide_eq_false_1 in Hc.
    exfalso. apply Hc. by apply elem_of_columns in Hin.
Qed.

(** The stages that follow the cap return on a table with unique
    labels. *)
Lemma last_stages_return (d : DataFrame) :
  NoDup (columns d) ->
  exists out,
    (clean_policy_type d ≫= fun d =>
     clean_customer_lifetime_value d ≫= fun d =>
     convert_data_types d ≫= handle_missing_values) = Ok out.
Proof.
  intros Hnd.
  rewrite clean_policy_type_on_column, on_column_map_cols, bind_Ok by done.
  rewrite clean_customer_lifetime_value_on_column.
  rewrite (on_column_map_cols _
             (fun s => mkSeries numeric (lifetime_value_of <$> values s))), bind_Ok
    by (by rewrite columns_map_cols).
  rewrite convert_data_types_unique, bind_Ok by (by rewrite !columns_map_cols).
  rewrite handle_missing_values_unique by (by rewrite !columns_map_cols).
  by eexists.
Qed.

(** The table that reaches the cap: the premium column has been through
    [strip_text_columns] and nothing else. *)
Lemma first_stages_return (d : DataFrame) :
  NoDup (columns d) ->
  exists d4,
    (strip_text_columns d ≫= fun d =>
     clean_gender d ≫= fun d =>
     clean_education d ≫= clean_state_names) = Ok d4
    /\ columns d4 = columns d
    /\ forall s, ("monthly_premium_auto", s) ∈ data d ->
                 ("monthly_premium_auto", textified s) ∈ data d4.
Proof.
  intros Hnd.
  rewrite strip_text_columns_textified, bind_Ok by done.
  rewrite clean_gender_on_column, on_column_map_cols, bind_Ok
    by (by rewrite columns_map_cols).
  rewrite clean_education_on_column, on_column_map_cols, bind_Ok
    by (by rewrite !columns_map_cols).
  rewrite clean_state_names_on_column, on_column_map_cols
    by (by rewrite !columns_map_cols).
  eexists. split; [done|]. split; [by rewrite !columns_map_cols|].
  intros s Hin. rewrite !map_cols_compose. unfold map_cols. simpl.
  apply list_elem_of_fmap. exists ("monthly_premium_auto", s). split; [|done].
  reflexivity.
Qed.

Lemma first_stages_bind {B : Type} (d : DataFrame) (k : DataFrame -> outcome B) :
  (strip_text_columns d ≫= fun d =>
   clean_gender d ≫= fun d =>
   clean_education d ≫= fun d =>
   clean_state_names d ≫= k)
  = ((strip_text_columns d ≫= fun d =>
      clean_gender d ≫= fun d =>
      clean_education d ≫= clean_state_names) ≫= k).
Proof.
  destruct (strip_text_columns d) as [d1|]; [|done]. simpl.
  destruct (clean_gender d1) as [d2|]; [|done]. simpl.
  by destruct (clean_education d2) as [d3|].
Qed.

Lemma fits_numeric_comparable (vs : list pyobj) :
  forallb (fits numeric) vs = true -> forallb comparable vs = true.
Proof.
  rewrite !forallb_forall. intros Hfits v Hv. specialize (Hfits v Hv). by destruct v.
Qed.

Lemma capped_textified_raises cap (s : Series) :
  dtype_of s <> numeric -> values s <> [] ->
  capped cap (textified s) = Raise TypeError.
Proof.
  destruct s as [d vs]. unfold textified, capped, series_gt. simpl.
  intros Hd Hvs. destruct d; simpl; [|done|done].
  by destruct vs as [|v vs].
Qed.

(** X25.  Take a well-formed table whose labels are still unique when
    it enters the cell-level stages.  [clean_data] returns a table when
    the premium column of that table, if there is one, is numeric; and
    it raises [TypeError] when that column is of another dtype. *)
Theorem clean_data_completes (df : DataFrame) :
  wf_frame df = true ->
  NoDup (columns (structured df)) ->
  ((forall s, ("monthly_premium_auto", s) ∈ data (structured df) ->
              dtype_of s = numeric) ->
   exists out, clean_data df = Ok out)
  /\ ((exists s, ("monthly_premium_auto", s) ∈ data (structured df)
                 /\ dtype_of s <> numeric) ->
      clean_data df = Raise TypeError).
Proof.
  intros Hwf Hnd. rewrite clean_data_structured.
  pose proof (wf_frame_structural df Hwf) as Hwfd.
  pose proof (structural_empty df Hwf) as Hempty.
  fold (structured df) in Hwfd, Hempty. cbv zeta in Hempty.
  set (d := structured df) in *.
  destruct (first_stages_return d Hnd) as (d4 & Hfirst & Hcols & Hpremium).
  rewrite first_stages_bind, Hfirst, bind_Ok. clear Hfirst.
  assert (NoDup (columns d4)) as Hnd4 by by rewrite Hcols.
  assert (forall s, ("monthly_premium_auto", s) ∈ data d ->
                    cap_monthly_premium_auto d4 default_cap
                    = (fun s' => setitem d4 "monthly_premium_auto" s')
                        <$> capped default_cap (textified s)) as Hcap.
  { intros s Hin. rewrite cap_monthly_premium_auto_on_column.
    by apply on_column_unique, Hpremium. }
  split.
  - intros Hnum. destruct (has_column d "monthly_premium_auto") eqn:Hc.
    + apply bool_decide_eq_true_1 in Hc.
      destruct (getitem_unique _ _ Hnd Hc) as (s & _ & Hin).
      rewrite (Hcap s Hin). pose proof (Hnum s Hin) as Hd.
      rewrite wf_frame_iff in Hwfd. specialize (Hwfd _ _ Hin).
      apply andb_true_iff in Hwfd as [_ Hfits]. rewrite Hd in Hfits.
      assert (textified s = s) as ->.
      { unfold textified. by rewrite decide_False by congruence. }
      rewrite capped_comparable;
        [|congruence|by apply fits_numeric_comparable].
      simpl. apply last_stages_return. rewrite columns_setitem; [done|].
      apply bool_decide_eq_true_2. by rewrite Hcols.
    + rewrite cap_monthly_premium_auto_on_column, on_column_absent, bind_Ok.
      * by apply last_stages_return.
      * unfold has_column in *. by rewrite Hcols.
  - intros (s & Hin & Hd). rewrite (Hcap s Hin).
    rewrite capped_textified_raises; [done|done|].
    rewrite wf_frame_iff in Hwfd. specialize (Hwfd _ _ Hin).
    apply andb_true_iff in Hwfd as [Hlen _]. apply bool_decide_eq_true_1 in Hlen.
    intros Hnil. rewrite Hnil in Hlen. simpl in Hlen. symmetry in Hlen.
    apply Hempty in Hlen. unfold ncols in Hlen. apply nil_length_inv in Hlen.
    rewrite Hlen in Hin. by apply elem_of_nil in Hin.
Qed.

End Completion.

Section CompletionOnSample.
#[local] Existing Instance Decimal.numpy.

Lemma clean_data_completes_witness :
  ((forall s, ("monthly_premium_auto", s) ∈ data (structured Examples.text_premium) ->
              dtype_of s = numeric) ->
   exists out, clean_data Examples.text_premium = Ok out)
  /\ ((exists s, ("monthly_premium_auto", s) ∈ data (structured Examples.text_premium)
                 /\ dtype_of s <> numeric) ->
      clean_data Examples.text_premium = Raise TypeError).
Proof. apply clean_data_completes; by_evaluation. Defined.

End CompletionOnSample.

(** ** The order of the column stages *)

Section ColumnStageOrder.
Context `{NumPy}.

Lemma column_stages_on_column c stage :
  (c, stage) ∈ column_stages ->
  exists f, forall df : DataFrame, stage df = on_column c f df.
Proof.
  unfold column_stages. intros Hin.
  repeat (apply elem_of_cons in Hin as [[= -> ->]|Hin];
          [eexists; intros df;
           first [ apply clean_gender_on_column
                 | apply clean_education_on_column
                 | apply clean_state_names_on_column
                 | apply cap_monthly_premium_auto_on_column
                 | apply clean_policy_type_on_column
                 | apply clean_customer_lifetime_value_on_column ]|]).
  by apply elem_of_nil in Hin.
Qed.

(** X26.  Any two of the six column stages can be run in either order:
    both orders raise, or both return the same table. *)
Theorem column_stages_commute c1 c2 stage1 stage2 (df : DataFrame) :
  (c1, stage1) ∈ column_stages -> (c2, stage2) ∈ column_stages -> c1 <> c2 ->
  same_outcome (stage1 df ≫= stage2) (stage2 df ≫= stage1).
Proof.
  intros [f1 H1]%column_stages_on_column [f2 H2]%column_stages_on_column Hne.
  rewrite H1, H2.
  assert ((on_column c1 f1 df ≫= stage2) = (on_column c1 f1 df ≫= on_column c2 f2)) as ->.
  { destruct (on_column c1 f1 df); [apply H2|done]. }
  assert ((on_column c2 f2 df ≫= stage1) = (on_column c2 f2 df ≫= on_column c1 f1)) as ->.
  { destruct (on_column c2 f2 df); [apply H1|done]. }
  by apply on_column_swap.
Qed.

End ColumnStageOrder.

Section ColumnStageOrderOnSample.
#[local] Existing Instance Decimal.numpy.

Lemma column_stages_commute_witness :
  same_outcome
    (clean_gender Cases.spellings ≫= clean_state_names)
    (clean_state_names Cases.spellings ≫= clean_gender).
Proof.
  apply (column_stages_commute "gender" "state").
  - unfold column_stages. by left.
  - unfold column_stages. do 2 right. by left.
  - done.
Defined.

End ColumnStageOrderOnSample.
